(** * scripts/enrich.py: inference of language, category and framework

    A shallow embedding of [scripts/enrich.py] and the properties of its
    three inference functions and of the driver that applies them.

    Conventions of the model.
    - A Python [str] is a [string]; its characters are Rocq's 8-bit [ascii].
      Case folding ([str.lower], [re.IGNORECASE]) and the classes [\w], [\s]
      and [\b] follow Python on the code points below 128; a character at 128
      or above has no case and is neither a word character nor white space.
      The model is therefore exact on ASCII text.
    - A Python [int] is a [Z].
    - An agent (a JSON object read by [json.load]) is a record of optional
      fields: a key that is absent is [None], and [agent.get(k, d)] is [get].
      A key that holds [null] is modelled apart, in the records of
      [RawAgent], on which the inferences can raise; a key that holds a
      value of another type than its own is not modelled.
    - A [Counter] is the list of its items in insertion order.
    - The operations of Python that can raise on well-typed data ([xs[i]],
      [d[k]], a method call on [None]) return in the monad [result]. *)

From Stdlib Require Import Strings.String Strings.Ascii Lists.List ZArith Bool Lia Arith.
From Stdlib Require Import Sorting.Permutation Sorting.Sorted.
Import ListNotations.

Local Open Scope string_scope.
Local Open Scope list_scope.
Local Open Scope Z_scope.

(** ** Exceptions *)

Inductive exn : Type := IndexError | KeyError | AttributeError | TypeError.

Inductive result (A : Type) : Type :=
| Ok (a : A)
| Raise (e : exn).

Arguments Ok {A} a.
Arguments Raise {A} e.

Definition bind {A B : Type} (m : result A) (f : A -> result B) : result B :=
  match m with
  | Ok a => f a
  | Raise e => Raise e
  end.

Notation "x <- m ;; k" := (bind m (fun x => k))
  (at level 61, m at next level, right associativity).

(** [for x in xs: body] over a state [s]. *)
Fixpoint for_each {A S : Type} (xs : list A) (body : A -> S -> result S) (s : S)
  : result S :=
  match xs with
  | [] => Ok s
  | x :: xs' => s' <- body x s ;; for_each xs' body s'
  end.

(** ** Python values *)

(** [d.get(k, default)] on an optional field. *)
Definition get {A : Type} (o : option A) (default : A) : A :=
  match o with
  | Some a => a
  | None => default
  end.

Definition is_some {A : Type} (o : option A) : bool :=
  match o with
  | Some _ => true
  | None => false
  end.

(** [xs[i]], with Python's negative indices. *)
Definition index {A : Type} (xs : list A) (i : Z) : result A :=
  let n := Z.of_nat (List.length xs) in
  let j := if i <? 0 then n + i else i in
  if (j <? 0) || (n <=? j) then Raise IndexError
  else match nth_error xs (Z.to_nat j) with
       | Some a => Ok a
       | None => Raise IndexError
       end.

(** A dict literal, in the order it is written. *)
Definition dict (V : Type) : Type := list (string * V).

Fixpoint dict_get {V : Type} (d : dict V) (k : string) : option V :=
  match d with
  | [] => None
  | (k', v) :: d' => if String.eqb k' k then Some v else dict_get d' k
  end.

(** [k in d] *)
Definition dict_in {V : Type} (k : string) (d : dict V) : bool :=
  is_some (dict_get d k).

(** [d[k]] *)
Definition dict_index {V : Type} (d : dict V) (k : string) : result V :=
  match dict_get d k with
  | Some v => Ok v
  | None => Raise KeyError
  end.

(** [x in (a, b, ...)] *)
Definition str_in (x : string) (xs : list string) : bool :=
  existsb (String.eqb x) xs.

(** ** Characters and strings *)

Definition code (c : ascii) : nat := nat_of_ascii c.

Definition between (lo hi : nat) (c : ascii) : bool :=
  (lo <=? code c)%nat && (code c <=? hi)%nat.

Definition is_upper (c : ascii) : bool := between 65 90 c.
Definition is_lower (c : ascii) : bool := between 97 122 c.
Definition is_digit (c : ascii) : bool := between 48 57 c.

(** [\w] *)
Definition is_word (c : ascii) : bool :=
  is_upper c || is_lower c || is_digit c || Ascii.eqb c "_".

(** [\s], and the characters removed by [str.strip()] *)
Definition is_space (c : ascii) : bool :=
  between 9 13 c || between 28 32 c.

Definition lower_char (c : ascii) : ascii :=
  if is_upper c then ascii_of_nat (code c + 32) else c.

(** [s.lower()] *)
Fixpoint lower (s : string) : string :=
  match s with
  | EmptyString => EmptyString
  | String c s' => String (lower_char c) (lower s')
  end.

(** [s.startswith(p)] *)
Definition startswith (s p : string) : bool := String.prefix p s.

(** [sub in s] *)
Fixpoint contains (sub s : string) : bool :=
  String.prefix sub s ||
  match s with
  | EmptyString => false
  | String _ s' => contains sub s'
  end.

(** [s.endswith(p)] *)
Fixpoint endswith (s p : string) : bool :=
  String.eqb s p ||
  match s with
  | EmptyString => false
  | String _ s' => endswith s' p
  end.

(** [s.rstrip(chars)] and [s.lstrip(chars)], the set of characters given as
    a predicate. *)
Fixpoint rstrip (strip : ascii -> bool) (s : string) : string :=
  match s with
  | EmptyString => EmptyString
  | String c s' =>
      match rstrip strip s' with
      | EmptyString => if strip c then EmptyString else String c EmptyString
      | r => String c r
      end
  end.

Fixpoint lstrip (strip : ascii -> bool) (s : string) : string :=
  match s with
  | EmptyString => EmptyString
  | String c s' => if strip c then lstrip strip s' else s
  end.

(** [s.strip()] *)
Definition strip (s : string) : string := lstrip is_space (rstrip is_space s).

(** [s.split(sep)] for a separator of one character. *)
Fixpoint split (sep : ascii) (s : string) : list string :=
  match s with
  | EmptyString => [EmptyString]
  | String c s' =>
      if Ascii.eqb c sep then EmptyString :: split sep s'
      else match split sep s' with
           | h :: t => String c h :: t
           | [] => [String c EmptyString]
           end
  end.

(** ** Regular expressions

    The part of Python's [re] syntax that the patterns of the script use,
    and a backtracking matcher with Python's priorities: the alternatives of
    [|] from left to right, greedy [*], [+] and [?]. *)

Inductive regex : Type :=
| REps                         (* the empty pattern *)
| RChar (c : ascii)            (* a literal character *)
| RAny                         (* [.] *)
| RSet (cs : list ascii)       (* [[...]] *)
| RWord                        (* [\w] *)
| RSpace                       (* [\s] *)
| RBound                       (* [\b] *)
| RSeq (r1 r2 : regex)
| RAlt (r1 r2 : regex)
| RStar (r : regex)
| RNot (r : regex)             (* [(?!...)] *)
| RGroup (r : regex)           (* [(...)], group 1 *)
| RFail.                       (* a pattern that did not compile *)

(** *** Compiling a pattern *)

Definition escape (c : ascii) : regex :=
  if Ascii.eqb c "b" then RBound
  else if Ascii.eqb c "s" then RSpace
  else if Ascii.eqb c "w" then RWord
  else RChar c.

Fixpoint parse_set (s : string) (acc : list ascii) : option (regex * string) :=
  match s with
  | EmptyString => None
  | String c s' =>
      if Ascii.eqb c "]" then Some (RSet (rev acc), s')
      else parse_set s' (c :: acc)
  end.

(** A quantifier after an atom; [r+] is [rr*] and [r?] is [r|]. *)
Definition quantifier (r : regex) (s : string) : regex * string :=
  match s with
  | String "*" s' => (RStar r, s')
  | String "+" s' => (RSeq r (RStar r), s')
  | String "?" s' => (RAlt r REps, s')
  | _ => (r, s)
  end.

Fixpoint parse_alt (fuel : nat) (s : string) : option (regex * string) :=
  match fuel with
  | O => None
  | S fuel' =>
      match parse_seq fuel' s with
      | Some (r1, String "|" s1) =>
          match parse_alt fuel' s1 with
          | Some (r2, s2) => Some (RAlt r1 r2, s2)
          | None => None
          end
      | other => other
      end
  end
with parse_seq (fuel : nat) (s : string) : option (regex * string) :=
  match fuel with
  | O => None
  | S fuel' =>
      match s with
      | EmptyString => Some (REps, s)
      | String "|" _ => Some (REps, s)
      | String ")" _ => Some (REps, s)
      | _ =>
          match parse_atom fuel' s with
          | Some (a, s1) =>
              let (q, s2) := quantifier a s1 in
              match parse_seq fuel' s2 with
              | Some (REps, s3) => Some (q, s3)
              | Some (r, s3) => Some (RSeq q r, s3)
              | None => None
              end
          | None => None
          end
      end
  end
with parse_atom (fuel : nat) (s : string) : option (regex * string) :=
  match fuel with
  | O => None
  | S fuel' =>
      match s with
      | EmptyString => None
      | String "(" (String "?" (String ":" s1)) =>
          match parse_alt fuel' s1 with
          | Some (r, String ")" s2) => Some (r, s2)
          | _ => None
          end
      | String "(" (String "?" (String "!" s1)) =>
          match parse_alt fuel' s1 with
          | Some (r, String ")" s2) => Some (RNot r, s2)
          | _ => None
          end
      | String "(" s1 =>
          match parse_alt fuel' s1 with
          | Some (r, String ")" s2) => Some (RGroup r, s2)
          | _ => None
          end
      | String "[" s1 => parse_set s1 []
      | String "\" (String c s1) => Some (escape c, s1)
      | String "\" EmptyString => None
      | String "." s1 => Some (RAny, s1)
      | String c s1 => Some (RChar c, s1)
      end
  end.

(** [re.compile(pattern)] *)
Definition re_compile (pattern : string) : option regex :=
  match parse_alt (2 * String.length pattern + 2) pattern with
  | Some (r, EmptyString) => Some r
  | _ => None
  end.

Definition rx (pattern : string) : regex := get (re_compile pattern) RFail.

(** *** Matching *)

(** The state of a match: the character before the position, the text that
    is left, and the text of group 1 once the group has matched. *)
Record mstate : Type := MState {
  prev : option ascii;
  rest : string;
  group1 : option string
}.

(** A match object. *)
Definition Match : Type := mstate.

Definition char_eq (ic : bool) (a b : ascii) : bool :=
  if ic then Ascii.eqb (lower_char a) (lower_char b) else Ascii.eqb a b.

Definition word_opt (o : option ascii) : bool :=
  match o with
  | Some c => is_word c
  | None => false
  end.

Definition next (s : string) : option ascii :=
  match s with
  | EmptyString => None
  | String c _ => Some c
  end.

(** Consume one character that satisfies [p]. *)
Definition step (p : ascii -> bool) (k : mstate -> option Match) (st : mstate)
  : option Match :=
  match rest st with
  | EmptyString => None
  | String c s' => if p c then k (MState (Some c) s' (group1 st)) else None
  end.

Definition orelse {A : Type} (a b : option A) : option A :=
  match a with
  | Some _ => a
  | None => b
  end.

(** The text between two positions of the same string. *)
Definition consumed (before after : string) : string :=
  substring 0 (String.length before - String.length after) before.

Fixpoint rmatch (ic : bool) (r : regex) (k : mstate -> option Match) (st : mstate)
  {struct r} : option Match :=
  match r with
  | REps => k st
  | RChar c => step (char_eq ic c) k st
  | RAny => step (fun a => negb (Ascii.eqb a "010")) k st
  | RSet cs => step (fun a => existsb (char_eq ic a) cs) k st
  | RWord => step is_word k st
  | RSpace => step is_space k st
  | RBound =>
      if xorb (word_opt (prev st)) (word_opt (next (rest st))) then k st else None
  | RSeq r1 r2 => rmatch ic r1 (rmatch ic r2 k) st
  | RAlt r1 r2 => orelse (rmatch ic r1 k st) (rmatch ic r2 k st)
  | RStar r' =>
      (fix star (n : nat) (st : mstate) {struct n} : option Match :=
         match n with
         | O => k st
         | S n' =>
             orelse
               (rmatch ic r'
                  (fun st' =>
                     if (String.length (rest st') <? String.length (rest st))%nat
                     then star n' st' else None) st)
               (k st)
         end) (String.length (rest st)) st
  | RNot r' =>
      match rmatch ic r' Some st with
      | Some _ => None
      | None => k st
      end
  | RGroup r' =>
      rmatch ic r'
        (fun st' => k (MState (prev st') (rest st')
                         (Some (consumed (rest st) (rest st'))))) st
  | RFail => None
  end.

(** The leftmost match that starts at or after the current position. *)
Fixpoint search_from (ic : bool) (r : regex) (p : option ascii) (s : string)
  : option Match :=
  match rmatch ic r Some (MState p s None) with
  | Some m => Some m
  | None =>
      match s with
      | EmptyString => None
      | String c s' => search_from ic r (Some c) s'
      end
  end.

(** [re.search(pattern, s)] and [re.search(pattern, s, re.IGNORECASE)] *)
Definition re_search (pattern : string) (s : string) : option Match :=
  search_from false (rx pattern) None s.

Definition re_search_i (pattern : string) (s : string) : option Match :=
  search_from true (rx pattern) None s.

(** [m.group(1)] *)
Definition group (m : Match) : option string := group1 m.

(** [x.lower()] on a value that may be [None] *)
Definition lower_opt (x : option string) : result string :=
  match x with
  | Some s => Ok (lower s)
  | None => Raise AttributeError
  end.

(** ** [collections.Counter] *)

Definition Counter : Type := list (string * Z).

(** [c[k]]: the count of [k], 0 when [k] is missing. *)
Fixpoint counter_get (c : Counter) (k : string) : Z :=
  match c with
  | [] => 0
  | (k', n) :: c' => if String.eqb k' k then n else counter_get c' k
  end.

(** [c[k] = v]: a key that is present keeps its place, a new one goes last. *)
Fixpoint counter_set (c : Counter) (k : string) (v : Z) : Counter :=
  match c with
  | [] => [(k, v)]
  | (k', n) :: c' =>
      if String.eqb k' k then (k', v) :: c' else (k', n) :: counter_set c' k v
  end.

(** [c[k] += w] *)
Definition incr (c : Counter) (k : string) (w : Z) : Counter :=
  counter_set c k (counter_get c k + w).

(** [sorted(items, key=itemgetter(1), reverse=True)]: stable, so that items
    of equal count keep their order. *)
Fixpoint insert_desc (x : string * Z) (l : list (string * Z)) : list (string * Z) :=
  match l with
  | [] => [x]
  | y :: l' => if snd y <=? snd x then x :: l else y :: insert_desc x l'
  end.

Definition sorted_desc (c : Counter) : list (string * Z) :=
  fold_right insert_desc [] c.

(** [c.most_common(n)], which is [heapq.nlargest(n, c.items(), key=count)]. *)
Definition most_common (n : nat) (c : Counter) : list (string * Z) :=
  firstn n (sorted_desc c).

(** [not c] *)
Definition empty (c : Counter) : bool :=
  match c with
  | [] => true
  | _ :: _ => false
  end.

(** ** Sets of strings *)

(** [set(xs)], as a list without duplicates. *)
Definition set_of (xs : list string) : list string := nodup string_dec xs.

(** [a & b] *)
Definition inter (a b : list string) : list string :=
  filter (fun x => str_in x b) a.

(** [len(xs)] *)
Definition len {A : Type} (xs : list A) : Z := Z.of_nat (List.length xs).

(** ** Agents

    A record of [Agent] is a parsed agent whose fields are absent or hold a
    value of their type. The records in which a field holds [null] are those
    of [RawAgent], further down. *)

Record Provider : Type := {
  provider_name : option string;
  provider_url : option string
}.

Record Skill : Type := {
  skill_tags : option (list string)
}.

Record Agent : Type := {
  slug : option string;
  name : option string;
  description : option string;
  repository : option string;
  tags : option (list string);
  sdks : option (list string);
  skills : option (list Skill);
  provider : option Provider;
  language : option string;
  category : option string;
  framework : option string
}.

(** ** Language inference *)

Definition FRAMEWORK_TO_LANGUAGE : dict string :=
  [ ("google-adk", "python");
    ("langgraph", "python");
    ("langchain", "python");
    ("crewai", "python");
    ("autogen", "python");
    ("llamaindex", "python");
    ("fastapi", "python");
    ("semantic-kernel", "csharp");
    ("spring-boot", "java");
    ("nestjs", "typescript");
    ("genkit", "typescript");
    ("openai-agents", "python");
    ("pydantic-ai", "python");
    ("strands-agents", "python") ].

Definition TAG_TO_LANGUAGE : dict string :=
  [ ("python", "python");
    ("python3", "python");
    ("python-sdk", "python");
    ("adk-python", "python");
    ("flask", "python");
    ("django", "python");
    ("fastapi", "python");
    ("typescript", "typescript");
    ("ts", "typescript");
    ("javascript", "typescript");
    ("js", "typescript");
    ("nodejs", "typescript");
    ("node", "typescript");
    ("nextjs", "typescript");
    ("nestjs", "typescript");
    ("deno", "typescript");
    ("java", "java");
    ("java-sdk", "java");
    ("spring", "java");
    ("spring-boot", "java");
    ("springboot", "java");
    ("springboot3", "java");
    ("springframework", "java");
    ("spring-ai", "java");
    ("a2a4j", "java");
    ("wildfly", "java");
    ("go", "go");
    ("golang", "go");
    ("go-sdk", "go");
    ("rust", "rust");
    ("rust-sdk", "rust");
    ("csharp", "csharp");
    ("c-sharp", "csharp");
    ("dotnet", "csharp");
    (".net", "csharp");
    ("aspnet", "csharp");
    ("kotlin", "kotlin");
    ("kotlin-sdk", "kotlin");
    ("php", "php");
    ("php-sdk", "php");
    ("sdk-php", "php");
    ("ruby", "ruby");
    ("ruby-gem", "ruby");
    ("rubygem", "ruby");
    ("swift", "swift");
    ("elixir", "elixir");
    ("dart", "dart");
    ("flutter", "dart");
    ("zig", "zig");
    ("adk-zig", "zig");
    ("lua", "lua");
    ("pydantic-ai", "python");
    ("pydantic", "python");
    ("modal", "python");
    ("uvicorn", "python");
    ("pip", "python");
    ("poetry", "python");
    ("uv", "python");
    ("react", "typescript");
    ("reactjs", "typescript");
    ("vue", "typescript");
    ("vite", "typescript");
    ("bun", "typescript");
    ("npm", "typescript");
    ("vercel", "typescript");
    ("vercel-ai-sdk", "typescript");
    ("ai-sdk", "typescript");
    ("rust-lang", "rust");
    ("go-lang", "go");
    ("asp-net-core", "csharp");
    ("asp.net", "csharp");
    ("blazor", "csharp") ].

Definition NAME_SLUG_LANGUAGE_PATTERNS : list (string * string) :=
  [ ("\bpython\b", "python");
    ("\b(?:typescript|ts)\b", "typescript");
    ("\bjava\b", "java");
    ("\bgolang\b", "go");
    ("\brust\b", "rust");
    ("\bcsharp\b", "csharp");
    ("\bkotlin\b", "kotlin");
    ("\bphp\b", "php");
    ("\bruby\b", "ruby");
    ("\bswift\b", "swift");
    ("\belixir\b", "elixir");
    ("\bdart\b", "dart");
    ("\bflutter\b", "dart");
    ("\bzig\b", "zig") ].

Definition REPO_SUFFIX_LANGUAGE : dict string :=
  [ ("-go", "go");
    ("-python", "python");
    ("-py", "python");
    ("-java", "java");
    ("-ts", "typescript");
    ("-typescript", "typescript");
    ("-js", "typescript");
    ("-rust", "rust");
    ("-rs", "rust");
    ("-csharp", "csharp");
    ("-dotnet", "csharp");
    ("-kotlin", "kotlin");
    ("-php", "php");
    ("-ruby", "ruby");
    ("-rb", "ruby");
    ("-swift", "swift");
    ("-elixir", "elixir");
    ("-dart", "dart");
    ("-zig", "zig");
    ("-lua", "lua") ].

Definition DESC_LANGUAGE_PATTERNS : list (string * string) :=
  [ ("\bPython\b", "python");
    ("\bTypeScript\b", "typescript");
    ("\bJavaScript\b", "typescript");
    ("\bNode\.js\b", "typescript");
    ("\bJava\b(?!\s*Script)", "java");
    ("\bGo(?:lang)?\s+(?:implementation|sdk|library|client|server|agent)\b", "go");
    ("\bwritten in Go\b", "go");
    ("\bGo\s+implementation\b", "go");
    ("\bGolang\b", "go");
    ("\bRust\b", "rust");
    ("\bC#\b", "csharp");
    ("\.NET\b", "csharp");
    ("\bKotlin\b", "kotlin");
    ("\bPHP\b", "php");
    ("\bRuby\b", "ruby");
    ("\bSwift\b", "swift");
    ("\bElixir\b", "elixir");
    ("\bDart\b", "dart");
    ("\bFlutter\b", "dart");
    ("\bZig\b", "zig") ].

Definition SDK_TO_LANGUAGE : dict string :=
  [ ("python", "python");
    ("typescript", "typescript");
    ("java", "java");
    ("go", "go");
    ("rust", "rust");
    ("csharp", "csharp");
    ("kotlin", "kotlin") ].


(** The truth value of a string: [if s:] *)
Definition truthy (s : string) : bool := negb (String.eqb s "").

Module Language.

(** 1. Framework mapping (weight 3) *)
Definition rule_framework (agent : Agent) (candidates : Counter) : result Counter :=
  let fw := get (framework agent) "" in
  if dict_in fw FRAMEWORK_TO_LANGUAGE then
    lang <- dict_index FRAMEWORK_TO_LANGUAGE fw ;;
    Ok (incr candidates lang 3)
  else Ok candidates.

(** 2. Tags (weight 3) *)
Definition rule_tags (agent : Agent) (candidates : Counter) : result Counter :=
  for_each (get (tags agent) [])
    (fun tag candidates =>
       let tag_lower := lower tag in
       if dict_in tag_lower TAG_TO_LANGUAGE then
         lang <- dict_index TAG_TO_LANGUAGE tag_lower ;;
         Ok (incr candidates lang 3)
       else Ok candidates)
    candidates.

(** 3. Suffix of the repository name (weight 3) *)
Definition rule_repo (agent : Agent) (candidates : Counter) : result Counter :=
  let repo := get (repository agent) "" in
  if truthy repo then
    let repo_name := split "/" (rstrip (Ascii.eqb "/") repo) in
    if contains "github.com" repo && (5 <=? len repo_name) then
      segment <- index repo_name 4 ;;
      let actual_repo := lower segment in
      for_each REPO_SUFFIX_LANGUAGE
        (fun '(suffix, lang) candidates =>
           if endswith actual_repo suffix then Ok (incr candidates lang 3)
           else Ok candidates)
        candidates
    else Ok candidates
  else Ok candidates.

(** 4. Patterns in the slug and the name (weight 2) *)
Definition rule_name (agent : Agent) (candidates : Counter) : result Counter :=
  let slug := get (slug agent) "" in
  let name := get (name agent) "" in
  let combined := lower (slug ++ " " ++ name) in
  for_each NAME_SLUG_LANGUAGE_PATTERNS
    (fun '(pattern, lang) candidates =>
       if is_some (re_search pattern combined) then Ok (incr candidates lang 2)
       else Ok candidates)
    candidates.

(** 5. Patterns in the description (weight 2) *)
Definition rule_description (agent : Agent) (candidates : Counter) : result Counter :=
  let desc := get (description agent) "" in
  for_each DESC_LANGUAGE_PATTERNS
    (fun '(pattern, lang) candidates =>
       if is_some (re_search pattern desc) then Ok (incr candidates lang 2)
       else Ok candidates)
    candidates.

(** 6. The description of an official sample (weight 5) *)
Definition rule_official (agent : Agent) (candidates : Counter) : result Counter :=
  let desc := get (description agent) "" in
  if startswith desc "Official A2A" then
    match re_search "Official A2A (\w+) sample" desc with
    | Some m =>
        sample_lang <- lower_opt (group m) ;;
        if str_in sample_lang
             ["python"; "java"; "typescript"; "go"; "rust"; "csharp"; "kotlin"]
        then Ok (incr candidates sample_lang 5)
        else Ok candidates
    | None => Ok candidates
    end
  else Ok candidates.

(** 7. The [sdks] field, when it lists one SDK (weight 1) *)
Definition rule_sdks (agent : Agent) (candidates : Counter) : result Counter :=
  let sdks := get (sdks agent) [] in
  if len sdks =? 1 then
    sdk <- index sdks 0 ;;
    if dict_in sdk SDK_TO_LANGUAGE then
      sdk' <- index sdks 0 ;;
      lang <- dict_index SDK_TO_LANGUAGE sdk' ;;
      Ok (incr candidates lang 1)
    else Ok candidates
  else Ok candidates.

(** The tally that [infer_language] builds before it decides. *)
Definition candidates (agent : Agent) : result Counter :=
  c <- rule_framework agent [] ;;
  c <- rule_tags agent c ;;
  c <- rule_repo agent c ;;
  c <- rule_name agent c ;;
  c <- rule_description agent c ;;
  c <- rule_official agent c ;;
  rule_sdks agent c.

(** The decision on the tally: the floor of 2 and the rejection of a tie. *)
Definition decide (candidates : Counter) : result (option string) :=
  if empty candidates then Ok None
  else
    top <- index (most_common 1 candidates) 0 ;;
    if snd top <? 2 then Ok None
    else
      let top2 := most_common 2 candidates in
      tie <- (if len top2 =? 2 then
                first <- index top2 0 ;;
                second <- index top2 1 ;;
                Ok (snd first =? snd second)
              else Ok false) ;;
      if tie then Ok None else Ok (Some (fst top)).

End Language.

Definition infer_language (agent : Agent) : result (option string) :=
  candidates <- Language.candidates agent ;;
  Language.decide candidates.

(** ** Category inference *)

Definition VALID_CATEGORIES : list string :=
  [ "orchestration";
    "enterprise";
    "code-generation";
    "search";
    "data-analytics";
    "conversational";
    "infrastructure";
    "utility";
    "finance";
    "security";
    "media-content";
    "travel";
    "multi-agent" ].

Definition TAG_CATEGORY_RULES : list (list string * string * Z) :=
  [ (["business"; "commerce"], "enterprise", 1);
    (["finance"; "fintech"; "banking"; "payment"; "payments"; "trading"; "crypto";
      "blockchain"; "defi"; "escrow"], "finance", 1);
    (["search"; "retrieval"; "rag"; "web-search"; "google-search";
      "semantic-search"], "search", 1);
    (["security"; "authentication"; "auth"; "agent-security"; "cybersecurity";
      "vulnerability"], "security", 1);
    (["devops"; "docker"; "kubernetes"; "k8s"; "infrastructure"; "cloud"; "aws"; "gcp";
      "azure"; "deployment"; "ci-cd"], "infrastructure", 1);
    (["image"; "video"; "audio"; "media"; "image-generation"; "text-to-image";
      "text-to-speech"; "tts"], "media-content", 1);
    (["code"; "code-generation"; "coding"; "code-review"; "code-assistant";
      "github-copilot"], "code-generation", 1);
    (["data"; "data-analysis"; "analytics"; "data-analytics"; "data-science"; "dataset";
      "visualization"], "data-analytics", 1);
    (["chat"; "chatbot"; "conversational"; "conversation"; "dialog";
      "dialogue"], "conversational", 1);
    (["travel"; "flight"; "hotel"; "booking"; "tourism"; "trip"], "travel", 1);
    (["multi-agent"; "multi-agent-systems"; "agent-orchestration"; "orchestration";
      "agent-collaboration"], "orchestration", 1);
    (["cli"; "tool"; "utility"; "sdk"; "library"; "framework"; "template"; "boilerplate";
      "starter"], "utility", 1);
    (["protocol"; "a2a-protocol"; "agent-protocol"; "agent2agent"; "agent-to-agent";
      "llm-protocol"; "m2m-protocol"; "agentic-framework"], "utility", 1);
    (["mqtt"; "amqp"; "grpc"; "json-rpc"; "websocket"], "infrastructure", 1);
    (["demo"; "example"; "hello-world"; "sample"; "tutorial"; "learning"; "starter";
      "scaffold"], "utility", 1);
    (["browser"; "browser-automation"; "web-testing"; "playwright"; "selenium";
      "puppeteer"], "infrastructure", 1);
    (["registry"; "discovery"; "agent-registry"; "agent-discovery"; "a2a-discovery";
      "agent-marketplace"], "infrastructure", 1);
    (["gateway"; "proxy"; "middleware"; "router"; "routing"], "infrastructure", 1);
    (["agent-platform"; "aiops"; "governance"; "guardrails"], "infrastructure", 1);
    (["mcp-server"; "mcp-client"], "infrastructure", 1);
    (["ranking-system"; "ranking-algorithm"], "infrastructure", 1);
    (["feature-pack"; "wrapper"; "adapter"], "utility", 1);
    (["legal"; "legal-ai"; "legal-tech"; "contract"], "enterprise", 1);
    (["manufacturing"; "machinery"], "enterprise", 1);
    (["healthcare"; "medical"], "enterprise", 1);
    (["education"; "tutoring"; "learning"], "enterprise", 1);
    (["real-estate"; "property"], "enterprise", 1) ].

Definition DESC_CATEGORY_PATTERNS : list (string * string) :=
  [ ("\b(?:search|retriev|find|lookup|query|RAG)\b", "search");
    ("\b(?:security|secur|authent|authoriz|encrypt|vulnerab|threat)\b", "security");
    ("\b(?:financ|bank|payment|trading|crypto|blockchain|escrow|defi)\b", "finance");
    ("\b(?:travel|flight|hotel|booking|trip|itinerary|tourism)\b", "travel");
    ("\b(?:image|video|audio|media|generat.*image|text-to-speech)\b", "media-content");
    ("\b(?:code.*generat|generat.*code|coding|code review|program)\b", "code-generation");
    ("\b(?:data.*analy|analy.*data|visualization|dataset|analytics)\b", "data-analytics");
    ("\b(?:chatbot|conversational|dialog|conversation)\b", "conversational");
    ("\b(?:deploy|docker|kubernetes|infra|DevOps|CI/CD)\b", "infrastructure");
    ("\b(?:orchestrat|multi-agent|coordinat.*agent)\b", "orchestration");
    ("\b(?:SDK|library|framework|implementation|toolkit|boilerplate|template|starter|wrapper)\b", "utility");
    ("\b(?:[Ss]amples?|demo|example|tutorial|beginner|learning|101|playground|toy project|[Dd]ocs|documentation)\b", "utility");
    ("(?:文档|教学|入门|示例)", "utility");
    ("\b(?:Agent Development Kit|ADK|SDK)\b", "utility");
    ("\b(?:protocol.*implementation|implementation.*protocol|protocol.*specification)\b", "utility");
    ("\b(?:testing|mocking|mock|test and interact)\b", "utility");
    ("\b(?:template|scaffold|boilerplate|starter)\b", "utility");
    ("\b(?:song|music|generat.*song|generat.*music|audio.*generat)\b", "media-content");
    ("\b(?:agent.*platform|platform.*agent|governance|aiops)\b", "infrastructure");
    ("\b(?:dashboard|monitoring|observability|grafana|prometheus)\b", "data-analytics");
    ("\b(?:gateway|proxy|middleware|router|routing)\b", "infrastructure");
    ("\b(?:registry|discover|catalog|directory)\b", "infrastructure");
    ("\b(?:legal|lawyer|law\s+firm|attorney|contract.*review)\b", "enterprise") ].

(** Business and commerce agents of the Lifie.ai hub. *)
Definition is_lifie_business_agent (agent : Agent) : bool :=
  let provider := get (provider agent) {| provider_name := None; provider_url := None |} in
  let provider_name := get (provider_name provider) "" in
  let tags := get (tags agent) [] in
  (contains "Lifie" provider_name || contains "lifie" (get (provider_url provider) ""))
  && (str_in "business" tags || str_in "commerce" tags).

Module Category.

(** [set(t.lower() for t in tags)] *)
Definition lower_set (tags : list string) : list string := set_of (map lower tags).

(** 1. Rules on the tags (weight 3 for each tag that matches) *)
Definition rule_tags (tags : list string) (candidates : Counter) : result Counter :=
  for_each TAG_CATEGORY_RULES
    (fun '(tag_set, category, min_matches) candidates =>
       let matches := len (inter tags tag_set) in
       if min_matches <=? matches then Ok (incr candidates category (3 * matches))
       else Ok candidates)
    candidates.

(** 2. Patterns in the description (weight 2) *)
Definition rule_description (desc : string) (candidates : Counter) : result Counter :=
  for_each DESC_CATEGORY_PATTERNS
    (fun '(pattern, category) candidates =>
       if is_some (re_search_i pattern desc) then Ok (incr candidates category 2)
       else Ok candidates)
    candidates.

(** 3. The tags of the skills (weight 2) *)
Definition rule_skills (agent : Agent) (candidates : Counter) : result Counter :=
  for_each (get (skills agent) [])
    (fun skill candidates =>
       let skill_tags := lower_set (get (skill_tags skill) []) in
       for_each TAG_CATEGORY_RULES
         (fun '(tag_set, category, min_matches) candidates =>
            let matches := len (inter skill_tags tag_set) in
            if min_matches <=? matches then Ok (incr candidates category 2)
            else Ok candidates)
         candidates)
    candidates.

(** One of the keyword checks on the name and the slug. *)
Definition keyword (pattern combined category : string) (w : Z) (candidates : Counter)
  : result Counter :=
  if is_some (re_search pattern combined) then Ok (incr candidates category w)
  else Ok candidates.

(** 4. Keywords in the name and the slug (weight 1) *)
Definition rule_name (combined : string) (c : Counter) : result Counter :=
  c <- keyword "search|retriev|rag" combined "search" 1 c ;;
  c <- keyword "secur|auth" combined "security" 1 c ;;
  c <- keyword "financ|bank|trade|crypto" combined "finance" 1 c ;;
  c <- keyword "travel|flight|hotel|trip" combined "travel" 1 c ;;
  c <- keyword "media|image|video|audio" combined "media-content" 1 c ;;
  c <- keyword "code|coding|dev" combined "code-generation" 1 c ;;
  c <- keyword "data|analy" combined "data-analytics" 1 c ;;
  c <- keyword "chat|convers" combined "conversational" 1 c ;;
  c <- keyword "orchestrat|multi.?agent" combined "orchestration" 1 c ;;
  keyword "deploy|infra|devops|docker|k8s" combined "infrastructure" 1 c.

(** Agents tagged [official-sample] (weight 2) *)
Definition rule_official (tags : list string) (candidates : Counter) : result Counter :=
  if str_in "official-sample" tags then Ok (incr candidates "utility" 2)
  else Ok candidates.

(** Names of templates, samples and demos (weight 2) *)
Definition rule_utility (combined : string) (candidates : Counter) : result Counter :=
  keyword "template|sample|demo|starter|scaffold|boilerplate|hello.?world"
    combined "utility" 2 candidates.

(** The tally that [infer_category] builds when the agent is not a business
    agent of Lifie. *)
Definition candidates (agent : Agent) : result Counter :=
  let tags := lower_set (get (tags agent) []) in
  let desc := get (description agent) "" in
  let name := lower (get (name agent) "") in
  let slug := lower (get (slug agent) "") in
  c <- rule_tags tags [] ;;
  c <- rule_description desc c ;;
  c <- rule_skills agent c ;;
  let combined := (name ++ " " ++ slug)%string in
  c <- rule_name combined c ;;
  c <- rule_official tags c ;;
  rule_utility combined c.

(** The decision on the tally: the floor of 2, and no check for a tie. *)
Definition decide (candidates : Counter) : result (option string) :=
  if empty candidates then Ok None
  else
    top <- index (most_common 1 candidates) 0 ;;
    if snd top <? 2 then Ok None
    else Ok (Some (fst top)).

End Category.

Definition infer_category (agent : Agent) : result (option string) :=
  if is_lifie_business_agent agent then Ok (Some "enterprise")
  else
    candidates <- Category.candidates agent ;;
    Category.decide candidates.

(** ** Framework inference *)

Definition FRAMEWORK_DETECTION : list (string * string) :=
  [ ("\b(?:google[- ]?adk|agent[- ]?development[- ]?kit)\b", "google-adk");
    ("\badk\b", "google-adk");
    ("\blanggraph\b", "langgraph");
    ("\blangchain\b", "langchain");
    ("\bcrewai\b", "crewai");
    ("\bcrew[- ]?ai\b", "crewai");
    ("\bspring[- ]?boot\b", "spring-boot");
    ("\bspring[- ]?ai\b", "spring-boot");
    ("\bspringframework\b", "spring-boot");
    ("\bspringboot\b", "spring-boot");
    ("\bautogen\b", "autogen");
    ("\bag2\b", "autogen");
    ("\bsemantic[- ]?kernel\b", "semantic-kernel");
    ("\bllama[- ]?index\b", "llamaindex");
    ("\bllamaindex\b", "llamaindex");
    ("\bfastapi\b", "fastapi");
    ("\bnestjs\b", "nestjs");
    ("\bgenkit\b", "genkit");
    ("\bopenai[- ]?agents?\b", "openai-agents");
    ("\bopenai[- ]?agent[- ]?sdk\b", "openai-agents");
    ("\bpydantic[- ]?ai\b", "pydantic-ai");
    ("\bstrands[- ]?agents?\b", "strands-agents") ].

Definition TAG_TO_FRAMEWORK : dict string :=
  [ ("adk", "google-adk");
    ("adk-google", "google-adk");
    ("adk-python", "google-adk");
    ("google-adk", "google-adk");
    ("langgraph", "langgraph");
    ("langchain", "langchain");
    ("crewai", "crewai");
    ("crew-ai", "crewai");
    ("spring", "spring-boot");
    ("spring-boot", "spring-boot");
    ("springboot", "spring-boot");
    ("springboot3", "spring-boot");
    ("springframework", "spring-boot");
    ("spring-ai", "spring-boot");
    ("autogen", "autogen");
    ("ag2", "autogen");
    ("semantic-kernel", "semantic-kernel");
    ("llamaindex", "llamaindex");
    ("llama-index", "llamaindex");
    ("fastapi", "fastapi");
    ("nestjs", "nestjs");
    ("genkit", "genkit");
    ("openai-agents-sdk", "openai-agents");
    ("openai-agent-sdk", "openai-agents");
    ("openai-agents", "openai-agents");
    ("pydantic-ai", "pydantic-ai");
    ("strands-agents", "strands-agents");
    ("strands", "strands-agents") ].

Module Framework.

(** 1. Tags (weight 3) *)
Definition rule_tags (tags : list string) (candidates : Counter) : result Counter :=
  for_each tags
    (fun tag candidates =>
       let tag_lower := lower tag in
       if dict_in tag_lower TAG_TO_FRAMEWORK then
         fw <- dict_index TAG_TO_FRAMEWORK tag_lower ;;
         Ok (incr candidates fw 3)
       else Ok candidates)
    candidates.

(** The patterns of [FRAMEWORK_DETECTION] on a text, each match of weight [w]. *)
Definition detect (text : string) (w : Z) (candidates : Counter) : result Counter :=
  for_each FRAMEWORK_DETECTION
    (fun '(pattern, framework) candidates =>
       if is_some (re_search_i pattern text) then Ok (incr candidates framework w)
       else Ok candidates)
    candidates.

(** 2. Patterns in the name, the slug, the description and the repository
    (weight 2) *)
Definition rule_text (all_text : string) (candidates : Counter) : result Counter :=
  detect all_text 2 candidates.

(** The name of the sample: the text after the last colon. *)
Definition sample_name (desc : string) : result string :=
  if contains ":" desc then
    last_part <- index (split ":" desc) (-1) ;;
    Ok (lower (strip last_part))
  else Ok "".

(** 3. The description of an official sample (weight 4) *)
Definition rule_official (desc : string) (candidates : Counter) : result Counter :=
  if contains "Official A2A" desc then
    sample_name <- sample_name desc ;;
    detect sample_name 4 candidates
  else Ok candidates.

(** [f"{name} {slug} {desc} {repo}"] *)
Definition all_text (agent : Agent) : string :=
  (get (name agent) "" ++ " " ++ get (slug agent) "" ++ " "
   ++ get (description agent) "" ++ " " ++ get (repository agent) "")%string.

(** The tally that [infer_framework] builds before it decides. *)
Definition candidates (agent : Agent) : result Counter :=
  let tags := get (tags agent) [] in
  let desc := get (description agent) "" in
  c <- rule_tags tags [] ;;
  c <- rule_text (all_text agent) c ;;
  rule_official desc c.

(** [any(t.lower() in ("adk", ...) for t in tags)] *)
Definition has_adk_tag (tags : list string) : bool :=
  existsb (fun t => str_in (lower t) ["adk"; "adk-google"; "adk-python"; "google-adk"])
    tags.

(** The decision on the tally: the floor of 2, and the tag that a weak
    [google-adk] needs. *)
Definition decide (tags : list string) (candidates : Counter) : result (option string) :=
  if empty candidates then Ok None
  else
    top <- index (most_common 1 candidates) 0 ;;
    if snd top <? 2 then Ok None
    else if String.eqb (fst top) "google-adk" && (snd top <? 3) then
      if negb (has_adk_tag tags) then Ok None
      else Ok (Some (fst top))
    else Ok (Some (fst top)).

End Framework.

Definition infer_framework (agent : Agent) : result (option string) :=
  candidates <- Framework.candidates agent ;;
  Framework.decide (get (tags agent) []) candidates.

(** ** The driver

    [enrich_agents] reads every agent file, applies the three inferences and
    writes back the files it changed. The files are modelled as the sorted
    list of their paths and contents, already parsed; opening, parsing and
    writing a file, and what the driver prints, are left out. *)

Record Stats : Type := {
  language_changed : Z;
  category_changed : Z;
  framework_changed : Z;
  files_modified : Z;
  language_details : Counter;
  category_details : Counter;
  framework_details : Counter;
  language_still_unknown : Z;
  category_still_general : Z;
  framework_still_custom : Z
}.

Definition initial_stats : Stats :=
  {| language_changed := 0; category_changed := 0; framework_changed := 0;
     files_modified := 0;
     language_details := []; category_details := []; framework_details := [];
     language_still_unknown := 0; category_still_general := 0;
     framework_still_custom := 0 |}.

(** The local state of one turn of the loop over the files. *)
Record Turn : Type := {
  agent : Agent;
  modified : bool;
  file_changes : list string;
  stats : Stats
}.

(** [agent["language"] = v], and the same for the two other axes *)
Definition set_language (a : Agent) (v : string) : Agent :=
  {| slug := slug a; name := name a; description := description a;
     repository := repository a; tags := tags a; sdks := sdks a;
     skills := skills a; provider := provider a;
     language := Some v; category := category a; framework := framework a |}.

Definition set_category (a : Agent) (v : string) : Agent :=
  {| slug := slug a; name := name a; description := description a;
     repository := repository a; tags := tags a; sdks := sdks a;
     skills := skills a; provider := provider a;
     language := language a; category := Some v; framework := framework a |}.

Definition set_framework (a : Agent) (v : string) : Agent :=
  {| slug := slug a; name := name a; description := description a;
     repository := repository a; tags := tags a; sdks := sdks a;
     skills := skills a; provider := provider a;
     language := language a; category := category a; framework := Some v |}.

(** [agent[k]] on an optional field *)
Definition field {A : Type} (o : option A) : result A :=
  match o with
  | Some a => Ok a
  | None => Raise KeyError
  end.

(** [agent.get(k) == v] *)
Definition field_is (o : option string) (v : string) : bool :=
  match o with
  | Some s => String.eqb s v
  | None => false
  end.

(** [if new:] on the result of an inference *)
Definition accepted (new : option string) : option string :=
  match new with
  | Some s => if truthy s then Some s else None
  | None => None
  end.

(** 1. Enrich language *)
Definition enrich_language (t : Turn) : result Turn :=
  if field_is (language (agent t)) "unknown" then
    new_lang <- infer_language (agent t) ;;
    match accepted new_lang with
    | Some new_lang =>
        old <- field (language (agent t)) ;;
        let st := stats t in
        Ok {| agent := set_language (agent t) new_lang;
              modified := true;
              file_changes :=
                file_changes t ++ [("  language: " ++ old ++ " -> " ++ new_lang)%string];
              stats :=
                {| language_changed := language_changed st + 1;
                   category_changed := category_changed st;
                   framework_changed := framework_changed st;
                   files_modified := files_modified st;
                   language_details := incr (language_details st) new_lang 1;
                   category_details := category_details st;
                   framework_details := framework_details st;
                   language_still_unknown := language_still_unknown st;
                   category_still_general := category_still_general st;
                   framework_still_custom := framework_still_custom st |} |}
    | None =>
        let st := stats t in
        Ok {| agent := agent t; modified := modified t; file_changes := file_changes t;
              stats :=
                {| language_changed := language_changed st;
                   category_changed := category_changed st;
                   framework_changed := framework_changed st;
                   files_modified := files_modified st;
                   language_details := language_details st;
                   category_details := category_details st;
                   framework_details := framework_details st;
                   language_still_unknown := language_still_unknown st + 1;
                   category_still_general := category_still_general st;
                   framework_still_custom := framework_still_custom st |} |}
    end
  else Ok t.

(** 2. Enrich category *)
Definition enrich_category (t : Turn) : result Turn :=
  if field_is (category (agent t)) "general" then
    new_cat <- infer_category (agent t) ;;
    match accepted new_cat with
    | Some new_cat =>
        old <- field (category (agent t)) ;;
        let st := stats t in
        Ok {| agent := set_category (agent t) new_cat;
              modified := true;
              file_changes :=
                file_changes t ++ [("  category: " ++ old ++ " -> " ++ new_cat)%string];
              stats :=
                {| language_changed := language_changed st;
                   category_changed := category_changed st + 1;
                   framework_changed := framework_changed st;
                   files_modified := files_modified st;
                   language_details := language_details st;
                   category_details := incr (category_details st) new_cat 1;
                   framework_details := framework_details st;
                   language_still_unknown := language_still_unknown st;
                   category_still_general := category_still_general st;
                   framework_still_custom := framework_still_custom st |} |}
    | None =>
        let st := stats t in
        Ok {| agent := agent t; modified := modified t; file_changes := file_changes t;
              stats :=
                {| language_changed := language_changed st;
                   category_changed := category_changed st;
                   framework_changed := framework_changed st;
                   files_modified := files_modified st;
                   language_details := language_details st;
                   category_details := category_details st;
                   framework_details := framework_details st;
                   language_still_unknown := language_still_unknown st;
                   category_still_general := category_still_general st + 1;
                   framework_still_custom := framework_still_custom st |} |}
    end
  else Ok t.

(** 3. Enrich framework *)
Definition enrich_framework (t : Turn) : result Turn :=
  if field_is (framework (agent t)) "custom" then
    new_fw <- infer_framework (agent t) ;;
    match accepted new_fw with
    | Some new_fw =>
        old <- field (framework (agent t)) ;;
        let st := stats t in
        Ok {| agent := set_framework (agent t) new_fw;
              modified := true;
              file_changes :=
                file_changes t ++ [("  framework: " ++ old ++ " -> " ++ new_fw)%string];
              stats :=
                {| language_changed := language_changed st;
                   category_changed := category_changed st;
                   framework_changed := framework_changed st + 1;
                   files_modified := files_modified st;
                   language_details := language_details st;
                   category_details := category_details st;
                   framework_details := incr (framework_details st) new_fw 1;
                   language_still_unknown := language_still_unknown st;
                   category_still_general := category_still_general st;
                   framework_still_custom := framework_still_custom st |} |}
    | None =>
        let st := stats t in
        Ok {| agent := agent t; modified := modified t; file_changes := file_changes t;
              stats :=
                {| language_changed := language_changed st;
                   category_changed := category_changed st;
                   framework_changed := framework_changed st;
                   files_modified := files_modified st;
                   language_details := language_details st;
                   category_details := category_details st;
                   framework_details := framework_details st;
                   language_still_unknown := language_still_unknown st;
                   category_still_general := category_still_general st;
                   framework_still_custom := framework_still_custom st + 1 |} |}
    end
  else Ok t.

(** The three axes on one agent, from the statistics so far. *)
Definition enrich_agent (st : Stats) (a : Agent) : result Turn :=
  t <- enrich_language
         {| agent := a; modified := false; file_changes := []; stats := st |} ;;
  t <- enrich_category t ;;
  enrich_framework t.

(** [os.path.basename(path)] *)
Definition basename (path : string) : string := last (split "/" path) "".

(** What the loop of [enrich_agents] carries: the files, the statistics and
    the log of the changes. *)
Record Run : Type := {
  files : list (string * Agent);
  run_stats : Stats;
  changes_log : list string
}.

(** One turn of the loop: a file is written back only when it was modified. *)
Definition enrich_file (file : string * Agent) (r : Run) : result Run :=
  let '(filepath, a) := file in
  let slug := get (slug a) (basename filepath) in
  t <- enrich_agent (run_stats r) a ;;
  if modified t then
    let st := stats t in
    Ok {| files := files r ++ [(filepath, agent t)];
          run_stats :=
            {| language_changed := language_changed st;
               category_changed := category_changed st;
               framework_changed := framework_changed st;
               files_modified := files_modified st + 1;
               language_details := language_details st;
               category_details := category_details st;
               framework_details := framework_details st;
               language_still_unknown := language_still_unknown st;
               category_still_general := category_still_general st;
               framework_still_custom := framework_still_custom st |};
          changes_log := changes_log r ++ [(slug ++ ":")%string] ++ file_changes t |}
  else
    Ok {| files := files r ++ [(filepath, a)];
          run_stats := stats t;
          changes_log := changes_log r |}.

(** The files after the run, with the statistics and the log. *)
Definition enrich_agents (agent_files : list (string * Agent)) : result Run :=
  for_each agent_files enrich_file
    {| files := []; run_stats := initial_stats; changes_log := [] |}.

(** ** Records with null fields

    [json.load] gives a key the value [None] when the file holds [null], and
    [agent.get(k, d)] returns that [None], not the default [d]. The records
    of [Agent] have no such field: there a field is absent or holds a value
    of its type. The definitions below are the three inferences on records
    in which a field is absent, [null], or a value of its type; values of
    another type (a number for a string, a string for a list) are outside
    the model. *)

Inductive entry (A : Type) : Type :=
| Absent
| Null
| Holds (a : A).

Arguments Absent {A}.
Arguments Null {A}.
Arguments Holds {A} a.

Record RawProvider : Type := {
  raw_provider_name : entry string;
  raw_provider_url : entry string
}.

Record RawSkill : Type := {
  raw_skill_tags : entry (list string)
}.

Record RawAgent : Type := {
  raw_slug : entry string;
  raw_name : entry string;
  raw_description : entry string;
  raw_repository : entry string;
  raw_tags : entry (list string);
  raw_sdks : entry (list string);
  raw_skills : entry (list RawSkill);
  raw_provider : entry RawProvider;
  raw_language : entry string;
  raw_category : entry string;
  raw_framework : entry string
}.

(** [d.get(k, default)]; the result [None] is Python's [None]. *)
Definition entry_get {A : Type} (e : entry A) (default : A) : option A :=
  match e with
  | Absent => Some default
  | Null => None
  | Holds a => Some a
  end.

(** A value that is iterated, measured or searched: [for x in v], [len(v)],
    [x in v] and [re.search(p, v)] raise a [TypeError] on [None]. *)
Definition not_none {A : Type} (v : option A) : result A :=
  match v with
  | Some a => Ok a
  | None => Raise TypeError
  end.

(** The receiver of a method call: [v.lower()], [v.get(k)] and
    [v.startswith(p)] raise an [AttributeError] on [None]. *)
Definition receiver {A : Type} (v : option A) : result A :=
  match v with
  | Some a => Ok a
  | None => Raise AttributeError
  end.

(** [f"{v}"] *)
Definition format (v : option string) : string :=
  match v with
  | Some s => s
  | None => "None"
  end.

Module RawLanguage.

(** 1. Framework mapping: [None in FRAMEWORK_TO_LANGUAGE] is false. *)
Definition rule_framework (agent : RawAgent) (candidates : Counter) : result Counter :=
  match entry_get (raw_framework agent) "" with
  | Some fw =>
      if dict_in fw FRAMEWORK_TO_LANGUAGE then
        lang <- dict_index FRAMEWORK_TO_LANGUAGE fw ;;
        Ok (incr candidates lang 3)
      else Ok candidates
  | None => Ok candidates
  end.

(** 2. Tags: [for tag in None] raises. *)
Definition rule_tags (agent : RawAgent) (candidates : Counter) : result Counter :=
  tags <- not_none (entry_get (raw_tags agent) []) ;;
  for_each tags
    (fun tag candidates =>
       let tag_lower := lower tag in
       if dict_in tag_lower TAG_TO_LANGUAGE then
         lang <- dict_index TAG_TO_LANGUAGE tag_lower ;;
         Ok (incr candidates lang 3)
       else Ok candidates)
    candidates.

(** 3. Suffix of the repository name: [if None:] is false. *)
Definition rule_repo (agent : RawAgent) (candidates : Counter) : result Counter :=
  match entry_get (raw_repository agent) "" with
  | Some repo =>
      if truthy repo then
        let repo_name := split "/" (rstrip (Ascii.eqb "/") repo) in
        if contains "github.com" repo && (5 <=? len repo_name) then
          segment <- index repo_name 4 ;;
          let actual_repo := lower segment in
          for_each REPO_SUFFIX_LANGUAGE
            (fun '(suffix, lang) candidates =>
               if endswith actual_repo suffix then Ok (incr candidates lang 3)
               else Ok candidates)
            candidates
        else Ok candidates
      else Ok candidates
  | None => Ok candidates
  end.

(** 4. Patterns in the slug and the name: [f"{slug} {name}"] formats [None]. *)
Definition rule_name (agent : RawAgent) (candidates : Counter) : result Counter :=
  let slug := entry_get (raw_slug agent) "" in
  let name := entry_get (raw_name agent) "" in
  let combined := lower (format slug ++ " " ++ format name) in
  for_each NAME_SLUG_LANGUAGE_PATTERNS
    (fun '(pattern, lang) candidates =>
       if is_some (re_search pattern combined) then Ok (incr candidates lang 2)
       else Ok candidates)
    candidates.

(** 5. Patterns in the description: [re.search(pattern, None)] raises. *)
Definition rule_description (agent : RawAgent) (candidates : Counter) : result Counter :=
  let desc := entry_get (raw_description agent) "" in
  for_each DESC_LANGUAGE_PATTERNS
    (fun '(pattern, lang) candidates =>
       text <- not_none desc ;;
       if is_some (re_search pattern text) then Ok (incr candidates lang 2)
       else Ok candidates)
    candidates.

(** 6. The description of an official sample: [None.startswith] raises. *)
Definition rule_official (agent : RawAgent) (candidates : Counter) : result Counter :=
  desc <- receiver (entry_get (raw_description agent) "") ;;
  if startswith desc "Official A2A" then
    match re_search "Official A2A (\w+) sample" desc with
    | Some m =>
        sample_lang <- lower_opt (group m) ;;
        if str_in sample_lang
             ["python"; "java"; "typescript"; "go"; "rust"; "csharp"; "kotlin"]
        then Ok (incr candidates sample_lang 5)
        else Ok candidates
    | None => Ok candidates
    end
  else Ok candidates.

(** 7. The [sdks] field: [len(None)] raises. *)
Definition rule_sdks (agent : RawAgent) (candidates : Counter) : result Counter :=
  sdks <- not_none (entry_get (raw_sdks agent) []) ;;
  if len sdks =? 1 then
    sdk <- index sdks 0 ;;
    if dict_in sdk SDK_TO_LANGUAGE then
      sdk' <- index sdks 0 ;;
      lang <- dict_index SDK_TO_LANGUAGE sdk' ;;
      Ok (incr candidates lang 1)
    else Ok candidates
  else Ok candidates.

Definition candidates (agent : RawAgent) : result Counter :=
  c <- rule_framework agent [] ;;
  c <- rule_tags agent c ;;
  c <- rule_repo agent c ;;
  c <- rule_name agent c ;;
  c <- rule_description agent c ;;
  c <- rule_official agent c ;;
  rule_sdks agent c.

End RawLanguage.

Definition raw_infer_language (agent : RawAgent) : result (option string) :=
  candidates <- RawLanguage.candidates agent ;;
  Language.decide candidates.

(** [is_lifie_business_agent]: [or] and [and] evaluate their second operand
    only when the first does not decide. *)
Definition raw_is_lifie_business_agent (agent : RawAgent) : result bool :=
  provider <- receiver (entry_get (raw_provider agent)
                          {| raw_provider_name := Absent; raw_provider_url := Absent |}) ;;
  let provider_name := entry_get (raw_provider_name provider) "" in
  let tags := entry_get (raw_tags agent) [] in
  provider_name <- not_none provider_name ;;
  lifie <- (if contains "Lifie" provider_name then Ok true
            else
              url <- not_none (entry_get (raw_provider_url provider) "") ;;
              Ok (contains "lifie" url)) ;;
  if lifie then
    tags <- not_none tags ;;
    Ok (str_in "business" tags || str_in "commerce" tags)
  else Ok false.

Module RawCategory.

(** 2. Patterns in the description: [re.search(pattern, None, re.IGNORECASE)]
    raises. *)
Definition rule_description (desc : option string) (candidates : Counter)
  : result Counter :=
  for_each DESC_CATEGORY_PATTERNS
    (fun '(pattern, category) candidates =>
       text <- not_none desc ;;
       if is_some (re_search_i pattern text) then Ok (incr candidates category 2)
       else Ok candidates)
    candidates.

(** 3. The tags of the skills: the skills and the tags of a skill are
    iterated. *)
Definition rule_skills (agent : RawAgent) (candidates : Counter) : result Counter :=
  skills <- not_none (entry_get (raw_skills agent) []) ;;
  for_each skills
    (fun skill candidates =>
       tags <- not_none (entry_get (raw_skill_tags skill) []) ;;
       let skill_tags := Category.lower_set tags in
       for_each TAG_CATEGORY_RULES
         (fun '(tag_set, category, min_matches) candidates =>
            let matches := len (inter skill_tags tag_set) in
            if min_matches <=? matches then Ok (incr candidates category 2)
            else Ok candidates)
         candidates)
    candidates.

End RawCategory.

(** [infer_category]: the tags are iterated and the name and the slug are
    lowered before anything else. *)
Definition raw_infer_category (agent : RawAgent) : result (option string) :=
  tags <- not_none (entry_get (raw_tags agent) []) ;;
  let tags := Category.lower_set tags in
  let desc := entry_get (raw_description agent) "" in
  name <- receiver (entry_get (raw_name agent) "") ;;
  let name := lower name in
  slug <- receiver (entry_get (raw_slug agent) "") ;;
  let slug := lower slug in
  lifie <- raw_is_lifie_business_agent agent ;;
  if lifie then Ok (Some "enterprise")
  else
    c <- Category.rule_tags tags [] ;;
    c <- RawCategory.rule_description desc c ;;
    c <- RawCategory.rule_skills agent c ;;
    let combined := (name ++ " " ++ slug)%string in
    c <- Category.rule_name combined c ;;
    c <- Category.rule_official tags c ;;
    c <- Category.rule_utility combined c ;;
    Category.decide c.

Module RawFramework.

(** [f"{name} {slug} {desc} {repo}"] *)
Definition all_text (agent : RawAgent) : string :=
  (format (entry_get (raw_name agent) "") ++ " "
   ++ format (entry_get (raw_slug agent) "") ++ " "
   ++ format (entry_get (raw_description agent) "") ++ " "
   ++ format (entry_get (raw_repository agent) ""))%string.

(** 3. The description of an official sample: ["Official A2A" in None]
    raises. *)
Definition rule_official (desc : option string) (candidates : Counter)
  : result Counter :=
  desc <- not_none desc ;;
  if contains "Official A2A" desc then
    sample_name <- Framework.sample_name desc ;;
    Framework.detect sample_name 4 candidates
  else Ok candidates.

Definition candidates (agent : RawAgent) : result Counter :=
  let tags := entry_get (raw_tags agent) [] in
  let desc := entry_get (raw_description agent) "" in
  tags <- not_none tags ;;
  c <- Framework.rule_tags tags [] ;;
  c <- Framework.rule_text (all_text agent) c ;;
  rule_official desc c.

End RawFramework.

Definition raw_infer_framework (agent : RawAgent) : result (option string) :=
  candidates <- RawFramework.candidates agent ;;
  tags <- not_none (entry_get (raw_tags agent) []) ;;
  Framework.decide tags candidates.

(** ** Records without null fields *)







(** The record without any field. *)
Definition raw_no_fields : RawAgent :=
  {| raw_slug := Absent; raw_name := Absent; raw_description := Absent;
     raw_repository := Absent; raw_tags := Absent; raw_sdks := Absent;
     raw_skills := Absent; raw_provider := Absent;
     raw_language := Absent; raw_category := Absent; raw_framework := Absent |}.


(** The record [{"name": null}]. *)
Definition raw_null_name : RawAgent :=
  {| raw_slug := Absent; raw_name := Null; raw_description := Absent;
     raw_repository := Absent; raw_tags := Absent; raw_sdks := Absent;
     raw_skills := Absent; raw_provider := Absent;
     raw_language := Absent; raw_category := Absent; raw_framework := Absent |}.



(** ** The tally as a sum of signals

    Every rule of the category and framework inferences adds weights to the
    tally, so the tally is the fold of a list of signals: pairs of a label
    and a weight. The signals of the rules are given here as lists, and the
    lemmas below show that the rules compute exactly that. *)

(** The tally after the signals, in their order. *)
Definition bumps (signals : list (string * Z)) (c : Counter) : Counter :=
  fold_left (fun c s => incr c (fst s) (snd s)) signals c.

(** The total weight that the signals give to a label. *)
Fixpoint weight (l : string) (signals : list (string * Z)) : Z :=
  match signals with
  | [] => 0
  | (k, w) :: rest => (if String.eqb k l then w else 0) + weight l rest
  end.

(** The keys of a counter, in insertion order. *)
Definition keys (c : Counter) : list string := map fst c.

(** The rows of a table of patterns that carry a label. *)
Fixpoint rows_of (l : string) (table : list (string * string)) : Z :=
  match table with
  | [] => 0
  | row :: table' => (if String.eqb (snd row) l then 1 else 0) + rows_of l table'
  end.

(** The signals of a table of patterns on a text. *)
Definition pattern_signals (ic : bool) (table : list (string * string))
  (text : string) (w : Z) : list (string * Z) :=
  flat_map
    (fun '(pattern, label) =>
       if is_some (search_from ic (rx pattern) None text) then [(label, w)] else [])
    table.

(** The signals of [TAG_CATEGORY_RULES] on a set of tags; [w] gives the
    weight from the number of matching tags. *)
Definition tag_rule_signals (w : Z -> Z) (tags : list string) : list (string * Z) :=
  flat_map
    (fun '(tag_set, category, min_matches) =>
       let matches := len (inter tags tag_set) in
       if min_matches <=? matches then [(category, w matches)] else [])
    TAG_CATEGORY_RULES.

Definition keyword_signal (pattern combined category : string) (w : Z)
  : list (string * Z) :=
  if is_some (re_search pattern combined) then [(category, w)] else [].

Definition category_signals (a : Agent) : list (string * Z) :=
  let tags := Category.lower_set (get (tags a) []) in
  let desc := get (description a) "" in
  let combined := (lower (get (name a) "") ++ " " ++ lower (get (slug a) ""))%string in
  tag_rule_signals (fun matches => 3 * matches) tags
  ++ pattern_signals true DESC_CATEGORY_PATTERNS desc 2
  ++ flat_map
       (fun skill =>
          tag_rule_signals (fun _ => 2) (Category.lower_set (get (skill_tags skill) [])))
       (get (skills a) [])
  ++ (keyword_signal "search|retriev|rag" combined "search" 1
      ++ keyword_signal "secur|auth" combined "security" 1
      ++ keyword_signal "financ|bank|trade|crypto" combined "finance" 1
      ++ keyword_signal "travel|flight|hotel|trip" combined "travel" 1
      ++ keyword_signal "media|image|video|audio" combined "media-content" 1
      ++ keyword_signal "code|coding|dev" combined "code-generation" 1
      ++ keyword_signal "data|analy" combined "data-analytics" 1
      ++ keyword_signal "chat|convers" combined "conversational" 1
      ++ keyword_signal "orchestrat|multi.?agent" combined "orchestration" 1
      ++ keyword_signal "deploy|infra|devops|docker|k8s" combined "infrastructure" 1)
  ++ (if str_in "official-sample" tags then [("utility", 2)] else [])
  ++ keyword_signal "template|sample|demo|starter|scaffold|boilerplate|hello.?world"
       combined "utility" 2.

Definition framework_tag_signals (tags : list string) : list (string * Z) :=
  flat_map
    (fun tag =>
       match dict_get TAG_TO_FRAMEWORK (lower tag) with
       | Some fw => [(fw, 3)]
       | None => []
       end)
    tags.

(** The text after the last colon, stripped and in lower case. *)
Definition sample_text (desc : string) : string :=
  if contains ":" desc then lower (strip (last (split ":" desc) "")) else "".

Definition framework_official_signals (desc : string) : list (string * Z) :=
  if contains "Official A2A" desc
  then pattern_signals true FRAMEWORK_DETECTION (sample_text desc) 4
  else [].

Definition framework_signals (a : Agent) : list (string * Z) :=
  framework_tag_signals (get (tags a) [])
  ++ pattern_signals true FRAMEWORK_DETECTION (Framework.all_text a) 2
  ++ framework_official_signals (get (description a) "").

(** The labels that the category rules can give. *)
Definition CATEGORY_LABELS : list string :=
  [ "orchestration"; "enterprise"; "code-generation"; "search";
    "data-analytics"; "conversational"; "infrastructure"; "utility";
    "finance"; "security"; "media-content"; "travel" ].

(** A pattern whose every match goes through group 1. *)
Fixpoint sets_group (r : regex) : bool :=
  match r with
  | RGroup _ => true
  | RSeq r1 r2 => sets_group r1 || sets_group r2
  | RAlt r1 r2 => sets_group r1 && sets_group r2
  | _ => false
  end.

(** All the characters of a string satisfy [p]. *)
Fixpoint all_chars (p : ascii -> bool) (s : string) : bool :=
  match s with
  | EmptyString => true
  | String c s' => p c && all_chars p s'
  end.

(** The character before the end of [x], after the character [p]. *)
Fixpoint last_char (p : option ascii) (x : string) : option ascii :=
  match x with
  | EmptyString => p
  | String c x' => last_char (Some c) x'
  end.

(** *** Agents for the examples *)

(** The agent [{}]. *)
Definition no_fields : Agent :=
  {| slug := None; name := None; description := None; repository := None;
     tags := None; sdks := None; skills := None; provider := None;
     language := None; category := None; framework := None |}.

Definition set_tags (a : Agent) (v : list string) : Agent :=
  {| slug := slug a; name := name a; description := description a;
     repository := repository a; tags := Some v; sdks := sdks a;
     skills := skills a; provider := provider a;
     language := language a; category := category a; framework := framework a |}.

Definition set_description (a : Agent) (v : string) : Agent :=
  {| slug := slug a; name := name a; description := Some v;
     repository := repository a; tags := tags a; sdks := sdks a;
     skills := skills a; provider := provider a;
     language := language a; category := category a; framework := framework a |}.

Definition set_repository (a : Agent) (v : string) : Agent :=
  {| slug := slug a; name := name a; description := description a;
     repository := Some v; tags := tags a; sdks := sdks a;
     skills := skills a; provider := provider a;
     language := language a; category := category a; framework := framework a |}.

Definition set_provider (a : Agent) (v : Provider) : Agent :=
  {| slug := slug a; name := name a; description := description a;
     repository := repository a; tags := tags a; sdks := sdks a;
     skills := skills a; provider := Some v;
     language := language a; category := category a; framework := framework a |}.


(** The fields that the inferences of category and framework read. *)
Definition same_inputs (a b : Agent) : Prop :=
  slug a = slug b /\ name a = name b /\ description a = description b
  /\ repository a = repository b /\ tags a = tags b /\ sdks a = sdks b
  /\ skills a = skills b /\ provider a = provider b.

(** The part of the statistics that belongs to one axis. *)
Definition language_stats (st : Stats) : Z * Counter * Z :=
  (language_changed st, language_details st, language_still_unknown st).

Definition category_stats (st : Stats) : Z * Counter * Z :=
  (category_changed st, category_details st, category_still_general st).

Definition framework_stats (st : Stats) : Z * Counter * Z :=
  (framework_changed st, framework_details st, framework_still_custom st).

(** The agent tagged [go] and [rust], and nothing else. *)
Definition agent_go_rust : Agent := set_tags no_fields ["go"; "rust"].

(** The agent tagged [langgraph] and [crewai], and nothing else. *)
Definition agent_langgraph_crewai : Agent := set_tags no_fields ["langgraph"; "crewai"].

(** An agent with one signal of weight 1 for a language (its only SDK) and
    one for a category (its name). *)
Definition agent_weak : Agent :=
  {| slug := None; name := Some "search"; description := None; repository := None;
     tags := None; sdks := Some ["python"]; skills := None; provider := None;
     language := Some "unknown"; category := Some "general";
     framework := Some "custom" |}.

(** A business agent of the provider Lifie AI whose description and tags
    point to other categories. *)
Definition agent_lifie : Agent :=
  {| slug := None; name := Some "Bank search";
     description := Some "Search and payment agent for banking";
     repository := None;
     tags := Some ["business"; "fintech"; "banking"]; sdks := None; skills := None;
     provider := Some {| provider_name := Some "Lifie AI"; provider_url := None |};
     language := None; category := Some "general"; framework := None |}.

(** The same agent with the name of the provider in upper case. *)
Definition agent_lifie_upper : Agent :=
  set_provider agent_lifie {| provider_name := Some "LIFIE AI"; provider_url := None |}.

(** The agent tagged [multi-agent], and nothing else. *)
Definition agent_multi_agent : Agent := set_tags no_fields ["multi-agent"].

(** The tags that support a weak [google-adk]. *)
Definition ADK_TAGS : list string := ["adk"; "adk-google"; "adk-python"; "google-adk"].

(** An agent whose only signal for a framework is the acronym in its
    description. *)
Definition agent_adk : Agent := set_description no_fields "Built with ADK".

(** An official sample that names Crewai after the colon and LangGraph and
    AutoGen before it. *)
Definition agent_crewai_sample : Agent :=
  set_description no_fields "Official A2A sample with LangGraph and AutoGen: Crewai".

(** An official Crewai sample with five tags of Spring. *)
Definition agent_crewai_spring : Agent :=
  set_tags (set_description no_fields "Official A2A python sample agent: Crewai")
    ["spring"; "spring-boot"; "springboot"; "springboot3"; "spring-ai"].

(** The marker of an official sample, in the middle of a description. *)
Definition agent_marker_inside : Agent :=
  set_description no_fields "An Official A2A python sample agent: Crewai".

(** The agent of the end-to-end scenario: two tags and the sentinel of the
    language. *)
Definition agent_python_fastapi : Agent :=
  {| slug := None; name := None; description := None; repository := None;
     tags := Some ["python"; "fastapi"]; sdks := None; skills := None;
     provider := None;
     language := Some "unknown"; category := Some "general";
     framework := Some "custom" |}.



(** An agent tagged [langgraph] with the sentinels of the language and of
    the framework. *)
Definition agent_langgraph_unknown : Agent :=
  {| slug := None; name := None; description := None; repository := None;
     tags := Some ["langgraph"]; sdks := None; skills := None; provider := None;
     language := Some "unknown"; category := Some "utility";
     framework := Some "custom" |}.

(** The order of [most_common]: the greater count first. *)
Definition ge_count (a b : string * Z) : Prop := snd b <= snd a.

(** ** The tally of the language as a sum of signals *)

(** The labels that the language rules can give. *)
Definition LANGUAGE_LABELS : list string :=
  [ "python"; "typescript"; "java"; "go"; "rust"; "csharp"; "kotlin"; "php";
    "ruby"; "swift"; "elixir"; "dart"; "zig"; "lua" ].

(** The signal of a key of a table, if it is one. *)
Definition key_signal (d : dict string) (k : string) (w : Z) : list (string * Z) :=
  match dict_get d k with
  | Some l => [(l, w)]
  | None => []
  end.

(** The signals of the suffixes of [REPO_SUFFIX_LANGUAGE] on a repository
    name. *)
Definition suffix_signals (actual_repo : string) : list (string * Z) :=
  flat_map
    (fun '(suffix, lang) => if endswith actual_repo suffix then [(lang, 3)] else [])
    REPO_SUFFIX_LANGUAGE.

Definition repo_signals (repo : string) : list (string * Z) :=
  if truthy repo then
    let repo_name := split "/" (rstrip (Ascii.eqb "/") repo) in
    if contains "github.com" repo && (5 <=? len repo_name) then
      match nth_error repo_name 4 with
      | Some segment => suffix_signals (lower segment)
      | None => []
      end
    else []
  else [].

Definition official_language_signals (desc : string) : list (string * Z) :=
  if startswith desc "Official A2A" then
    match re_search "Official A2A (\w+) sample" desc with
    | Some m =>
        match group m with
        | Some g =>
            if str_in (lower g)
                 ["python"; "java"; "typescript"; "go"; "rust"; "csharp"; "kotlin"]
            then [(lower g, 5)] else []
        | None => []
        end
    | None => []
    end
  else [].

Definition sdk_signals (sdks : list string) : list (string * Z) :=
  match sdks with
  | [sdk] => key_signal SDK_TO_LANGUAGE sdk 1
  | _ => []
  end.

(** The signals of the rules 1 to 6 of [infer_language]. *)
Definition language_signals_before_sdks (a : Agent) : list (string * Z) :=
  key_signal FRAMEWORK_TO_LANGUAGE (get (framework a) "") 3
  ++ flat_map (fun tag => key_signal TAG_TO_LANGUAGE (lower tag) 3) (get (tags a) [])
  ++ repo_signals (get (repository a) "")
  ++ pattern_signals false NAME_SLUG_LANGUAGE_PATTERNS
       (lower (get (slug a) "" ++ " " ++ get (name a) "")) 2
  ++ pattern_signals false DESC_LANGUAGE_PATTERNS (get (description a) "") 2
  ++ official_language_signals (get (description a) "").

Definition language_signals (a : Agent) : list (string * Z) :=
  language_signals_before_sdks a ++ sdk_signals (get (sdks a) []).

(** ** The result of the driver on one axis *)

(** The value of an axis after the driver: the label of the inference in
    place of the sentinel, and the current value otherwise. The test
    [if new:] of the driver is not repeated here: no inference returns the
    empty string (lemmas [language_label_accepted] and the like). *)
Definition axis_result (current : option string) (sentinel : string)
  (inferred : result (option string)) : option string :=
  if field_is current sentinel then
    match inferred with
    | Ok (Some l) => Some l
    | _ => current
    end
  else current.

(** The sum of the counts of a counter. *)
Fixpoint total (c : Counter) : Z :=
  match c with
  | [] => 0
  | (_, n) :: c' => n + total c'
  end.

(** The number of changes that the statistics record. *)
Definition changes (st : Stats) : Z :=
  language_changed st + category_changed st + framework_changed st.

(** The number of the files that hold the sentinel of an axis. *)
Definition sentinels (axis : Agent -> option string) (sentinel : string)
  (agent_files : list (string * Agent)) : Z :=
  len (filter (fun file => field_is (axis (snd file)) sentinel) agent_files).

Definition set_sdks (a : Agent) (v : list string) : Agent :=
  {| slug := slug a; name := name a; description := description a;
     repository := repository a; tags := tags a; sdks := Some v;
     skills := skills a; provider := provider a;
     language := language a; category := category a; framework := framework a |}.

(** The first of the items of greatest count, as a proposition. *)
Definition first_top (c : Counter) (l : string) (n : Z) : Prop :=
  exists before after,
    c = before ++ (l, n) :: after
    /\ (forall x, In x before -> snd x < n)
    /\ (forall x, In x after -> snd x <= n).


(** A suffix of [REPO_SUFFIX_LANGUAGE]: a dash and a word without dash. *)
Definition dash_word (suffix : string) : bool :=
  match suffix with
  | String "-" w => negb (contains "-" w)
  | _ => false
  end.

(** ** The files before and after a run *)

(** [x == y] on two optional fields *)
Definition same_field (x y : option string) : bool :=
  match x, y with
  | Some s, Some s' => String.eqb s s'
  | None, None => true
  | _, _ => false
  end.

(** The three axes of two records are the same. *)
Definition same_axes (a b : Agent) : bool :=
  same_field (language a) (language b)
  && same_field (category a) (category b)
  && same_field (framework a) (framework b).

(** The number of the files whose axes differ before and after. *)
Fixpoint rewritten (before after : list (string * Agent)) : Z :=
  match before, after with
  | (_, a) :: before', (_, a') :: after' =>
      (if same_axes a a' then 0 else 1) + rewritten before' after'
  | _, _ => 0
  end.

(** A file after the run: the same path, the same fields outside the three
    axes, and on each axis the label of the inference on the agent as it was
    read in place of the sentinel. *)
Definition file_result (file file' : string * Agent) : Prop :=
  fst file' = fst file
  /\ same_inputs (snd file) (snd file')
  /\ language (snd file')
     = axis_result (language (snd file)) "unknown" (infer_language (snd file))
  /\ category (snd file')
     = axis_result (category (snd file)) "general" (infer_category (snd file))
  /\ framework (snd file')
     = axis_result (framework (snd file)) "custom" (infer_framework (snd file)).

(** An agent with a name and a slug only. *)
Definition agent_demo : Agent :=
  {| slug := Some "hello-world"; name := Some "Search Demo"; description := None;
     repository := None; tags := None; sdks := None; skills := None; provider := None;
     language := Some "unknown"; category := Some "general";
     framework := Some "custom" |}.

(** An agent tagged [go] whose description names Rust. *)
Definition agent_go_described_rust : Agent :=
  set_description (set_tags no_fields ["go"]) "A Rust agent".

(** ** Lemmas on the monad and on indexing *)


Lemma for_each_total {A S : Type} (xs : list A) (body : A -> S -> result S) :
  (forall x s, exists s', body x s = Ok s') ->
  forall s, exists s', for_each xs body s = Ok s'.
Proof.
  intros Hbody. induction xs as [|x xs IH]; intros s; simpl.
  - eauto.
  - destruct (Hbody x s) as [s1 ->]. simpl. apply IH.
Qed.

Lemma index_in_range {A : Type} (xs : list A) (i : Z) :
  0 <= i < len xs -> exists a, index xs i = Ok a /\ nth_error xs (Z.to_nat i) = Some a.
Proof.
  unfold len, index. intros Hi.
  replace (i <? 0) with false by (symmetry; apply Z.ltb_ge; lia).
  replace (i <? 0) with false by (symmetry; apply Z.ltb_ge; lia).
  replace (Z.of_nat (List.length xs) <=? i) with false
    by (symmetry; apply Z.leb_gt; lia).
  simpl.
  destruct (nth_error xs (Z.to_nat i)) as [a|] eqn:E; [eauto|].
  apply nth_error_None in E. lia.
Qed.

Lemma index_head {A : Type} (x : A) (xs : list A) : index (x :: xs) 0 = Ok x.
Proof.
  destruct (index_in_range (x :: xs) 0) as [a [-> E]].
  - unfold len. simpl List.length. lia.
  - simpl in E. congruence.
Qed.


Lemma last_nth_error {A : Type} (xs : list A) (d : A) :
  xs <> [] -> nth_error xs (List.length xs - 1) = Some (last xs d).
Proof.
  induction xs as [|x xs IH]; intros Hne; [congruence|].
  destruct xs as [|y xs]; [reflexivity|].
  replace (List.length (x :: y :: xs) - 1)%nat with (S (List.length (y :: xs) - 1))
    by (simpl; lia).
  change (nth_error (y :: xs) (List.length (y :: xs) - 1) = Some (last (y :: xs) d)).
  apply IH. discriminate.
Qed.

Lemma index_last {A : Type} (xs : list A) (d : A) :
  xs <> [] -> index xs (-1) = Ok (last xs d).
Proof.
  intros Hne. unfold index.
  assert (Hlen : (0 < List.length xs)%nat)
    by (destruct xs; [congruence | simpl; lia]).
  change (-1 <? 0) with true. cbv iota.
  replace (Z.of_nat (List.length xs) + -1 <? 0) with false
    by (symmetry; apply Z.ltb_ge; lia).
  replace (Z.of_nat (List.length xs) <=? Z.of_nat (List.length xs) + -1) with false
    by (symmetry; apply Z.leb_gt; lia).
  simpl orb. cbv iota.
  replace (Z.to_nat (Z.of_nat (List.length xs) + -1)) with (List.length xs - 1)%nat by lia.
  rewrite (last_nth_error xs d Hne). reflexivity.
Qed.

Lemma dict_index_in {V : Type} (d : dict V) (k : string) :
  dict_in k d = true -> exists v, dict_index d k = Ok v /\ dict_get d k = Some v.
Proof.
  unfold dict_in, dict_index. destruct (dict_get d k); simpl; [eauto | discriminate].
Qed.

(** ** Lemmas on counters *)

Lemma counter_get_set (c : Counter) (k k' : string) (v : Z) :
  counter_get (counter_set c k v) k' = if String.eqb k k' then v else counter_get c k'.
Proof.
  induction c as [|[k0 n] c IH]; simpl.
  - reflexivity.
  - destruct (String.eqb_spec k0 k) as [->|Hne]; simpl.
    + destruct (String.eqb k k'); reflexivity.
    + rewrite IH. destruct (String.eqb_spec k0 k') as [->|Hne'].
      * destruct (String.eqb_spec k k'); [congruence | reflexivity].
      * reflexivity.
Qed.

Lemma counter_get_incr (c : Counter) (k k' : string) (w : Z) :
  counter_get (incr c k w) k' = counter_get c k' + (if String.eqb k k' then w else 0).
Proof.
  unfold incr. rewrite counter_get_set.
  destruct (String.eqb_spec k k') as [->|]; lia.
Qed.

Lemma keys_set (c : Counter) (k : string) (v : Z) :
  keys (counter_set c k v) = if existsb (String.eqb k) (keys c) then keys c else keys c ++ [k].
Proof.
  induction c as [|[k0 n] c IH]; simpl.
  - reflexivity.
  - rewrite (String.eqb_sym k k0).
    destruct (String.eqb k0 k); simpl; [reflexivity|].
    unfold keys in *. rewrite IH. destruct (existsb (String.eqb k) (map fst c)); reflexivity.
Qed.

Lemma existsb_eqb_in (k : string) (ks : list string) :
  existsb (String.eqb k) ks = true <-> In k ks.
Proof.
  rewrite existsb_exists. split.
  - intros [x [Hin Heq]]. apply String.eqb_eq in Heq. congruence.
  - intros Hin. exists k. split; [assumption | apply String.eqb_refl].
Qed.

Lemma keys_incr_in (c : Counter) (k k' : string) (w : Z) :
  In k' (keys (incr c k w)) <-> In k' (keys c) \/ k' = k.
Proof.
  unfold incr. rewrite keys_set.
  destruct (existsb (String.eqb k) (keys c)) eqn:E.
  - apply existsb_eqb_in in E. split; [tauto | intros [H | ->]; assumption].
  - rewrite in_app_iff. simpl. intuition congruence.
Qed.

Lemma keys_incr_nodup (c : Counter) (k : string) (w : Z) :
  NoDup (keys c) -> NoDup (keys (incr c k w)).
Proof.
  intros Hnd. unfold incr. rewrite keys_set.
  destruct (existsb (String.eqb k) (keys c)) eqn:E; [assumption|].
  apply NoDup_app; [assumption | repeat constructor; simpl; tauto |].
  intros x Hx [<- | []].
  apply existsb_eqb_in in Hx. congruence.
Qed.

Lemma counter_get_in (c : Counter) (k : string) (n : Z) :
  NoDup (keys c) -> In (k, n) c -> counter_get c k = n.
Proof.
  induction c as [|[k0 n0] c IH]; simpl; intros Hnd Hin; [contradiction|].
  inversion Hnd as [|? ? Hnotin Hnd']; subst.
  destruct Hin as [Heq | Hin].
  - inversion Heq; subst. rewrite String.eqb_refl. reflexivity.
  - destruct (String.eqb_spec k0 k) as [->|Hne].
    + exfalso. apply Hnotin. change (In (fst (k, n)) (map fst c)). apply in_map, Hin.
    + apply IH; assumption.
Qed.

Lemma counter_get_nonzero (c : Counter) (k : string) :
  counter_get c k <> 0 -> In (k, counter_get c k) c.
Proof.
  induction c as [|[k0 n0] c IH]; simpl; intros Hne; [congruence|].
  destruct (String.eqb_spec k0 k) as [->|Hk]; [left; reflexivity | right; auto].
Qed.


(** ** Lemmas on [most_common] *)

Lemma insert_desc_perm (x : string * Z) (l : list (string * Z)) :
  Permutation (insert_desc x l) (x :: l).
Proof.
  induction l as [|y l IH]; simpl.
  - apply Permutation_refl.
  - destruct (snd y <=? snd x).
    + apply Permutation_refl.
    + apply perm_trans with (y :: x :: l); [apply perm_skip, IH | apply perm_swap].
Qed.

Lemma sorted_desc_perm (c : Counter) : Permutation (sorted_desc c) c.
Proof.
  induction c as [|x c IH]; simpl.
  - apply perm_nil.
  - apply perm_trans with (x :: sorted_desc c);
      [apply insert_desc_perm | apply perm_skip, IH].
Qed.

Lemma insert_desc_sorted (x : string * Z) (l : list (string * Z)) :
  StronglySorted ge_count l -> StronglySorted ge_count (insert_desc x l).
Proof.
  induction l as [|y l IH]; simpl; intros Hs.
  - repeat constructor.
  - inversion Hs as [|? ? Hs' Hall]; subst.
    destruct (snd y <=? snd x) eqn:E.
    + apply Z.leb_le in E. constructor; [assumption|].
      constructor; [exact E|].
      rewrite Forall_forall in *. intros z Hz. unfold ge_count in *.
      specialize (Hall z Hz). lia.
    + apply Z.leb_gt in E. constructor; [apply IH; assumption|].
      rewrite Forall_forall in *. intros z Hz.
      apply (Permutation_in _ (insert_desc_perm x l)) in Hz.
      destruct Hz as [<- | Hz]; unfold ge_count in *; [lia | apply Hall, Hz].
Qed.

Lemma sorted_desc_sorted (c : Counter) : StronglySorted ge_count (sorted_desc c).
Proof.
  induction c as [|x c IH]; simpl; [constructor | apply insert_desc_sorted, IH].
Qed.

(** The first item of [most_common] is an item of the counter of greatest
    count. *)
Lemma most_common_top (c : Counter) :
  empty c = false ->
  exists top,
    most_common 1 c = [top] /\ In top c /\ forall x, In x c -> snd x <= snd top.
Proof.
  intros Hne. unfold most_common.
  pose proof (sorted_desc_perm c) as Hp.
  pose proof (sorted_desc_sorted c) as Hs.
  destruct (sorted_desc c) as [|top l] eqn:E.
  - apply Permutation_nil in Hp. subst c. discriminate.
  - exists top. split; [reflexivity|]. split.
    + apply (Permutation_in _ Hp). left. reflexivity.
    + intros x Hx. apply (Permutation_in _ (Permutation_sym Hp)) in Hx.
      inversion Hs as [|? ? _ Hall]; subst. rewrite Forall_forall in Hall.
      destruct Hx as [<- | Hx]; [lia | apply Hall, Hx].
Qed.

(** Two items of greatest count are the two first of [most_common]. *)
Lemma most_common_tie (c : Counter) (x y : string * Z) :
  x <> y -> In x c -> In y c -> snd x = snd y ->
  (forall z, In z c -> snd z <= snd x) ->
  exists a b, most_common 2 c = [a; b] /\ snd a = snd b.
Proof.
  intros Hxy Hx Hy Heq Hmax. unfold most_common.
  pose proof (sorted_desc_perm c) as Hp.
  pose proof (sorted_desc_sorted c) as Hs.
  assert (Hin : forall z, In z (sorted_desc c) <-> In z c).
  { intros z. split; intros Hz.
    - apply (Permutation_in _ Hp), Hz.
    - apply (Permutation_in _ (Permutation_sym Hp)), Hz. }
  apply Hin in Hx. apply Hin in Hy.
  destruct (sorted_desc c) as [|a [|b l]] eqn:E.
  - contradiction.
  - simpl in Hx, Hy. intuition congruence.
  - exists a, b. split; [reflexivity|].
    inversion Hs as [|? ? Hs' Hall]; subst.
    inversion Hs' as [|? ? _ Hall']; subst.
    rewrite Forall_forall in Hall, Hall'. unfold ge_count in *.
    assert (Ha : snd a <= snd x) by (apply Hmax, Hin; left; reflexivity).
    assert (Hb : snd b <= snd a) by (apply Hall; left; reflexivity).
    assert (Hz : exists z, In z (b :: l) /\ snd z = snd x).
    { destruct Hx as [<- | Hx].
      - destruct Hy as [Hy | Hy]; [congruence | exists y; split; [assumption | lia]].
      - exists x. split; [assumption | reflexivity]. }
    destruct Hz as [z [[<- | Hz] Hzx]]; [lia|].
    specialize (Hall' z Hz). lia.
Qed.

(** A key whose count is above the count of every other key comes first. *)
Lemma most_common_winner (c : Counter) (l : string) (n : Z) :
  NoDup (keys c) -> counter_get c l = n -> 0 < n ->
  (forall l', l' <> l -> counter_get c l' < n) ->
  most_common 1 c = [(l, n)].
Proof.
  intros Hnd Hget Hpos Hothers.
  assert (Hin : In (l, n) c) by (rewrite <- Hget; apply counter_get_nonzero; lia).
  assert (Hne : empty c = false) by (destruct c; [contradiction | reflexivity]).
  destruct (most_common_top c Hne) as [[lt nt] [Hmc [Htop Hmax]]].
  rewrite Hmc. f_equal.
  pose proof (counter_get_in c lt nt Hnd Htop) as Hlt.
  specialize (Hmax (l, n) Hin). simpl in Hmax.
  destruct (string_dec lt l) as [->|Hneq].
  - congruence.
  - specialize (Hothers lt Hneq). lia.
Qed.

(** The counts of a counter are bounded by the count of its first item. *)
Lemma most_common_bound (c : Counter) (l : string) (n : Z) :
  NoDup (keys c) -> most_common 1 c = [(l, n)] -> 0 <= n ->
  counter_get c l = n /\ forall l', counter_get c l' <= n.
Proof.
  intros Hnd Hmc Hpos.
  assert (Hne : empty c = false).
  { destruct c; [discriminate | reflexivity]. }
  destruct (most_common_top c Hne) as [top [Hmc' [Htop Hmax]]].
  rewrite Hmc in Hmc'. inversion Hmc'; subst top. split.
  - apply counter_get_in; assumption.
  - intros l'. destruct (Z.eq_dec (counter_get c l') 0) as [->|Hnz]; [assumption|].
    apply (Hmax (l', counter_get c l')), counter_get_nonzero, Hnz.
Qed.

(** ** Lemmas on the signals *)

Lemma bumps_app (s1 s2 : list (string * Z)) (c : Counter) :
  bumps (s1 ++ s2) c = bumps s2 (bumps s1 c).
Proof. unfold bumps. apply fold_left_app. Qed.

Lemma weight_app (l : string) (s1 s2 : list (string * Z)) :
  weight l (s1 ++ s2) = weight l s1 + weight l s2.
Proof.
  induction s1 as [|[k w] s1 IH]; simpl; [reflexivity | rewrite IH; lia].
Qed.

Lemma counter_get_bumps (signals : list (string * Z)) (c : Counter) (l : string) :
  counter_get (bumps signals c) l = counter_get c l + weight l signals.
Proof.
  revert c. induction signals as [|[k w] signals IH]; intros c; simpl.
  - lia.
  - change (counter_get (bumps signals (incr c k w)) l
            = counter_get c l + ((if String.eqb k l then w else 0) + weight l signals)).
    rewrite IH, counter_get_incr. lia.
Qed.

Lemma keys_bumps_nodup (signals : list (string * Z)) (c : Counter) :
  NoDup (keys c) -> NoDup (keys (bumps signals c)).
Proof.
  revert c. induction signals as [|[k w] signals IH]; intros c Hnd; simpl.
  - assumption.
  - apply IH, keys_incr_nodup, Hnd.
Qed.

Lemma keys_bumps_in (signals : list (string * Z)) (c : Counter) (k : string) :
  In k (keys (bumps signals c)) -> In k (keys c) \/ In k (map fst signals).
Proof.
  revert c. induction signals as [|[k0 w] signals IH]; intros c Hin; simpl in *.
  - left. assumption.
  - apply IH in Hin. destruct Hin as [Hin | Hin]; [|tauto].
    apply keys_incr_in in Hin. destruct Hin as [Hin | ->]; tauto.
Qed.

Lemma weight_nonneg (l : string) (signals : list (string * Z)) :
  Forall (fun s => 0 <= snd s) signals -> 0 <= weight l signals.
Proof.
  induction 1 as [|[k w] signals Hw _ IH]; simpl in *; [lia|].
  destruct (String.eqb k l); lia.
Qed.

Lemma weight_other (l : string) (signals : list (string * Z)) :
  Forall (fun s => fst s <> l) signals -> weight l signals = 0.
Proof.
  induction 1 as [|[k w] signals Hk _ IH]; simpl in *; [reflexivity|].
  destruct (String.eqb_spec k l); [contradiction | lia].
Qed.

(** A loop whose turns add signals adds the signals of all its turns. *)
Lemma for_each_bumps {A : Type} (xs : list A) (body : A -> Counter -> result Counter)
  (signals : A -> list (string * Z)) :
  (forall x c, body x c = Ok (bumps (signals x) c)) ->
  forall c, for_each xs body c = Ok (bumps (flat_map signals xs) c).
Proof.
  intros Hbody. induction xs as [|x xs IH]; intros c; simpl.
  - reflexivity.
  - rewrite Hbody. simpl. rewrite IH, bumps_app. reflexivity.
Qed.

(** ** The rules compute the signals *)

Lemma split_nonempty (sep : ascii) (s : string) : split sep s <> [].
Proof.
  destruct s as [|c s]; simpl; [discriminate|].
  destruct (Ascii.eqb c sep); [discriminate|].
  destruct (split sep s); discriminate.
Qed.

Lemma pattern_loop_bumps (ic : bool) (table : list (string * string)) (text : string)
  (w : Z) (c : Counter) :
  for_each table
    (fun '(pattern, label) candidates =>
       if is_some (search_from ic (rx pattern) None text)
       then Ok (incr candidates label w) else Ok candidates) c
  = Ok (bumps (pattern_signals ic table text w) c).
Proof.
  unfold pattern_signals. apply for_each_bumps.
  intros [pattern label] c'.
  destruct (is_some (search_from ic (rx pattern) None text)); reflexivity.
Qed.

Lemma tag_rule_loop_bumps (w : Z -> Z) (tags : list string) (c : Counter) :
  for_each TAG_CATEGORY_RULES
    (fun '(tag_set, category, min_matches) candidates =>
       let matches := len (inter tags tag_set) in
       if min_matches <=? matches then Ok (incr candidates category (w matches))
       else Ok candidates) c
  = Ok (bumps (tag_rule_signals w tags) c).
Proof.
  unfold tag_rule_signals. apply for_each_bumps.
  intros [[tag_set category] min_matches] c'. cbv zeta.
  destruct (min_matches <=? len (inter tags tag_set)); reflexivity.
Qed.

Lemma keyword_bumps (pattern combined category : string) (w : Z) (c : Counter) :
  Category.keyword pattern combined category w c
  = Ok (bumps (keyword_signal pattern combined category w) c).
Proof.
  unfold Category.keyword, keyword_signal.
  destruct (is_some (re_search pattern combined)); reflexivity.
Qed.

Lemma category_candidates_signals (a : Agent) :
  Category.candidates a = Ok (bumps (category_signals a) []).
Proof.
  unfold Category.candidates, category_signals. cbv zeta.
  unfold Category.rule_tags. rewrite tag_rule_loop_bumps. cbn [bind].
  unfold Category.rule_description, re_search_i. rewrite pattern_loop_bumps. cbn [bind].
  unfold Category.rule_skills.
  rewrite (for_each_bumps _ _
             (fun skill =>
                tag_rule_signals (fun _ => 2)
                  (Category.lower_set (get (skill_tags skill) []))))
    by (intros skill c;
        exact (tag_rule_loop_bumps (fun _ => 2)
                 (Category.lower_set (get (skill_tags skill) [])) c)).
  cbn [bind].
  unfold Category.rule_name. repeat (rewrite keyword_bumps; cbn [bind]).
  unfold Category.rule_official, Category.rule_utility.
  rewrite !bumps_app.
  destruct (str_in "official-sample" (Category.lower_set (get (tags a) [])));
    cbn [bind]; rewrite keyword_bumps; reflexivity.
Qed.

Lemma framework_rule_tags_bumps (tags : list string) (c : Counter) :
  Framework.rule_tags tags c = Ok (bumps (framework_tag_signals tags) c).
Proof.
  unfold Framework.rule_tags, framework_tag_signals. apply for_each_bumps.
  intros tag c'. unfold dict_in, dict_index.
  destruct (dict_get TAG_TO_FRAMEWORK (lower tag)); reflexivity.
Qed.

Lemma sample_name_text (desc : string) :
  Framework.sample_name desc = Ok (sample_text desc).
Proof.
  unfold Framework.sample_name, sample_text.
  destruct (contains ":" desc); [|reflexivity].
  rewrite (index_last _ "" (split_nonempty ":" desc)). reflexivity.
Qed.

Lemma framework_rule_official_bumps (desc : string) (c : Counter) :
  Framework.rule_official desc c = Ok (bumps (framework_official_signals desc) c).
Proof.
  unfold Framework.rule_official, framework_official_signals.
  destruct (contains "Official A2A" desc); [|reflexivity].
  rewrite sample_name_text. cbn [bind].
  unfold Framework.detect, re_search_i. apply pattern_loop_bumps.
Qed.

Lemma framework_candidates_signals (a : Agent) :
  Framework.candidates a = Ok (bumps (framework_signals a) []).
Proof.
  unfold Framework.candidates, framework_signals. cbv zeta.
  rewrite framework_rule_tags_bumps. cbn [bind].
  unfold Framework.rule_text, Framework.detect, re_search_i.
  rewrite pattern_loop_bumps. cbn [bind].
  rewrite framework_rule_official_bumps, !bumps_app. reflexivity.
Qed.

Lemma bumps_nil_nodup (signals : list (string * Z)) : NoDup (keys (bumps signals [])).
Proof. apply keys_bumps_nodup. constructor. Qed.

(** ** Lemmas on the matcher *)

Lemma orelse_some {A : Type} (a b : option A) (m : A) :
  orelse a b = Some m -> a = Some m \/ b = Some m.
Proof. destruct a; simpl; auto. Qed.

(** A match comes from the continuation, and keeps or sets group 1. *)
Lemma rmatch_group (ic : bool) (r : regex) :
  forall (k : mstate -> option Match) (st : mstate) (m : Match),
    rmatch ic r k st = Some m ->
    exists st',
      k st' = Some m
      /\ (is_some (group1 st) = true -> is_some (group1 st') = true)
      /\ (sets_group r = true -> is_some (group1 st') = true).
Proof.
  assert (Hstep : forall p k st m,
             step p k st = Some m ->
             exists st', k st' = Some m
                         /\ (is_some (group1 st) = true -> is_some (group1 st') = true)
                         /\ (false = true -> is_some (group1 st') = true)).
  { intros p k st m. unfold step. destruct (rest st) as [|c s']; [discriminate|].
    destruct (p c); [|discriminate]. intros H.
    eexists. split; [exact H|]. simpl. split; [tauto | discriminate]. }
  induction r as [ | c | | cs | | | | r1 IH1 r2 IH2 | r1 IH1 r2 IH2 | r IH | r IH | r IH | ];
    intros k st m H; simpl in H; simpl sets_group;
    try (apply Hstep in H; exact H).
  - exists st. split; [assumption|]. split; [tauto | discriminate].
  - destruct (xorb _ _); [|discriminate].
    exists st. split; [assumption|]. split; [tauto | discriminate].
  - apply IH1 in H. destruct H as [st1 [H [Hk1 Hs1]]].
    apply IH2 in H. destruct H as [st2 [H [Hk2 Hs2]]].
    exists st2. split; [assumption|]. split; [tauto|].
    rewrite orb_true_iff. intros [E | E]; auto.
  - apply orelse_some in H. destruct H as [H | H].
    + apply IH1 in H. destruct H as [st1 [H1 [Hk1 Hs1]]].
      exists st1. split; [assumption|]. split; [assumption|].
      rewrite andb_true_iff. tauto.
    + apply IH2 in H. destruct H as [st2 [H2 [Hk2 Hs2]]].
      exists st2. split; [assumption|]. split; [assumption|].
      rewrite andb_true_iff. tauto.
  - revert H. generalize (String.length (rest st)) at 1. intros n. revert st.
    induction n as [|n IHn]; intros st H.
    + exists st. split; [assumption|]. split; [tauto | discriminate].
    + apply orelse_some in H. destruct H as [H | H].
      * apply IH in H. destruct H as [st1 [H1 [Hk1 _]]].
        destruct (String.length (rest st1) <? String.length (rest st))%nat;
          [|discriminate].
        apply IHn in H1. destruct H1 as [st2 [H2 [Hk2 _]]].
        exists st2. split; [assumption|]. split; [tauto | discriminate].
      * exists st. split; [assumption|]. split; [tauto | discriminate].
  - destruct (rmatch ic r Some st); [discriminate|].
    exists st. split; [assumption|]. split; [tauto | discriminate].
  - apply IH in H. destruct H as [st1 [H1 _]].
    eexists. split; [exact H1|]. simpl. tauto.
  - discriminate.
Qed.

Lemma search_from_group (ic : bool) (r : regex) (s : string) :
  forall (p : option ascii) (m : Match),
    sets_group r = true -> search_from ic r p s = Some m -> is_some (group m) = true.
Proof.
  induction s as [|c s IH]; intros p m Hsets H; simpl in H.
  - destruct (rmatch ic r Some (MState p "" None)) eqn:E; [|discriminate].
    apply rmatch_group in E. destruct E as [st' [Hk [_ Hg]]].
    inversion H; subst. inversion Hk; subst. apply Hg, Hsets.
  - destruct (rmatch ic r Some (MState p (String c s) None)) eqn:E.
    + apply rmatch_group in E. destruct E as [st' [Hk [_ Hg]]].
      inversion H; subst. inversion Hk; subst. apply Hg, Hsets.
    + eapply IH; eassumption.
Qed.

(** A match at the end of [x] is found by a search from the start of [x]. *)
Lemma search_from_app (ic : bool) (r : regex) (x y : string) :
  forall p : option ascii,
    is_some (rmatch ic r Some (MState (last_char p x) y None)) = true ->
    is_some (search_from ic r p (x ++ y)) = true.
Proof.
  induction x as [|c x IH]; intros p H.
  - change (is_some (rmatch ic r Some (MState p y None)) = true) in H.
    change (is_some (search_from ic r p y) = true).
    destruct y; simpl; destruct (rmatch ic r Some _); try reflexivity; discriminate.
  - change (is_some (search_from ic r p (String c (x ++ y))) = true). simpl.
    destruct (rmatch ic r Some (MState p (String c (x ++ y)) None)); [reflexivity|].
    apply IH, H.
Qed.

(** ** Lemmas on strings *)

Lemma append_assoc (a b c : string) : ((a ++ b) ++ c = a ++ (b ++ c))%string.
Proof.
  induction a as [|x a IH]; simpl; [reflexivity | rewrite IH; reflexivity].
Qed.


Lemma contains_prefix (sub s : string) :
  String.prefix sub s = true -> contains sub s = true.
Proof.
  intros H. destruct s; simpl in *; rewrite H; reflexivity.
Qed.


(** The part after the last separator. *)
Lemma split_last (sep : ascii) (x t : string) :
  contains (String sep "") t = false ->
  last (split sep (x ++ String sep t)) "" = t.
Proof.
  intros Ht.
  assert (Hsplit : split sep t = [t]).
  { clear x. induction t as [|c t IH]; [reflexivity|].
    simpl in Ht. simpl.
    destruct (Ascii.eqb_spec c sep) as [->|Hne].
    - destruct (ascii_dec sep sep); [|congruence].
      destruct t; discriminate.
    - destruct (ascii_dec sep c) as [->|_]; [congruence|].
      simpl in Ht. rewrite IH by assumption. reflexivity. }
  assert (Hshape : exists h l, split sep (x ++ String sep t) = h :: l ++ [t]).
  { induction x as [|c x IH]; simpl.
    - rewrite Ascii.eqb_refl, Hsplit. exists "", []. reflexivity.
    - destruct IH as [h [l ->]]. destruct (Ascii.eqb c sep).
      + exists "", (h :: l). reflexivity.
      + exists (String c h), l. reflexivity. }
  destruct Hshape as [h [l ->]].
  change (h :: l ++ [t]) with ((h :: l) ++ [t]). apply last_last.
Qed.

(** ** The inferences never raise *)

(** Every pattern of the script is in the syntax that [re_compile] reads:
    the patterns of the tables and the patterns written in the functions. *)
Lemma patterns_compile :
  forallb (fun pattern => is_some (re_compile pattern))
    (map fst (NAME_SLUG_LANGUAGE_PATTERNS ++ DESC_LANGUAGE_PATTERNS
              ++ DESC_CATEGORY_PATTERNS ++ FRAMEWORK_DETECTION)
     ++ [ "Official A2A (\w+) sample";
          "search|retriev|rag"; "secur|auth"; "financ|bank|trade|crypto";
          "travel|flight|hotel|trip"; "media|image|video|audio";
          "code|coding|dev"; "data|analy"; "chat|convers";
          "orchestrat|multi.?agent"; "deploy|infra|devops|docker|k8s";
          "template|sample|demo|starter|scaffold|boilerplate|hello.?world" ])
  = true.
Proof. vm_compute. reflexivity. Qed.

(** The matcher on some texts, with the answers of Python's [re.search]. *)
Example search_java_script :
  is_some (re_search "\bJava\b(?!\s*Script)" "A Java agent") = true
  /\ is_some (re_search "\bJava\b(?!\s*Script)" "A Java Script agent") = false
  /\ is_some (re_search "\bJava\b(?!\s*Script)" "A JavaScript agent") = false.
Proof. repeat split; vm_compute; reflexivity. Qed.

Example search_go :
  is_some (re_search
             "\bGo(?:lang)?\s+(?:implementation|sdk|library|client|server|agent)\b"
             "A Go  client for A2A") = true
  /\ is_some (re_search "\bC#\b" "A C# agent") = false
  /\ is_some (re_search "\bC#\b" "A C#agent") = true
  /\ is_some (re_search "\.NET\b" "A .NET agent") = true.
Proof. repeat split; vm_compute; reflexivity. Qed.

Example search_ignore_case :
  is_some (re_search_i "\b(?:code.*generat|generat.*code|coding|code review|program)\b"
             "It Generates some Code") = true
  /\ is_some (re_search_i "\b(?:google[- ]?adk|agent[- ]?development[- ]?kit)\b"
                "the Agent Development-Kit") = true
  /\ is_some (re_search_i "\badk\b" "my_adk_agent") = false.
Proof. repeat split; vm_compute; reflexivity. Qed.

Example search_group :
  option_map group (re_search "Official A2A (\w+) sample" "Official A2A python sample agent")
  = Some (Some "python")
  /\ option_map group (re_search "Official A2A (\w+) sample" "Official A2A sample")
     = None.
Proof. split; vm_compute; reflexivity. Qed.

(** [most_common] keeps the order of insertion among equal counts. *)
Example most_common_stable :
  most_common 2 [("a", 1); ("b", 3); ("c", 3); ("d", 2)] = [("b", 3); ("c", 3)]
  /\ most_common 1 [("a", 3); ("b", 3)] = [("a", 3)]
  /\ incr (incr (incr [] "x" 2) "y" 3) "x" 1 = [("x", 3); ("y", 3)].
Proof. repeat split; reflexivity. Qed.

Ltac ok_step :=
  match goal with
  | |- exists r, Ok ?c = Ok r => exists c; reflexivity
  | |- exists r, (if ?b then _ else _) = Ok r => destruct b eqn:?
  | |- exists r, bind (Ok _) _ = Ok r => cbn [bind]
  end.

Lemma language_rule_framework_total (a : Agent) (c : Counter) :
  exists c', Language.rule_framework a c = Ok c'.
Proof.
  unfold Language.rule_framework. cbv zeta. ok_step; [|ok_step].
  match goal with H : dict_in _ _ = true |- _ =>
    apply dict_index_in in H; destruct H as [v [-> _]] end.
  repeat ok_step.
Qed.

Lemma language_rule_tags_total (a : Agent) (c : Counter) :
  exists c', Language.rule_tags a c = Ok c'.
Proof.
  unfold Language.rule_tags. apply for_each_total. intros tag s. cbv zeta.
  ok_step; [|ok_step].
  match goal with H : dict_in _ _ = true |- _ =>
    apply dict_index_in in H; destruct H as [v [-> _]] end.
  repeat ok_step.
Qed.

Lemma language_rule_repo_total (a : Agent) (c : Counter) :
  exists c', Language.rule_repo a c = Ok c'.
Proof.
  unfold Language.rule_repo. cbv zeta. ok_step; [|ok_step]. ok_step; [|ok_step].
  match goal with H : _ && _ = true |- _ =>
    apply andb_true_iff in H; destruct H as [_ H]; apply Z.leb_le in H;
    destruct (index_in_range (split "/" (rstrip (Ascii.eqb "/") (get (repository a) ""))) 4)
      as [segment [-> _]]; [lia|]
  end.
  cbn [bind]. apply for_each_total. intros [suffix lang] s. repeat ok_step.
Qed.

Lemma language_rule_name_total (a : Agent) (c : Counter) :
  exists c', Language.rule_name a c = Ok c'.
Proof.
  unfold Language.rule_name. cbv zeta. apply for_each_total.
  intros [pattern lang] s. repeat ok_step.
Qed.

Lemma language_rule_description_total (a : Agent) (c : Counter) :
  exists c', Language.rule_description a c = Ok c'.
Proof.
  unfold Language.rule_description. cbv zeta. apply for_each_total.
  intros [pattern lang] s. repeat ok_step.
Qed.

Lemma language_rule_official_total (a : Agent) (c : Counter) :
  exists c', Language.rule_official a c = Ok c'.
Proof.
  unfold Language.rule_official. cbv zeta. ok_step; [|ok_step].
  destruct (re_search "Official A2A (\w+) sample" (get (description a) ""))
    as [m|] eqn:E; [|ok_step].
  apply search_from_group in E; [|vm_compute; reflexivity].
  destruct (group m) as [g|]; [|discriminate]. cbn [lower_opt bind].
  repeat ok_step.
Qed.

Lemma language_rule_sdks_total (a : Agent) (c : Counter) :
  exists c', Language.rule_sdks a c = Ok c'.
Proof.
  unfold Language.rule_sdks. cbv zeta. ok_step; [|ok_step].
  match goal with H : (_ =? 1) = true |- _ => apply Z.eqb_eq in H;
    destruct (index_in_range (get (sdks a) []) 0) as [sdk [-> _]]; [lia|] end.
  cbn [bind]. ok_step; [|ok_step].
  match goal with H : dict_in _ _ = true |- _ =>
    apply dict_index_in in H; destruct H as [v [-> _]] end.
  repeat ok_step.
Qed.

Lemma language_candidates_total (a : Agent) :
  exists c, Language.candidates a = Ok c.
Proof.
  unfold Language.candidates.
  destruct (language_rule_framework_total a []) as [c1 ->]. cbn [bind].
  destruct (language_rule_tags_total a c1) as [c2 ->]. cbn [bind].
  destruct (language_rule_repo_total a c2) as [c3 ->]. cbn [bind].
  destruct (language_rule_name_total a c3) as [c4 ->]. cbn [bind].
  destruct (language_rule_description_total a c4) as [c5 ->]. cbn [bind].
  destruct (language_rule_official_total a c5) as [c6 ->]. cbn [bind].
  apply language_rule_sdks_total.
Qed.

(** The decision of [infer_language] on a tally whose first item is known. *)
Lemma language_decide_top (c : Counter) (top : string * Z) :
  most_common 1 c = [top] ->
  Language.decide c
  = if snd top <? 2 then Ok None
    else match most_common 2 c with
         | [first; second] =>
             if snd first =? snd second then Ok None else Ok (Some (fst top))
         | _ => Ok (Some (fst top))
         end.
Proof.
  intros Hmc. unfold Language.decide.
  assert (Hne : empty c = false) by (destruct c; [discriminate | reflexivity]).
  rewrite Hne, Hmc, index_head. cbn [bind].
  destruct (snd top <? 2); [reflexivity|]. cbv zeta.
  unfold most_common. destruct (sorted_desc c) as [|x [|y l]]; reflexivity.
Qed.

Lemma language_decide_total (c : Counter) : exists r, Language.decide c = Ok r.
Proof.
  destruct (empty c) eqn:Hne.
  - unfold Language.decide. rewrite Hne. eauto.
  - destruct (most_common_top c Hne) as [top [Hmc _]].
    rewrite (language_decide_top c top Hmc).
    destruct (snd top <? 2); [eauto|].
    destruct (most_common 2 c) as [|x [|y [|z l]]]; eauto.
    destruct (snd x =? snd y); eauto.
Qed.

Lemma category_decide_top (c : Counter) (top : string * Z) :
  most_common 1 c = [top] ->
  Category.decide c = if snd top <? 2 then Ok None else Ok (Some (fst top)).
Proof.
  intros Hmc. unfold Category.decide.
  assert (Hne : empty c = false) by (destruct c; [discriminate | reflexivity]).
  rewrite Hne, Hmc, index_head. reflexivity.
Qed.

Lemma framework_decide_top (tags : list string) (c : Counter) (top : string * Z) :
  most_common 1 c = [top] ->
  Framework.decide tags c
  = if snd top <? 2 then Ok None
    else if String.eqb (fst top) "google-adk" && (snd top <? 3) then
      if negb (Framework.has_adk_tag tags) then Ok None else Ok (Some (fst top))
    else Ok (Some (fst top)).
Proof.
  intros Hmc. unfold Framework.decide.
  assert (Hne : empty c = false) by (destruct c; [discriminate | reflexivity]).
  rewrite Hne, Hmc, index_head. reflexivity.
Qed.

Lemma infer_language_total (a : Agent) : exists r, infer_language a = Ok r.
Proof.
  unfold infer_language. destruct (language_candidates_total a) as [c ->].
  cbn [bind]. apply language_decide_total.
Qed.

Lemma infer_category_total (a : Agent) : exists r, infer_category a = Ok r.
Proof.
  unfold infer_category. destruct (is_lifie_business_agent a); [eauto|].
  rewrite category_candidates_signals. cbn [bind].
  destruct (empty (bumps (category_signals a) [])) eqn:Hne.
  - unfold Category.decide. rewrite Hne. eauto.
  - destruct (most_common_top _ Hne) as [top [Hmc _]].
    rewrite (category_decide_top _ top Hmc). destruct (snd top <? 2); eauto.
Qed.

Lemma infer_framework_total (a : Agent) : exists r, infer_framework a = Ok r.
Proof.
  unfold infer_framework. rewrite framework_candidates_signals. cbn [bind].
  destruct (empty (bumps (framework_signals a) [])) eqn:Hne.
  - unfold Framework.decide. rewrite Hne. eauto.
  - destruct (most_common_top _ Hne) as [top [Hmc _]].
    rewrite (framework_decide_top _ _ top Hmc).
    destruct (snd top <? 2); [eauto|].
    destruct (String.eqb (fst top) "google-adk" && (snd top <? 3)); [|eauto].
    destruct (negb (Framework.has_adk_tag (get (tags a) []))); eauto.
Qed.

(** ** The confidence gate *)

(** C1, for the language axis: whenever two distinct labels have the same
    top score in the tally, [infer_language] returns [None], whatever the
    score; the agent tagged [go] and [rust], each of weight 3, gets [None].
    The framework axis has no such check. *)
Theorem language_tie_rejected :
  (forall a : Agent,
      exists c,
        Language.candidates a = Ok c
        /\ forall (l1 l2 : string) (s : Z),
            l1 <> l2 -> In (l1, s) c -> In (l2, s) c ->
            (forall l n, In (l, n) c -> n <= s) ->
            infer_language a = Ok None)
  /\ Language.candidates agent_go_rust = Ok [("go", 3); ("rust", 3)]
  /\ infer_language agent_go_rust = Ok None.
Proof.
  split; [|split; vm_compute; reflexivity].
  intros a. destruct (language_candidates_total a) as [c Hc]. exists c.
  split; [assumption|]. intros l1 l2 s Hne H1 H2 Hmax.
  unfold infer_language. rewrite Hc. cbn [bind].
  assert (Hnon : empty c = false) by (destruct c; [contradiction | reflexivity]).
  destruct (most_common_top c Hnon) as [top [Hmc _]].
  rewrite (language_decide_top c top Hmc).
  destruct (snd top <? 2); [reflexivity|].
  destruct (most_common_tie c (l1, s) (l2, s)) as [x [y [-> Hxy]]];
    try assumption; try reflexivity.
  - congruence.
  - intros [l n] Hz. simpl. eapply Hmax, Hz.
  - rewrite Hxy, Z.eqb_refl. reflexivity.
Qed.

Lemma language_tie_rejected_witness : infer_language agent_go_rust = Ok None.
Proof.
  destruct (proj1 language_tie_rejected agent_go_rust) as [c [Hc Htie]].
  apply (Htie "go" "rust" 3).
  - discriminate.
  - vm_compute in Hc. inversion Hc. simpl. tauto.
  - vm_compute in Hc. inversion Hc. simpl. tauto.
  - vm_compute in Hc. inversion Hc. simpl.
    intros l n [H | [H | []]]; inversion H; lia.
Defined.

(** C1 fails for the framework axis: [langgraph] and [crewai] tie at the top
    score 3 and [infer_framework] returns the first of them. *)
Lemma framework_tie_accepted :
  Framework.candidates agent_langgraph_crewai = Ok [("langgraph", 3); ("crewai", 3)]
  /\ infer_framework agent_langgraph_crewai = Ok (Some "langgraph").
Proof. split; vm_compute; reflexivity. Qed.

(** ** Weights and labels of the signals *)

Lemma pattern_signals_forall (P : string * Z -> Prop) (ic : bool)
  (table : list (string * string)) (text : string) (w : Z) :
  (forall row, In row table -> P (snd row, w)) ->
  Forall P (pattern_signals ic table text w).
Proof.
  intros H. unfold pattern_signals. apply Forall_flat_map, Forall_forall.
  intros [pattern label] Hrow.
  destruct (is_some _); [|constructor].
  repeat constructor. apply (H _ Hrow).
Qed.

Lemma tag_rule_signals_forall (P : string * Z -> Prop) (w : Z -> Z) (tags : list string) :
  (forall tag_set category min_matches m,
      In (tag_set, category, min_matches) TAG_CATEGORY_RULES -> 0 <= m ->
      P (category, w m)) ->
  Forall P (tag_rule_signals w tags).
Proof.
  intros H. unfold tag_rule_signals. apply Forall_flat_map, Forall_forall.
  intros [[tag_set category] min_matches] Hrow. cbv zeta.
  match goal with |- context [if ?b then _ else _] => destruct b end; [|constructor].
  repeat constructor. apply (H _ _ _ _ Hrow). unfold len. lia.
Qed.

Lemma keyword_signal_forall (P : string * Z -> Prop) (pattern combined category : string)
  (w : Z) :
  P (category, w) -> Forall P (keyword_signal pattern combined category w).
Proof.
  intros H. unfold keyword_signal. destruct (is_some _); repeat constructor. exact H.
Qed.

Lemma category_signals_forall (P : string * Z -> Prop) (a : Agent) :
  (forall tag_set category min_matches m,
      In (tag_set, category, min_matches) TAG_CATEGORY_RULES -> 0 <= m ->
      P (category, 3 * m) /\ P (category, 2)) ->
  (forall row, In row DESC_CATEGORY_PATTERNS -> P (snd row, 2)) ->
  (forall l, In l CATEGORY_LABELS -> P (l, 1)) ->
  P ("utility", 2) ->
  Forall P (category_signals a).
Proof.
  intros Htags Hdesc Hname Hutil. unfold category_signals. cbv zeta.
  apply Forall_app; split;
    [|apply Forall_app; split;
      [|apply Forall_app; split;
        [|apply Forall_app; split; [|apply Forall_app; split]]]].
  - apply tag_rule_signals_forall. intros. eapply Htags; eassumption.
  - apply pattern_signals_forall, Hdesc.
  - apply Forall_flat_map, Forall_forall. intros skill _.
    apply tag_rule_signals_forall. intros. eapply (Htags _ _ _ 0); [eassumption | lia].
  - repeat (apply Forall_app; split);
      apply keyword_signal_forall, Hname; simpl; tauto.
  - destruct (str_in _ _); repeat constructor. exact Hutil.
  - apply keyword_signal_forall, Hutil.
Qed.

Lemma category_signals_nonneg (a : Agent) :
  Forall (fun s => 0 <= snd s) (category_signals a).
Proof.
  apply category_signals_forall; cbn [snd]; intros; lia.
Qed.

Lemma category_signals_labels (a : Agent) :
  Forall (fun s => In (fst s) CATEGORY_LABELS) (category_signals a).
Proof.
  assert (Hrules : forallb (fun rule => str_in (snd (fst rule)) CATEGORY_LABELS)
                     TAG_CATEGORY_RULES = true) by (vm_compute; reflexivity).
  assert (Hdesc : forallb (fun row => str_in (snd row) CATEGORY_LABELS)
                    DESC_CATEGORY_PATTERNS = true) by (vm_compute; reflexivity).
  rewrite forallb_forall in Hrules, Hdesc.
  apply category_signals_forall.
  - intros tag_set category min_matches m Hrow _.
    specialize (Hrules _ Hrow). apply existsb_eqb_in in Hrules. tauto.
  - intros row Hrow. apply existsb_eqb_in, Hdesc, Hrow.
  - intros l Hl. exact Hl.
  - simpl. tauto.
Qed.

Lemma weight_flat_map_ge {A : Type} (f : A -> list (string * Z)) (l : string)
  (row : A) (table : list A) :
  (forall r, Forall (fun s => 0 <= snd s) (f r)) ->
  In row table -> weight l (f row) <= weight l (flat_map f table).
Proof.
  intros Hf. induction table as [|r table IH]; intros Hin; [contradiction|].
  simpl. rewrite weight_app.
  pose proof (weight_nonneg l (f r) (Hf r)) as Hr.
  assert (Htable : 0 <= weight l (flat_map f table)).
  { apply weight_nonneg, Forall_flat_map, Forall_forall. intros. apply Hf. }
  destruct Hin as [-> | Hin]; [lia | specialize (IH Hin); lia].
Qed.

Lemma inter_len_pos (x : string) (tags tag_set : list string) :
  In x tags -> str_in x tag_set = true -> 1 <= len (inter tags tag_set).
Proof.
  intros Hin Hset. unfold len, inter.
  assert (H : In x (filter (fun y => str_in y tag_set) tags))
    by (apply filter_In; split; assumption).
  destruct (filter (fun y => str_in y tag_set) tags); [contradiction | simpl; lia].
Qed.

Lemma lower_set_in (x : string) (tags : list string) :
  str_in x tags = true -> In (lower x) (Category.lower_set tags).
Proof.
  intros H. apply existsb_eqb_in in H.
  unfold Category.lower_set, set_of. apply nodup_In, in_map, H.
Qed.

(** A rule of [TAG_CATEGORY_RULES] that matches gives its weight. *)
Lemma tag_rule_signals_row (w : Z -> Z) (tags tag_set : list string)
  (category : string) (min_matches : Z) :
  (forall m, 0 <= m -> 0 <= w m) ->
  In (tag_set, category, min_matches) TAG_CATEGORY_RULES ->
  min_matches <= len (inter tags tag_set) ->
  w (len (inter tags tag_set)) <= weight category (tag_rule_signals w tags).
Proof.
  intros Hw Hrow Hmin. unfold tag_rule_signals.
  eapply Z.le_trans;
    [|apply (weight_flat_map_ge _ category (tag_set, category, min_matches));
      [|exact Hrow]].
  - cbv beta iota zeta. apply Z.leb_le in Hmin. rewrite Hmin.
    simpl weight. rewrite String.eqb_refl. lia.
  - intros [[ts cat] mn]. cbv zeta.
    match goal with |- context [if ?b then _ else _] => destruct b end;
      repeat constructor. cbn [snd]. apply Hw. unfold len. lia.
Qed.

(** A business agent of Lifie has a tag of the rule for [enterprise]. *)
Lemma lifie_enterprise_weight (a : Agent) :
  is_lifie_business_agent a = true -> 3 <= weight "enterprise" (category_signals a).
Proof.
  unfold is_lifie_business_agent. cbv zeta. intros H.
  apply andb_true_iff in H. destruct H as [_ H].
  assert (Hm : 1 <= len (inter (Category.lower_set (get (tags a) []))
                           ["business"; "commerce"])).
  { apply orb_true_iff in H. destruct H as [H | H]; apply lower_set_in in H.
    - apply (inter_len_pos _ _ _ H). reflexivity.
    - apply (inter_len_pos _ _ _ H). reflexivity. }
  pose proof (category_signals_nonneg a) as Hn.
  unfold category_signals in *. cbv zeta in *. rewrite weight_app.
  apply Forall_app in Hn. destruct Hn as [_ Hn].
  apply (weight_nonneg "enterprise") in Hn.
  pose proof (tag_rule_signals_row (fun matches => 3 * matches)
                (Category.lower_set (get (tags a) []))
                ["business"; "commerce"] "enterprise" 1) as Hrow.
  cbv beta in Hrow.
  assert (Hin : In (["business"; "commerce"], "enterprise", 1) TAG_CATEGORY_RULES)
    by (left; reflexivity).
  specialize (Hrow ltac:(intros; lia) Hin Hm). lia.
Qed.

(** C3: if every score of the tally is below 2, and so also when the tally
    is empty, each of the three inferences returns [None]; a lone signal of
    weight 1 is not enough on any axis. *)
Theorem floor_rejects_weak_tally (a : Agent) :
  (exists c, Language.candidates a = Ok c
             /\ ((forall l n, In (l, n) c -> n < 2) -> infer_language a = Ok None))
  /\ (exists c, Category.candidates a = Ok c
                /\ ((forall l n, In (l, n) c -> n < 2) -> infer_category a = Ok None))
  /\ (exists c, Framework.candidates a = Ok c
                /\ ((forall l n, In (l, n) c -> n < 2) -> infer_framework a = Ok None)).
Proof.
  split; [|split].
  - destruct (language_candidates_total a) as [c Hc]. exists c.
    split; [assumption|]. intros Hweak.
    unfold infer_language. rewrite Hc. cbn [bind].
    destruct (empty c) eqn:Hne; [unfold Language.decide; rewrite Hne; reflexivity|].
    destruct (most_common_top c Hne) as [[l n] [Hmc [Hin _]]].
    rewrite (language_decide_top c _ Hmc). simpl.
    replace (n <? 2) with true by (symmetry; apply Z.ltb_lt; eauto). reflexivity.
  - exists (bumps (category_signals a) []).
    split; [apply category_candidates_signals|]. intros Hweak.
    unfold infer_category. destruct (is_lifie_business_agent a) eqn:Hlifie.
    + exfalso. apply lifie_enterprise_weight in Hlifie.
      pose proof (counter_get_bumps (category_signals a) [] "enterprise") as Hget.
      simpl counter_get in Hget at 2.
      specialize (Hweak "enterprise"
                    (counter_get (bumps (category_signals a) []) "enterprise")).
      assert (counter_get (bumps (category_signals a) []) "enterprise" < 2)
        by (apply Hweak, counter_get_nonzero; lia).
      lia.
    + rewrite category_candidates_signals. cbn [bind].
      destruct (empty (bumps (category_signals a) [])) eqn:Hne;
        [unfold Category.decide; rewrite Hne; reflexivity|].
      destruct (most_common_top _ Hne) as [[l n] [Hmc [Hin _]]].
      rewrite (category_decide_top _ _ Hmc). simpl.
      replace (n <? 2) with true by (symmetry; apply Z.ltb_lt; eauto). reflexivity.
  - exists (bumps (framework_signals a) []).
    split; [apply framework_candidates_signals|]. intros Hweak.
    unfold infer_framework. rewrite framework_candidates_signals. cbn [bind].
    destruct (empty (bumps (framework_signals a) [])) eqn:Hne;
      [unfold Framework.decide; rewrite Hne; reflexivity|].
    destruct (most_common_top _ Hne) as [[l n] [Hmc [Hin _]]].
    rewrite (framework_decide_top _ _ _ Hmc). simpl.
    replace (n <? 2) with true by (symmetry; apply Z.ltb_lt; eauto). reflexivity.
Qed.

Lemma floor_rejects_weak_tally_witness :
  Language.candidates agent_weak = Ok [("python", 1)]
  /\ Category.candidates agent_weak = Ok [("search", 1)]
  /\ Framework.candidates agent_weak = Ok []
  /\ infer_language agent_weak = Ok None
  /\ infer_category agent_weak = Ok None
  /\ infer_framework agent_weak = Ok None.
Proof.
  split; [vm_compute; reflexivity|].
  split; [vm_compute; reflexivity|].
  split; [vm_compute; reflexivity|].
  destruct (floor_rejects_weak_tally agent_weak)
    as [[c1 [H1 Hlang]] [[c2 [H2 Hcat]] [c3 [H3 Hfw]]]].
  vm_compute in H1, H2, H3. inversion H1. inversion H2. inversion H3. subst.
  split; [|split].
  - apply Hlang. intros l n [H | []]. inversion H. lia.
  - apply Hcat. intros l n [H | []]. inversion H. lia.
  - apply Hfw. intros l n [].
Defined.

(** ** The labels of the category axis *)

(** C10: a label that [infer_category] returns is one of the twelve labels of
    [CATEGORY_LABELS]; it is never [multi-agent], which the declared set
    [VALID_CATEGORIES] adds to the twelve, and the rules whose tags name
    multi-agent systems give [orchestration]. *)
Theorem infer_category_labels :
  (forall (a : Agent) (l : string),
      infer_category a = Ok (Some l) -> In l CATEGORY_LABELS /\ l <> "multi-agent")
  /\ List.length CATEGORY_LABELS = 12%nat
  /\ VALID_CATEGORIES = CATEGORY_LABELS ++ ["multi-agent"]
  /\ (forall tag_set category min_matches,
         In (tag_set, category, min_matches) TAG_CATEGORY_RULES ->
         In "multi-agent" tag_set \/ In "multi-agent-systems" tag_set ->
         category = "orchestration").
Proof.
  split; [|split; [reflexivity | split; [reflexivity|]]].
  - assert (Hlabels : forall l, In l CATEGORY_LABELS ->
                                In l CATEGORY_LABELS /\ l <> "multi-agent").
    { intros l Hl. split; [assumption|]. intros ->.
      apply existsb_eqb_in in Hl. vm_compute in Hl. discriminate. }
    intros a l H. apply Hlabels. unfold infer_category in H.
    destruct (is_lifie_business_agent a).
    + inversion H. simpl. tauto.
    + rewrite category_candidates_signals in H. cbn [bind] in H.
      destruct (empty (bumps (category_signals a) [])) eqn:Hne;
        [unfold Category.decide in H; rewrite Hne in H; discriminate|].
      destruct (most_common_top _ Hne) as [top [Hmc [Hin _]]].
      rewrite (category_decide_top _ _ Hmc) in H.
      destruct (snd top <? 2); [discriminate|]. inversion H; subst l.
      apply (in_map fst) in Hin. apply keys_bumps_in in Hin.
      destruct Hin as [[] | Hin].
      apply in_map_iff in Hin. destruct Hin as [s [<- Hs]].
      pose proof (category_signals_labels a) as Hall.
      rewrite Forall_forall in Hall. apply Hall, Hs.
  - assert (Hrules : forallb
                       (fun rule =>
                          implb (str_in "multi-agent" (fst (fst rule))
                                 || str_in "multi-agent-systems" (fst (fst rule)))
                            (String.eqb (snd (fst rule)) "orchestration"))
                       TAG_CATEGORY_RULES = true) by (vm_compute; reflexivity).
    rewrite forallb_forall in Hrules.
    intros tag_set category min_matches Hrow Htag.
    specialize (Hrules _ Hrow). simpl in Hrules.
    replace (str_in "multi-agent" tag_set || str_in "multi-agent-systems" tag_set)
      with true in Hrules.
    + apply String.eqb_eq, Hrules.
    + symmetry. apply orb_true_iff.
      destruct Htag as [Htag | Htag]; [left | right]; apply existsb_eqb_in, Htag.
Qed.

Lemma infer_category_labels_witness :
  infer_category agent_multi_agent = Ok (Some "orchestration")
  /\ In "orchestration" CATEGORY_LABELS /\ "orchestration" <> "multi-agent".
Proof.
  split; [vm_compute; reflexivity|].
  apply (proj1 infer_category_labels agent_multi_agent). vm_compute. reflexivity.
Defined.

(** ** The special case of the category axis *)

(** C4 (amended): when the name of the provider contains [Lifie] or the URL
    of the provider contains [lifie], in these very cases, and the tags
    include [business] or [commerce], [infer_category] returns [enterprise]
    without any scoring, whatever the rest of the agent says. *)
Theorem lifie_business_is_enterprise (a : Agent) (p : Provider) :
  provider a = Some p ->
  contains "Lifie" (get (provider_name p) "") = true
  \/ contains "lifie" (get (provider_url p) "") = true ->
  In "business" (get (tags a) []) \/ In "commerce" (get (tags a) []) ->
  infer_category a = Ok (Some "enterprise").
Proof.
  intros Hp Hmark Htag. unfold infer_category, is_lifie_business_agent.
  rewrite Hp. cbv zeta. cbn [get].
  replace (contains "Lifie" (get (provider_name p) "")
           || contains "lifie" (get (provider_url p) "")) with true
    by (symmetry; apply orb_true_iff; exact Hmark).
  replace (str_in "business" (get (tags a) []) || str_in "commerce" (get (tags a) []))
    with true; [reflexivity|].
  symmetry. apply orb_true_iff.
  destruct Htag as [Htag | Htag]; [left | right]; apply existsb_eqb_in, Htag.
Qed.

Lemma lifie_business_is_enterprise_witness :
  infer_category agent_lifie = Ok (Some "enterprise").
Proof.
  apply (lifie_business_is_enterprise agent_lifie
           {| provider_name := Some "Lifie AI"; provider_url := None |}).
  - reflexivity.
  - left. vm_compute. reflexivity.
  - left. simpl. tauto.
Defined.

(** C4 fails as stated: the name [LIFIE AI] contains the marker up to case,
    the tags include [business], and [infer_category] scores the agent and
    returns [finance]. *)
Lemma lifie_marker_is_case_sensitive :
  contains (lower "Lifie") (lower "LIFIE AI") = true
  /\ In "business" (get (tags agent_lifie_upper) [])
  /\ Category.candidates agent_lifie_upper
     = Ok [("enterprise", 3); ("finance", 9); ("search", 3)]
  /\ infer_category agent_lifie_upper = Ok (Some "finance").
Proof.
  split; [vm_compute; reflexivity|].
  split; [simpl; tauto|].
  split; vm_compute; reflexivity.
Qed.

(** ** The framework axis *)

Lemma framework_tag_signals_app (ts1 ts2 : list string) :
  framework_tag_signals (ts1 ++ ts2)
  = framework_tag_signals ts1 ++ framework_tag_signals ts2.
Proof. unfold framework_tag_signals. apply flat_map_app. Qed.

Lemma framework_tag_signals_adk (t : string) :
  str_in (lower t) ADK_TAGS = true -> framework_tag_signals [t] = [("google-adk", 3)].
Proof.
  intros H. apply existsb_eqb_in in H. unfold framework_tag_signals. simpl flat_map.
  simpl in H. destruct H as [<- | [<- | [<- | [<- | []]]]]; reflexivity.
Qed.

Lemma framework_tag_signals_nonneg (tags : list string) :
  Forall (fun s => 0 <= snd s) (framework_tag_signals tags).
Proof.
  unfold framework_tag_signals. apply Forall_flat_map, Forall_forall. intros t _.
  destruct (dict_get TAG_TO_FRAMEWORK (lower t)); repeat constructor. simpl. lia.
Qed.

Lemma pattern_signals_nonneg (ic : bool) (table : list (string * string))
  (text : string) (w : Z) :
  0 <= w -> Forall (fun s => 0 <= snd s) (pattern_signals ic table text w).
Proof. intros Hw. apply pattern_signals_forall. intros. exact Hw. Qed.

Lemma framework_official_signals_nonneg (desc : string) :
  Forall (fun s => 0 <= snd s) (framework_official_signals desc).
Proof.
  unfold framework_official_signals. destruct (contains _ _); [|constructor].
  apply pattern_signals_nonneg. lia.
Qed.

Lemma weight_single (l k : string) (w : Z) :
  weight l [(k, w)] = if String.eqb k l then w else 0.
Proof. simpl. destruct (String.eqb k l); lia. Qed.

Lemma framework_tally_count (a : Agent) (l : string) :
  counter_get (bumps (framework_signals a) []) l = weight l (framework_signals a).
Proof. rewrite counter_get_bumps. reflexivity. Qed.

(** A tag of [ADK_TAGS] gives [google-adk] a score of 3 at least. *)
Lemma adk_tag_weight (a : Agent) :
  Framework.has_adk_tag (get (tags a) []) = true ->
  3 <= weight "google-adk" (framework_signals a).
Proof.
  unfold Framework.has_adk_tag. intros H.
  apply existsb_exists in H. destruct H as [t [Hin Ht]].
  apply in_split in Hin. destruct Hin as [ts1 [ts2 Hts]].
  unfold framework_signals. rewrite Hts.
  change (t :: ts2) with ([t] ++ ts2).
  rewrite !framework_tag_signals_app, (framework_tag_signals_adk t Ht).
  pose proof (weight_nonneg "google-adk" _ (framework_tag_signals_nonneg ts1)).
  pose proof (weight_nonneg "google-adk" _ (framework_tag_signals_nonneg ts2)).
  pose proof (weight_nonneg "google-adk" _
                (pattern_signals_nonneg true FRAMEWORK_DETECTION
                   (Framework.all_text a) 2 ltac:(lia))).
  pose proof (weight_nonneg "google-adk" _
                (framework_official_signals_nonneg (get (description a) ""))).
  rewrite !weight_app, weight_single, String.eqb_refl. lia.
Qed.

(** C5: when [google-adk] leads the tally of the framework axis with a score
    from 2 to below 3, [infer_framework] returns [None] unless a tag, in
    lower case, is one of [adk], [adk-google], [adk-python] and [google-adk];
    no tag is one of them then, since such a tag alone scores 3; and the same
    agent with one such tag more, anywhere among its tags, gets
    [google-adk]. *)
Theorem weak_google_adk_needs_a_tag (a : Agent) (c : Counter) (s : Z) :
  Framework.candidates a = Ok c ->
  most_common 1 c = [("google-adk", s)] ->
  2 <= s < 3 ->
  (Framework.has_adk_tag (get (tags a) []) = false -> infer_framework a = Ok None)
  /\ Framework.has_adk_tag (get (tags a) []) = false
  /\ forall (ts1 ts2 : list string) (t : string),
      get (tags a) [] = ts1 ++ ts2 ->
      str_in (lower t) ADK_TAGS = true ->
      infer_framework (set_tags a (ts1 ++ t :: ts2)) = Ok (Some "google-adk").
Proof.
  intros Hc Hmc Hs.
  rewrite framework_candidates_signals in Hc. inversion Hc as [Hc']. clear Hc.
  pose proof (bumps_nil_nodup (framework_signals a)) as Hnd. rewrite Hc' in Hnd.
  destruct (most_common_bound c _ _ Hnd Hmc ltac:(lia)) as [Hadk Hmax].
  split; [|split].
  - intros Htag. unfold infer_framework.
    rewrite framework_candidates_signals, Hc'. cbn [bind].
    rewrite (framework_decide_top _ _ _ Hmc). cbn [fst snd]. rewrite Htag.
    replace (s <? 2) with false by (symmetry; apply Z.ltb_ge; lia).
    replace (s <? 3) with true by (symmetry; apply Z.ltb_lt; lia).
    reflexivity.
  - destruct (Framework.has_adk_tag (get (tags a) [])) eqn:Htag; [|reflexivity].
    apply adk_tag_weight in Htag.
    rewrite <- Hc', framework_tally_count in Hadk. lia.
  - intros ts1 ts2 t Hts Ht. unfold infer_framework.
    rewrite framework_candidates_signals. cbn [bind].
    assert (Hcount : forall l,
               counter_get (bumps (framework_signals (set_tags a (ts1 ++ t :: ts2))) []) l
               = counter_get c l + (if String.eqb "google-adk" l then 3 else 0)).
    { intros l. rewrite <- Hc', !framework_tally_count.
      unfold framework_signals. rewrite Hts.
      change (get (tags (set_tags a (ts1 ++ t :: ts2))) []) with (ts1 ++ [t] ++ ts2).
      change (Framework.all_text (set_tags a (ts1 ++ t :: ts2)))
        with (Framework.all_text a).
      change (description (set_tags a (ts1 ++ t :: ts2))) with (description a).
      rewrite !framework_tag_signals_app, (framework_tag_signals_adk t Ht).
      rewrite !weight_app, weight_single. lia. }
    rewrite (framework_decide_top _ _ ("google-adk", s + 3)).
    + cbn [fst snd].
      replace (s + 3 <? 2) with false by (symmetry; apply Z.ltb_ge; lia).
      replace (s + 3 <? 3) with false by (symmetry; apply Z.ltb_ge; lia).
      rewrite andb_false_r. reflexivity.
    + apply most_common_winner.
      * apply bumps_nil_nodup.
      * rewrite Hcount, Hadk, String.eqb_refl. reflexivity.
      * lia.
      * intros l' Hne. rewrite Hcount.
        destruct (String.eqb_spec "google-adk" l'); [congruence|].
        specialize (Hmax l'). lia.
Qed.

Lemma weak_google_adk_needs_a_tag_witness :
  infer_framework agent_adk = Ok None
  /\ infer_framework (set_tags agent_adk ["google-adk"]) = Ok (Some "google-adk").
Proof.
  assert (Hc : Framework.candidates agent_adk = Ok [("google-adk", 2)])
    by (vm_compute; reflexivity).
  assert (Hmc : most_common 1 [("google-adk", 2)] = [("google-adk", 2)])
    by reflexivity.
  destruct (weak_google_adk_needs_a_tag agent_adk _ 2 Hc Hmc ltac:(lia))
    as [Hnone [Htag Hsome]].
  split.
  - apply Hnone. reflexivity.
  - apply (Hsome [] [] "google-adk"); reflexivity.
Defined.

Lemma weight_pattern_signals_le (l : string) (ic : bool)
  (table : list (string * string)) (text : string) (w : Z) :
  0 <= w -> weight l (pattern_signals ic table text w) <= w * rows_of l table.
Proof.
  intros Hw. unfold pattern_signals.
  induction table as [|[pattern label] table IH]; [simpl; lia|].
  cbn [flat_map rows_of snd]. rewrite weight_app.
  destruct (is_some _); cbn [weight]; destruct (String.eqb label l); lia.
Qed.

(** No framework has more than four patterns in [FRAMEWORK_DETECTION]. *)
Lemma framework_rows_le (l : string) : rows_of l FRAMEWORK_DETECTION <= 4.
Proof.
  unfold FRAMEWORK_DETECTION. cbn [rows_of snd].
  repeat match goal with
         | |- context [String.eqb ?k l] =>
             destruct (String.eqb_spec k l) as [<-|?];
             [apply Z.leb_le; vm_compute; reflexivity|]
         end.
  apply Z.leb_le. vm_compute. reflexivity.
Qed.

(** *** The text after the last colon *)

(** A text with a separator ends in a part without separator. *)
Lemma last_occurrence (sep : ascii) (s : string) :
  contains (String sep "") s = true ->
  exists x t, s = (x ++ String sep t)%string /\ contains (String sep "") t = false.
Proof.
  induction s as [|c s IH]; [discriminate|].
  intros H. destruct (contains (String sep "") s) eqn:Hs.
  - destruct (IH eq_refl) as [x [t [-> Ht]]]. exists (String c x), t. auto.
  - exists "", s. split; [|assumption].
    simpl in H. rewrite Hs, orb_false_r in H.
    destruct (ascii_dec sep c) as [->|]; [reflexivity | discriminate].
Qed.

Lemma lstrip_parts (p : ascii -> bool) (s : string) :
  exists ws, s = (ws ++ lstrip p s)%string /\ all_chars p ws = true.
Proof.
  induction s as [|c s [ws [IH Hws]]]; [exists ""; auto|].
  simpl. destruct (p c) eqn:Hc.
  - exists (String c ws). simpl. rewrite Hc, Hws, <- IH. auto.
  - exists "". auto.
Qed.

Lemma rstrip_parts (p : ascii -> bool) (s : string) :
  exists ws, s = (rstrip p s ++ ws)%string /\ all_chars p ws = true.
Proof.
  induction s as [|c s [ws [IH Hws]]]; [exists ""; auto|].
  simpl. destruct (rstrip p s) as [|d r].
  - simpl in IH. subst s. destruct (p c) eqn:Hc.
    + exists (String c ws). simpl. rewrite Hc, Hws. auto.
    + exists ws. auto.
  - exists ws. simpl. rewrite IH at 1. auto.
Qed.

Lemma strip_parts (s : string) :
  exists ws1 ws2,
    s = (ws1 ++ strip s ++ ws2)%string
    /\ all_chars is_space ws1 = true /\ all_chars is_space ws2 = true.
Proof.
  unfold strip. destruct (rstrip_parts is_space s) as [ws2 [Hr H2]].
  destruct (lstrip_parts is_space (rstrip is_space s)) as [ws1 [Hl H1]].
  exists ws1, ws2. split; [|auto].
  rewrite <- append_assoc, <- Hl. exact Hr.
Qed.

(** *** The pattern [\bcrewai\b] *)

Lemma lower_char_inv (c d : ascii) :
  lower_char c = d -> c = d \/ c = ascii_of_nat (code d - 32).
Proof.
  unfold lower_char. destruct (is_upper c) eqn:Hu; [|auto].
  intros <-. right. unfold is_upper, between, code in *.
  apply andb_true_iff in Hu. destruct Hu as [_ Hu]. apply Nat.leb_le in Hu.
  rewrite nat_ascii_embedding by lia.
  replace (nat_of_ascii c + 32 - 32)%nat with (nat_of_ascii c) by lia.
  symmetry. apply ascii_nat_embedding.
Qed.

Lemma space_not_word (c : ascii) : is_space c = true -> is_word c = false.
Proof.
  destruct c as [[] [] [] [] [] [] [] []]; vm_compute; intros H;
    try reflexivity; discriminate H.
Qed.

Lemma last_char_append (p : option ascii) (x y : string) :
  last_char p (x ++ y) = last_char (last_char p x) y.
Proof.
  revert p. induction x as [|c x IH]; intros p; simpl; [reflexivity | apply IH].
Qed.

Lemma last_char_spaces (p : option ascii) (ws : string) :
  all_chars is_space ws = true -> word_opt p = false ->
  word_opt (last_char p ws) = false.
Proof.
  revert p. induction ws as [|c ws IH]; intros p Hws Hp; simpl in *; [assumption|].
  apply andb_true_iff in Hws. destruct Hws as [Hc Hws].
  apply IH; [assumption | apply space_not_word, Hc].
Qed.

Lemma next_spaces (ws rest : string) :
  all_chars is_space ws = true -> word_opt (next rest) = false ->
  word_opt (next (ws ++ rest)) = false.
Proof.
  destruct ws as [|c ws]; simpl; intros Hws Hrest; [assumption|].
  apply andb_true_iff in Hws. apply space_not_word. tauto.
Qed.

(** The pattern matches the word [crewai], in any case, between two
    characters that are not of a word. *)
Lemma crewai_matches (p : option ascii) (x y : string) :
  lower x = "crewai" -> word_opt p = false -> word_opt (next y) = false ->
  is_some (rmatch true (rx "\bcrewai\b") Some (MState p (x ++ y) None)) = true.
Proof.
  intros Hx Hp Hy.
  let r := eval vm_compute in (rx "\bcrewai\b") in change (rx "\bcrewai\b") with r.
  destruct x as [|c1 [|c2 [|c3 [|c4 [|c5 [|c6 [|c7 x]]]]]]]; try discriminate.
  simpl in Hx. injection Hx as H1 H2 H3 H4 H5 H6.
  apply lower_char_inv in H1, H2, H3, H4, H5, H6.
  destruct H1 as [-> | ->], H2 as [-> | ->], H3 as [-> | ->], H4 as [-> | ->],
    H5 as [-> | ->], H6 as [-> | ->];
    cbn [rmatch step rest prev group1 append]; rewrite Hp, Hy; reflexivity.
Qed.

(** The pattern [\bcrewai\b] matches the text of an agent whose description
    names Crewai after its last colon. *)
Lemma crewai_in_all_text (a : Agent) (desc : string) :
  description a = Some desc ->
  sample_text desc = "crewai" ->
  is_some (search_from true (rx "\bcrewai\b") None (Framework.all_text a)) = true.
Proof.
  intros Hd Hsample. unfold sample_text in Hsample.
  destruct (contains ":" desc) eqn:Hcolon; [|discriminate].
  destruct (last_occurrence ":" desc Hcolon) as [pre [t [-> Ht]]].
  rewrite (split_last ":" pre t Ht) in Hsample.
  destruct (strip_parts t) as [ws1 [ws2 [Hparts [Hws1 Hws2]]]].
  unfold Framework.all_text. rewrite Hd. cbn [get]. rewrite Hparts.
  replace (get (name a) "" ++ " " ++ get (slug a) "" ++ " "
           ++ (pre ++ String ":" (ws1 ++ strip t ++ ws2)) ++ " "
           ++ get (repository a) "")%string
    with (((get (name a) "" ++ " " ++ get (slug a) "" ++ " " ++ pre) ++ ":" ++ ws1)
          ++ (strip t ++ (ws2 ++ " " ++ get (repository a) "")))%string
    by (repeat first [rewrite append_assoc | progress cbn [append]]; reflexivity).
  apply search_from_app, crewai_matches.
  - exact Hsample.
  - rewrite last_char_append. cbn [append last_char].
    apply last_char_spaces; [exact Hws1 | reflexivity].
  - apply next_spaces; [exact Hws2 | reflexivity].
Qed.

(** C7 (amended): when the description begins with [Official A2A] and its
    text after the last colon is Crewai, up to case and to the white space
    around it, and no tag of the agent names another framework,
    [infer_framework] returns [crewai], whatever keywords of other frameworks
    the name, the slug, the description and the repository contain: the
    sample gives [crewai] 8 and its own keyword 2 more, and the keywords give
    no other framework more than 8. *)
Theorem official_crewai_sample (a : Agent) (desc : string) :
  description a = Some desc ->
  startswith desc "Official A2A" = true ->
  Framework.sample_name desc = Ok "crewai" ->
  (forall t fw, In t (get (tags a) []) ->
                dict_get TAG_TO_FRAMEWORK (lower t) = Some fw -> fw = "crewai") ->
  infer_framework a = Ok (Some "crewai").
Proof.
  intros Hd Hstart Hsample Htags.
  rewrite sample_name_text in Hsample. injection Hsample as Hsample.
  assert (Hofficial : framework_official_signals desc
                      = [("crewai", 4); ("crewai", 4)]).
  { unfold framework_official_signals.
    rewrite (contains_prefix _ _ Hstart), Hsample.
    vm_compute. reflexivity. }
  assert (Htext : 2 <= weight "crewai"
                         (pattern_signals true FRAMEWORK_DETECTION
                            (Framework.all_text a) 2)).
  { unfold pattern_signals.
    eapply Z.le_trans;
      [|apply (weight_flat_map_ge _ "crewai" ("\bcrewai\b", "crewai"))].
    - cbv beta iota. rewrite (crewai_in_all_text a desc Hd Hsample). reflexivity.
    - intros [pattern label]. destruct (is_some _); repeat constructor. simpl. lia.
    - unfold FRAMEWORK_DETECTION. simpl. tauto. }
  assert (Hother : forall l, l <> "crewai" -> weight l (framework_signals a) <= 8).
  { intros l Hl. unfold framework_signals. rewrite Hd. cbn [get].
    rewrite Hofficial, !weight_app.
    assert (Ht : weight l (framework_tag_signals (get (tags a) [])) = 0).
    { apply weight_other. unfold framework_tag_signals.
      apply Forall_flat_map, Forall_forall. intros t Hin.
      destruct (dict_get TAG_TO_FRAMEWORK (lower t)) as [fw|] eqn:E; [|constructor].
      repeat constructor. simpl. rewrite (Htags t fw Hin E). congruence. }
    assert (Ho : weight l [("crewai", 4); ("crewai", 4)] = 0).
    { apply weight_other. repeat constructor; simpl; congruence. }
    pose proof (weight_pattern_signals_le l true FRAMEWORK_DETECTION
                  (Framework.all_text a) 2 ltac:(lia)) as Hp.
    pose proof (framework_rows_le l). lia. }
  assert (Hcrewai : 10 <= weight "crewai" (framework_signals a)).
  { unfold framework_signals. rewrite Hd. cbn [get].
    rewrite Hofficial, !weight_app.
    pose proof (weight_nonneg "crewai" _
                  (framework_tag_signals_nonneg (get (tags a) []))).
    change (weight "crewai" [("crewai", 4); ("crewai", 4)]) with 8. lia. }
  unfold infer_framework. rewrite framework_candidates_signals. cbn [bind].
  rewrite (framework_decide_top _ _
             ("crewai", weight "crewai" (framework_signals a))).
  - cbn [fst snd].
    replace (weight "crewai" (framework_signals a) <? 2) with false
      by (symmetry; apply Z.ltb_ge; lia).
    reflexivity.
  - apply most_common_winner.
    + apply bumps_nil_nodup.
    + apply framework_tally_count.
    + lia.
    + intros l' Hne. rewrite framework_tally_count. specialize (Hother l' Hne). lia.
Qed.

Lemma official_crewai_sample_witness :
  infer_framework agent_crewai_sample = Ok (Some "crewai").
Proof.
  apply (official_crewai_sample agent_crewai_sample
           "Official A2A sample with LangGraph and AutoGen: Crewai").
  - reflexivity.
  - reflexivity.
  - vm_compute. reflexivity.
  - intros t fw [].
Defined.

(** C7 fails as stated: the description begins with [Official A2A] and names
    Crewai after its last colon, and five tags of Spring give [spring-boot]
    15 against the 12 of [crewai]. *)
Lemma official_crewai_sample_outweighed :
  startswith (get (description agent_crewai_spring) "") "Official A2A" = true
  /\ Framework.sample_name (get (description agent_crewai_spring) "") = Ok "crewai"
  /\ Framework.candidates agent_crewai_spring = Ok [("spring-boot", 15); ("crewai", 12)]
  /\ infer_framework agent_crewai_spring = Ok (Some "spring-boot").
Proof. repeat split; vm_compute; reflexivity. Qed.

(** ** The rule of the official samples *)

(** C6 (amended): the rule of the official samples adds to the tally of the
    language only if the description begins with [Official A2A], and to the
    tally of the framework only if the description contains [Official A2A],
    at any place. *)
Theorem official_sample_rules_need_the_marker (a : Agent) (c : Counter) :
  (startswith (get (description a) "") "Official A2A" = false ->
   Language.rule_official a c = Ok c)
  /\ (contains "Official A2A" (get (description a) "") = false ->
      Framework.rule_official (get (description a) "") c = Ok c).
Proof.
  split; intros H.
  - unfold Language.rule_official. cbv zeta. rewrite H. reflexivity.
  - unfold Framework.rule_official. rewrite H. reflexivity.
Qed.

Lemma official_sample_rules_need_the_marker_witness :
  Language.rule_official agent_marker_inside [] = Ok []
  /\ Framework.rule_official (get (description agent_adk) "") [] = Ok [].
Proof.
  split.
  - apply (proj1 (official_sample_rules_need_the_marker agent_marker_inside [])).
    vm_compute. reflexivity.
  - apply (proj2 (official_sample_rules_need_the_marker agent_adk [])).
    vm_compute. reflexivity.
Defined.

(** C6 fails for the framework axis: the description does not begin with
    the marker, which it has further on, and the rule adds 8 to [crewai]. *)
Lemma framework_marker_inside_counts :
  startswith (get (description agent_marker_inside) "") "Official A2A" = false
  /\ Framework.rule_official (get (description agent_marker_inside) "") []
     = Ok [("crewai", 8)].
Proof. split; vm_compute; reflexivity. Qed.

(** ** The end-to-end scenario *)

(** C8: an agent whose tags are [python] and [fastapi], whose language is
    [unknown] and whose other fields give no signal has the tally
    [python: 6], [infer_language] returns [python], and the driver sets its
    language to [python]. *)
Theorem python_fastapi_is_python (a : Agent) :
  tags a = Some ["python"; "fastapi"] \/ tags a = Some ["fastapi"; "python"] ->
  language a = Some "unknown" ->
  dict_get FRAMEWORK_TO_LANGUAGE (get (framework a) "") = None ->
  repository a = None -> slug a = None -> name a = None ->
  description a = None -> sdks a = None ->
  Language.candidates a = Ok [("python", 6)]
  /\ infer_language a = Ok (Some "python")
  /\ exists t,
      enrich_language {| agent := a; modified := false; file_changes := [];
                         stats := initial_stats |} = Ok t
      /\ language (agent t) = Some "python".
Proof.
  intros Htags Hlang Hfw Hrepo Hslug Hname Hdesc Hsdks.
  assert (Hc : Language.candidates a = Ok [("python", 6)]).
  { unfold Language.candidates, Language.rule_framework, dict_in. cbv zeta.
    rewrite Hfw. cbn [is_some bind].
    unfold Language.rule_tags, Language.rule_repo, Language.rule_name,
      Language.rule_description, Language.rule_official, Language.rule_sdks.
    rewrite Hrepo, Hslug, Hname, Hdesc, Hsdks.
    destruct Htags as [-> | ->]; vm_compute; reflexivity. }
  assert (Hinfer : infer_language a = Ok (Some "python")).
  { unfold infer_language. rewrite Hc. reflexivity. }
  split; [exact Hc | split; [exact Hinfer|]].
  unfold enrich_language. cbn [agent]. rewrite Hinfer, Hlang.
  eexists. split; reflexivity.
Qed.

Lemma python_fastapi_is_python_witness :
  infer_language agent_python_fastapi = Ok (Some "python").
Proof.
  apply (python_fastapi_is_python agent_python_fastapi); try reflexivity.
  left. reflexivity.
Defined.

(** ** Records with and without null fields *)



















(** ** Absent fields, null fields and the shape of the repository *)




(** A null name is formatted as [None] in the texts of [infer_language] and
    [infer_framework], and [infer_category] calls [lower] on it. *)
Example null_name_raises_in_category :
  raw_infer_language raw_null_name = Ok None
  /\ raw_infer_category raw_null_name = Raise AttributeError
  /\ raw_infer_framework raw_null_name = Ok None
  /\ RawFramework.all_text raw_null_name = "None   ".
Proof. repeat split; vm_compute; reflexivity. Qed.

(** ** The driver *)

(** Each step of the driver returns; it leaves the fields that the later
    inferences read and all that belongs to the two other axes; it does
    nothing on an axis that does not hold its sentinel, and it leaves the
    agent when the inference returns [None]. *)
Lemma enrich_language_step (t : Turn) :
  exists t',
    enrich_language t = Ok t'
    /\ same_inputs (agent t) (agent t')
    /\ category (agent t') = category (agent t)
    /\ framework (agent t') = framework (agent t)
    /\ category_stats (stats t') = category_stats (stats t)
    /\ framework_stats (stats t') = framework_stats (stats t)
    /\ (field_is (language (agent t)) "unknown" = false -> t' = t)
    /\ (infer_language (agent t) = Ok None ->
        agent t' = agent t /\ modified t' = modified t
        /\ file_changes t' = file_changes t).
Proof.
  unfold enrich_language.
  destruct (field_is (language (agent t)) "unknown") eqn:Hsentinel.
  - destruct (infer_language_total (agent t)) as [r Hr]. rewrite Hr. cbn [bind].
    destruct (accepted r) as [new|] eqn:Hnew.
    + destruct (language (agent t)) as [old|]; [|discriminate]. cbn [field bind].
      eexists. split; [reflexivity|]. cbn [agent stats modified file_changes].
      repeat split; try congruence;
        assert (r = None) by congruence; subst r; discriminate.
    + eexists. split; [reflexivity|]. cbn [agent stats modified file_changes].
      repeat split; congruence.
  - exists t. repeat split.
Qed.

Lemma enrich_category_step (t : Turn) :
  exists t',
    enrich_category t = Ok t'
    /\ same_inputs (agent t) (agent t')
    /\ language (agent t') = language (agent t)
    /\ framework (agent t') = framework (agent t)
    /\ language_stats (stats t') = language_stats (stats t)
    /\ framework_stats (stats t') = framework_stats (stats t)
    /\ (field_is (category (agent t)) "general" = false -> t' = t)
    /\ (infer_category (agent t) = Ok None ->
        agent t' = agent t /\ modified t' = modified t
        /\ file_changes t' = file_changes t).
Proof.
  unfold enrich_category.
  destruct (field_is (category (agent t)) "general") eqn:Hsentinel.
  - destruct (infer_category_total (agent t)) as [r Hr]. rewrite Hr. cbn [bind].
    destruct (accepted r) as [new|] eqn:Hnew.
    + destruct (category (agent t)) as [old|]; [|discriminate]. cbn [field bind].
      eexists. split; [reflexivity|]. cbn [agent stats modified file_changes].
      repeat split; try congruence;
        assert (r = None) by congruence; subst r; discriminate.
    + eexists. split; [reflexivity|]. cbn [agent stats modified file_changes].
      repeat split; congruence.
  - exists t. repeat split.
Qed.

Lemma enrich_framework_step (t : Turn) :
  exists t',
    enrich_framework t = Ok t'
    /\ same_inputs (agent t) (agent t')
    /\ language (agent t') = language (agent t)
    /\ category (agent t') = category (agent t)
    /\ language_stats (stats t') = language_stats (stats t)
    /\ category_stats (stats t') = category_stats (stats t)
    /\ (field_is (framework (agent t)) "custom" = false -> t' = t)
    /\ (infer_framework (agent t) = Ok None ->
        agent t' = agent t /\ modified t' = modified t
        /\ file_changes t' = file_changes t).
Proof.
  unfold enrich_framework.
  destruct (field_is (framework (agent t)) "custom") eqn:Hsentinel.
  - destruct (infer_framework_total (agent t)) as [r Hr]. rewrite Hr. cbn [bind].
    destruct (accepted r) as [new|] eqn:Hnew.
    + destruct (framework (agent t)) as [old|]; [|discriminate]. cbn [field bind].
      eexists. split; [reflexivity|]. cbn [agent stats modified file_changes].
      repeat split; try congruence;
        assert (r = None) by congruence; subst r; discriminate.
    + eexists. split; [reflexivity|]. cbn [agent stats modified file_changes].
      repeat split; congruence.
  - exists t. repeat split.
Qed.

Lemma infer_category_same_inputs (a b : Agent) :
  same_inputs a b -> infer_category a = infer_category b.
Proof.
  intros (Hslug & Hname & Hdesc & Hrepo & Htags & Hsdks & Hskills & Hprov).
  unfold infer_category, is_lifie_business_agent, Category.candidates,
    Category.rule_skills.
  rewrite Hslug, Hname, Hdesc, Htags, Hskills, Hprov. reflexivity.
Qed.

Lemma infer_framework_same_inputs (a b : Agent) :
  same_inputs a b -> infer_framework a = infer_framework b.
Proof.
  intros (Hslug & Hname & Hdesc & Hrepo & Htags & Hsdks & Hskills & Hprov).
  unfold infer_framework, Framework.candidates, Framework.all_text.
  rewrite Hslug, Hname, Hdesc, Hrepo, Htags. reflexivity.
Qed.

Lemma same_inputs_trans (a b c : Agent) :
  same_inputs a b -> same_inputs b c -> same_inputs a c.
Proof. unfold same_inputs. intuition congruence. Qed.





(** An agent that keeps a sentinel need not be a fixed point: the language
    is inferred before the framework and reads it, so a second run finds the
    language from the framework that the first run has set. *)
Example second_run_resolves_language :
  exists t1 t2,
    enrich_agent initial_stats agent_langgraph_unknown = Ok t1
    /\ language (agent t1) = Some "unknown"
    /\ framework (agent t1) = Some "langgraph"
    /\ enrich_agent initial_stats (agent t1) = Ok t2
    /\ language (agent t2) = Some "python".
Proof.
  eexists. eexists.
  split; [vm_compute; reflexivity|].
  split; [reflexivity|].
  split; [reflexivity|].
  split; [vm_compute; reflexivity|].
  reflexivity.
Qed.

(** ** The rules of the language compute the signals *)

Lemma key_loop_bumps (d : dict string) (k : string) (w : Z) (c : Counter) :
  (if dict_in k d then lang <- dict_index d k ;; Ok (incr c lang w) else Ok c)
  = Ok (bumps (key_signal d k w) c).
Proof.
  unfold dict_in, dict_index, key_signal. destruct (dict_get d k); reflexivity.
Qed.

Lemma language_rule_repo_bumps (a : Agent) (c : Counter) :
  Language.rule_repo a c = Ok (bumps (repo_signals (get (repository a) "")) c).
Proof.
  unfold Language.rule_repo, repo_signals. cbv zeta.
  destruct (truthy (get (repository a) "")); [|reflexivity].
  destruct (contains "github.com" (get (repository a) "")
            && (5 <=? len (split "/" (rstrip (Ascii.eqb "/") (get (repository a) "")))))
    eqn:Hguard; [|reflexivity].
  apply andb_true_iff in Hguard. destruct Hguard as [_ Hlen]. apply Z.leb_le in Hlen.
  destruct (index_in_range
              (split "/" (rstrip (Ascii.eqb "/") (get (repository a) ""))) 4)
    as [segment [-> Hnth]]; [lia|].
  change (Z.to_nat 4) with 4%nat in Hnth. rewrite Hnth. cbn [bind].
  unfold suffix_signals. apply for_each_bumps.
  intros [suffix lang] c'. destruct (endswith (lower segment) suffix); reflexivity.
Qed.

Lemma language_rule_official_bumps (a : Agent) (c : Counter) :
  Language.rule_official a c
  = Ok (bumps (official_language_signals (get (description a) "")) c).
Proof.
  unfold Language.rule_official, official_language_signals. cbv zeta.
  destruct (startswith (get (description a) "") "Official A2A"); [|reflexivity].
  destruct (re_search "Official A2A (\w+) sample" (get (description a) ""))
    as [m|] eqn:E; [|reflexivity].
  apply search_from_group in E; [|vm_compute; reflexivity].
  destruct (group m) as [g|]; [|discriminate]. cbn [lower_opt bind].
  destruct (str_in (lower g) _); reflexivity.
Qed.

Lemma language_rule_sdks_bumps (a : Agent) (c : Counter) :
  Language.rule_sdks a c = Ok (bumps (sdk_signals (get (sdks a) [])) c).
Proof.
  unfold Language.rule_sdks, sdk_signals. cbv zeta.
  destruct (get (sdks a) []) as [|sdk [|sdk' l]].
  - reflexivity.
  - change (len [sdk] =? 1) with true. cbv iota.
    change (index [sdk] 0) with (Ok sdk). cbn [bind]. apply key_loop_bumps.
  - replace (len (sdk :: sdk' :: l) =? 1) with false; [reflexivity|].
    symmetry. apply Z.eqb_neq. unfold len. simpl List.length. lia.
Qed.

Lemma language_candidates_signals (a : Agent) :
  Language.candidates a = Ok (bumps (language_signals a) []).
Proof.
  unfold Language.candidates, language_signals, language_signals_before_sdks.
  unfold Language.rule_framework. cbv zeta. rewrite key_loop_bumps. cbn [bind].
  unfold Language.rule_tags.
  rewrite (for_each_bumps _ _ (fun tag => key_signal TAG_TO_LANGUAGE (lower tag) 3))
    by (intros tag c; apply key_loop_bumps).
  cbn [bind]. rewrite language_rule_repo_bumps. cbn [bind].
  unfold Language.rule_name, Language.rule_description, re_search. cbv zeta.
  repeat (rewrite pattern_loop_bumps; cbn [bind]).
  rewrite language_rule_official_bumps. cbn [bind].
  rewrite language_rule_sdks_bumps, !bumps_app. reflexivity.
Qed.

(** ** The first item of [most_common], exactly *)

(** The first item is the first, in the order of insertion, of the items of
    greatest count. *)
Lemma most_common_first (c : Counter) (top : string * Z) :
  most_common 1 c = [top] ->
  exists before after,
    c = before ++ top :: after
    /\ (forall x, In x before -> snd x < snd top)
    /\ (forall x, In x after -> snd x <= snd top).
Proof.
  unfold most_common. revert top.
  induction c as [|x c IH]; intros top H; [discriminate|].
  simpl sorted_desc in H.
  destruct (sorted_desc c) as [|y l] eqn:E.
  - pose proof (sorted_desc_perm c) as Hp. rewrite E in Hp.
    apply Permutation_nil in Hp. subst c. simpl in H. injection H as <-.
    exists [], []. split; [reflexivity|]. split; intros z [].
  - destruct (IH y eq_refl) as [before [after [Hc [Hb Ha]]]].
    simpl in H. destruct (snd y <=? snd x) eqn:Hle.
    + injection H as <-. apply Z.leb_le in Hle.
      exists [], c. split; [reflexivity|]. split; [intros z []|].
      intros z Hz. rewrite Hc in Hz. apply in_app_iff in Hz.
      destruct Hz as [Hz | [<- | Hz]];
        [specialize (Hb z Hz) | | specialize (Ha z Hz)]; lia.
    + injection H as <-. apply Z.leb_gt in Hle.
      exists (x :: before), after. split; [rewrite Hc; reflexivity|].
      split; [|assumption].
      intros z [<- | Hz]; [assumption | apply Hb, Hz].
Qed.

Lemma sorted_desc_keys_nodup (c : Counter) :
  NoDup (keys c) -> NoDup (keys (sorted_desc c)).
Proof.
  intros H. unfold keys.
  apply (Permutation_NoDup (l := map fst c)); [|exact H].
  apply Permutation_map, Permutation_sym, sorted_desc_perm.
Qed.

(** The decision of [infer_language], from the counts alone: the label
    whose count is 2 at least and above the count of every other label. *)
Lemma language_decide_spec (c : Counter) (l : string) :
  NoDup (keys c) ->
  Language.decide c = Ok (Some l)
  <-> 2 <= counter_get c l /\ forall l', l' <> l -> counter_get c l' < counter_get c l.
Proof.
  intros Hnd. split.
  - intros H. destruct (empty c) eqn:Hne;
      [unfold Language.decide in H; rewrite Hne in H; discriminate|].
    destruct (most_common_top c Hne) as [[lt n] [Hmc [Hin Hmax]]].
    rewrite (language_decide_top c _ Hmc) in H. cbn [fst snd] in H.
    destruct (n <? 2) eqn:Hfloor; [discriminate|]. apply Z.ltb_ge in Hfloor.
    pose proof (sorted_desc_perm c) as Hp.
    pose proof (sorted_desc_sorted c) as Hs.
    pose proof (sorted_desc_keys_nodup c Hnd) as Hk.
    unfold most_common in Hmc, H.
    assert (Hl : lt = l /\
                 forall l' n', In (l', n') c -> l' <> lt -> n' < n).
    { destruct (sorted_desc c) as [|a [|b rest]] eqn:E.
      - discriminate.
      - simpl in Hmc, H. injection Hmc as ->. injection H as <-.
        split; [reflexivity|]. intros l' n' Hin' Hne'.
        apply (Permutation_in _ (Permutation_sym Hp)) in Hin'.
        destruct Hin' as [Heq | []]. congruence.
      - simpl in Hmc, H. injection Hmc as ->.
        destruct (snd (lt, n) =? snd b) eqn:Htie; [discriminate|].
        injection H as <-. split; [reflexivity|].
        apply Z.eqb_neq in Htie. cbn [snd] in Htie.
        inversion Hs as [|? ? Hs' Hall]; subst.
        inversion Hs' as [|? ? _ Hall']; subst.
        rewrite Forall_forall in Hall, Hall'. unfold ge_count in *.
        assert (Hb : snd b <= n) by (apply (Hall b); left; reflexivity).
        intros l' n' Hin' Hne'.
        apply (Permutation_in _ (Permutation_sym Hp)) in Hin'.
        destruct Hin' as [Heq | [Heq | Hin']].
        + congruence.
        + rewrite Heq in *. cbn [snd] in *. lia.
        + specialize (Hall' _ Hin'). cbn [snd] in *. lia. }
    destruct Hl as [<- Hothers].
    rewrite (counter_get_in c lt n Hnd Hin). split; [lia|].
    intros l' Hne'.
    destruct (Z.eq_dec (counter_get c l') 0) as [-> | Hnz]; [lia|].
    apply (Hothers l' _ (counter_get_nonzero c l' Hnz) Hne').
  - intros [Hfloor Hothers].
    pose proof (most_common_winner c l _ Hnd eq_refl ltac:(lia) Hothers) as Hmc.
    rewrite (language_decide_top c _ Hmc). cbn [fst snd].
    replace (counter_get c l <? 2) with false by (symmetry; apply Z.ltb_ge; lia).
    pose proof (sorted_desc_perm c) as Hp.
    pose proof (sorted_desc_keys_nodup c Hnd) as Hk.
    unfold most_common in *.
    destruct (sorted_desc c) as [|a [|b rest]] eqn:E; try reflexivity.
    simpl in Hmc. injection Hmc as ->. simpl firstn. cbv iota. cbn [snd].
    destruct b as [lb nb]. cbn [snd].
    destruct (Z.eqb_spec (counter_get c l) nb) as [Htie|]; [exfalso | reflexivity].
    assert (Hlb : lb <> l).
    { unfold keys in Hk. simpl in Hk. inversion Hk as [|? ? Hnotin _]; subst.
      intros ->. apply Hnotin. left. reflexivity. }
    assert (Hinb : In (lb, nb) c).
    { apply (Permutation_in _ Hp). right. left. reflexivity. }
    rewrite <- (counter_get_in c lb nb Hnd Hinb) in Htie.
    specialize (Hothers lb Hlb). lia.
Qed.

(** ** The labels and the weights of the language signals *)

Lemma dict_get_value {V : Type} (d : dict V) (k : string) (v : V) :
  dict_get d k = Some v -> In v (map snd d).
Proof.
  induction d as [|[k' v'] d IH]; simpl; [discriminate|].
  destruct (String.eqb k' k); [intros H; injection H as ->; auto | auto].
Qed.

Lemma key_signal_forall (P : string * Z -> Prop) (d : dict string) (k : string) (w : Z) :
  (forall v, In v (map snd d) -> P (v, w)) -> Forall P (key_signal d k w).
Proof.
  intros H. unfold key_signal. destruct (dict_get d k) as [v|] eqn:E; [|constructor].
  repeat constructor. apply H, (dict_get_value _ _ _ E).
Qed.

Lemma suffix_signals_forall (P : string * Z -> Prop) (actual_repo : string) :
  (forall v, In v (map snd REPO_SUFFIX_LANGUAGE) -> P (v, 3)) ->
  Forall P (suffix_signals actual_repo).
Proof.
  intros H. unfold suffix_signals. apply Forall_flat_map, Forall_forall.
  intros [suffix lang] Hrow. destruct (endswith actual_repo suffix); [|constructor].
  repeat constructor. apply H. apply (in_map snd) in Hrow. exact Hrow.
Qed.

Lemma language_signals_forall (P : string * Z -> Prop) (a : Agent) :
  (forall l, In l LANGUAGE_LABELS -> P (l, 1) /\ P (l, 2) /\ P (l, 3) /\ P (l, 5)) ->
  Forall P (language_signals a).
Proof.
  intros H.
  assert (Hvalues : forall d : dict string,
             forallb (fun v => str_in v LANGUAGE_LABELS) (map snd d) = true ->
             forall v, In v (map snd d) -> In v LANGUAGE_LABELS).
  { intros d Hd v Hv. rewrite forallb_forall in Hd. apply existsb_eqb_in, Hd, Hv. }
  unfold language_signals, language_signals_before_sdks.
  apply Forall_app; split;
    [apply Forall_app; split;
     [|apply Forall_app; split;
       [|apply Forall_app; split;
         [|apply Forall_app; split; [|apply Forall_app; split]]]]|].
  - apply key_signal_forall. intros v Hv.
    apply H, (Hvalues FRAMEWORK_TO_LANGUAGE); [vm_compute; reflexivity | exact Hv].
  - apply Forall_flat_map, Forall_forall. intros tag _.
    apply key_signal_forall. intros v Hv.
    apply H, (Hvalues TAG_TO_LANGUAGE); [vm_compute; reflexivity | exact Hv].
  - unfold repo_signals. destruct (truthy _); [|constructor]. cbv zeta.
    destruct (_ && _); [|constructor].
    destruct (nth_error _ 4); [|constructor].
    apply suffix_signals_forall. intros v Hv.
    apply H, (Hvalues REPO_SUFFIX_LANGUAGE); [vm_compute; reflexivity | exact Hv].
  - apply pattern_signals_forall. intros row Hrow.
    apply H, (Hvalues NAME_SLUG_LANGUAGE_PATTERNS); [vm_compute; reflexivity|].
    apply in_map, Hrow.
  - apply pattern_signals_forall. intros row Hrow.
    apply H, (Hvalues DESC_LANGUAGE_PATTERNS); [vm_compute; reflexivity|].
    apply in_map, Hrow.
  - unfold official_language_signals. destruct (startswith _ _); [|constructor].
    destruct (re_search _ _) as [m|]; [|constructor].
    destruct (group m) as [g|]; [|constructor].
    destruct (str_in (lower g) _) eqn:E; [|constructor].
    repeat constructor. apply H. apply existsb_eqb_in in E. simpl in E. simpl.
    intuition.
  - unfold sdk_signals. destruct (get (sdks a) []) as [|sdk [|sdk' l]];
      try constructor.
    apply key_signal_forall. intros v Hv.
    apply H, (Hvalues SDK_TO_LANGUAGE); [vm_compute; reflexivity | exact Hv].
Qed.

(** A label that an inference returns is a key of its tally. *)
Lemma language_result_key (a : Agent) (l : string) :
  infer_language a = Ok (Some l) -> In l (map fst (language_signals a)).
Proof.
  unfold infer_language. rewrite language_candidates_signals. cbn [bind].
  intros H. destruct (empty (bumps (language_signals a) [])) eqn:Hne;
    [unfold Language.decide in H; rewrite Hne in H; discriminate|].
  destruct (most_common_top _ Hne) as [top [Hmc [Hin _]]].
  rewrite (language_decide_top _ _ Hmc) in H.
  destruct (snd top <? 2); [discriminate|].
  assert (l = fst top).
  { destruct (most_common 2 _) as [|x [|y [|z r]]]; try congruence.
    destruct (snd x =? snd y); congruence. }
  subst l. apply (in_map fst) in Hin. apply keys_bumps_in in Hin.
  destruct Hin as [[] | Hin]. exact Hin.
Qed.

Lemma language_result_label (a : Agent) (l : string) :
  infer_language a = Ok (Some l) -> In l LANGUAGE_LABELS.
Proof.
  intros H. apply language_result_key in H.
  apply in_map_iff in H. destruct H as [s [<- Hs]].
  pose proof (language_signals_forall (fun s => In (fst s) LANGUAGE_LABELS) a) as Hall.
  rewrite Forall_forall in Hall. apply Hall; [|exact Hs].
  intros l0 Hl0. cbn [fst]. tauto.
Qed.

(** X2: the language returned is one of the fourteen labels of
    [LANGUAGE_LABELS], the values of the tables of the language; it is
    neither the sentinel [unknown] nor the empty string. *)
Theorem infer_language_labels (a : Agent) (l : string) :
  infer_language a = Ok (Some l) ->
  In l LANGUAGE_LABELS /\ l <> "unknown" /\ l <> "".
Proof.
  intros H. apply language_result_label in H. split; [exact H|].
  split; intros ->; apply existsb_eqb_in in H; vm_compute in H; discriminate.
Qed.

Lemma infer_language_labels_witness :
  infer_language agent_python_fastapi = Ok (Some "python")
  /\ In "python" LANGUAGE_LABELS /\ "python" <> "unknown" /\ "python" <> "".
Proof.
  split; [vm_compute; reflexivity|].
  apply (infer_language_labels agent_python_fastapi). vm_compute. reflexivity.
Defined.

(** The decision of [infer_language] from the weights of the signals. *)
Lemma infer_language_weights (a : Agent) (l : string) :
  infer_language a = Ok (Some l)
  <-> 2 <= weight l (language_signals a)
      /\ forall l', l' <> l ->
                    weight l' (language_signals a) < weight l (language_signals a).
Proof.
  unfold infer_language. rewrite language_candidates_signals. cbn [bind].
  rewrite (language_decide_spec _ l (bumps_nil_nodup _)).
  rewrite counter_get_bumps. cbn [counter_get]. rewrite Z.add_0_l.
  split; intros [Hfloor Hothers]; (split; [exact Hfloor|]); intros l' Hne;
    specialize (Hothers l' Hne); rewrite counter_get_bumps in *;
    cbn [counter_get] in *; lia.
Qed.

(** X1: on a record of [Agent], whose fields are absent or of their type, the
    language is decided by the scores alone: [infer_language] returns a
    label exactly when its score is 2 at least and above the score of every
    other label, and [None] in every other case. *)
Theorem infer_language_strict_top (a : Agent) :
  exists c,
    Language.candidates a = Ok c
    /\ (forall l,
           infer_language a = Ok (Some l)
           <-> 2 <= counter_get c l
               /\ forall l', l' <> l -> counter_get c l' < counter_get c l)
    /\ (infer_language a = Ok None
        <-> forall l, counter_get c l < 2
                      \/ exists l', l' <> l /\ counter_get c l <= counter_get c l').
Proof.
  exists (bumps (language_signals a) []).
  split; [apply language_candidates_signals|].
  assert (Hspec : forall l,
             infer_language a = Ok (Some l)
             <-> 2 <= counter_get (bumps (language_signals a) []) l
                 /\ forall l', l' <> l ->
                               counter_get (bumps (language_signals a) []) l'
                               < counter_get (bumps (language_signals a) []) l).
  { intros l. unfold infer_language. rewrite language_candidates_signals. cbn [bind].
    apply language_decide_spec, bumps_nil_nodup. }
  split; [exact Hspec|].
  destruct (infer_language_total a) as [[l0|] Hr]; rewrite Hr.
  - split; [discriminate|]. intros Hall. exfalso.
    apply Hspec in Hr. destruct Hr as [Hfloor Hothers].
    destruct (Hall l0) as [Hlow | [l' [Hne Hle]]]; [lia|].
    specialize (Hothers l' Hne). lia.
  - split; [|reflexivity]. intros _ l.
    destruct (Z.ltb_spec (counter_get (bumps (language_signals a) []) l) 2)
      as [Hlow | Hfloor]; [left; exact Hlow | right].
    destruct (empty (bumps (language_signals a) [])) eqn:Hne.
    { destruct (bumps (language_signals a) []); [simpl in Hfloor; lia | discriminate]. }
    destruct (most_common_top _ Hne) as [[lt n] [Hmc [Hin Hmax]]].
    pose proof (bumps_nil_nodup (language_signals a)) as Hnd.
    pose proof (counter_get_in _ _ _ Hnd Hin) as Hlt.
    destruct (string_dec lt l) as [-> | Hneq].
    + (* l is the first item: another label has the same count *)
      assert (Hnot : ~ (2 <= counter_get (bumps (language_signals a) []) l
                        /\ forall l', l' <> l ->
                                      counter_get (bumps (language_signals a) []) l'
                                      < counter_get (bumps (language_signals a) []) l)).
      { intros Hs. apply Hspec in Hs. congruence. }
      unfold most_common in Hmc.
      pose proof (sorted_desc_perm (bumps (language_signals a) [])) as Hp.
      pose proof (sorted_desc_sorted (bumps (language_signals a) [])) as Hs.
      pose proof (sorted_desc_keys_nodup _ Hnd) as Hk.
      destruct (sorted_desc (bumps (language_signals a) [])) as [|x [|[lb nb] rest]]
        eqn:E; [discriminate | |].
      * exfalso. apply Hnot. split; [exact Hfloor|]. intros l' Hne'.
        destruct (Z.eq_dec (counter_get (bumps (language_signals a) []) l') 0)
          as [-> | Hnz]; [lia|].
        apply counter_get_nonzero in Hnz.
        apply (Permutation_in _ (Permutation_sym Hp)) in Hnz.
        simpl in Hmc. injection Hmc as ->.
        destruct Hnz as [Heq | []]. congruence.
      * simpl in Hmc. injection Hmc as ->.
        assert (Hinb : In (lb, nb) (bumps (language_signals a) []))
          by (apply (Permutation_in _ Hp); right; left; reflexivity).
        assert (Hlb : lb <> l).
        { unfold keys in Hk. simpl in Hk. inversion Hk as [|? ? Hnotin _]; subst.
          intros ->. apply Hnotin. left. reflexivity. }
        exists lb. split; [exact Hlb|].
        rewrite (counter_get_in _ _ _ Hnd Hinb), Hlt.
        destruct (Z_le_gt_dec n nb) as [Hle | Hgt]; [exact Hle|].
        exfalso. apply Hnot. rewrite Hlt. split; [lia|]. intros l' Hne'.
        destruct (Z.eq_dec (counter_get (bumps (language_signals a) []) l') 0)
          as [-> | Hnz]; [lia|].
        apply counter_get_nonzero in Hnz.
        apply (Permutation_in _ (Permutation_sym Hp)) in Hnz.
        inversion Hs as [|? ? Hs' _]; subst.
        inversion Hs' as [|? ? _ Hall']; subst.
        rewrite Forall_forall in Hall'. unfold ge_count in Hall'.
        destruct Hnz as [Heq | [Heq | Hnz]].
        -- congruence.
        -- injection Heq as _ Hn. rewrite <- Hn. lia.
        -- specialize (Hall' _ Hnz). cbn [snd] in Hall'. lia.
    + exists lt. split; [exact Hneq|]. rewrite Hlt.
      apply (Hmax (l, counter_get (bumps (language_signals a) []) l)),
        counter_get_nonzero.
      lia.
Qed.

(** ** The decisions of the category and of the framework *)

Lemma most_common_first_inv (before after : Counter) (top : string * Z) :
  (forall x, In x before -> snd x < snd top) ->
  (forall x, In x after -> snd x <= snd top) ->
  most_common 1 (before ++ top :: after) = [top].
Proof.
  intros Hb Ha. unfold most_common.
  induction before as [|x before IH].
  - simpl. pose proof (sorted_desc_perm after) as Hp.
    destruct (sorted_desc after) as [|y l]; [reflexivity|].
    simpl. replace (snd y <=? snd top) with true; [reflexivity|].
    symmetry. apply Z.leb_le, Ha, (Permutation_in _ Hp). left. reflexivity.
  - simpl app. simpl sorted_desc.
    assert (IH' : firstn 1 (sorted_desc (before ++ top :: after)) = [top])
      by (apply IH; intros z Hz; apply Hb; right; exact Hz).
    destruct (sorted_desc (before ++ top :: after)) as [|y l]; [discriminate|].
    simpl in IH'. injection IH' as ->. simpl.
    replace (snd top <=? snd x) with false; [reflexivity|].
    symmetry. apply Z.leb_gt, Hb. left. reflexivity.
Qed.

Lemma most_common_first_top (c : Counter) (l : string) (n : Z) :
  most_common 1 c = [(l, n)] <-> first_top c l n.
Proof.
  split.
  - intros H. apply most_common_first in H. exact H.
  - intros [before [after [-> [Hb Ha]]]]. apply most_common_first_inv; assumption.
Qed.

Lemma weight_in_ge (k : Z) (l : string) (signals : list (string * Z)) :
  0 <= k -> Forall (fun s => k <= snd s) signals ->
  In l (map fst signals) -> k <= weight l signals.
Proof.
  intros Hk Hall. induction Hall as [|[l0 w] signals Hw Hall IH]; [intros []|].
  simpl. cbn [snd] in Hw.
  assert (Hrest : 0 <= weight l signals).
  { apply weight_nonneg. rewrite Forall_forall in *. intros s Hs.
    specialize (Hall s Hs). lia. }
  destruct (String.eqb_spec l0 l) as [-> | Hne]; [lia|].
  intros [Heq | Hin]; [congruence | specialize (IH Hin); lia].
Qed.

(** The counts of a tally are the weights of its keys. *)
Lemma tally_entry (signals : list (string * Z)) (l : string) (n : Z) :
  In (l, n) (bumps signals []) -> n = weight l signals /\ In l (map fst signals).
Proof.
  intros Hin. split.
  - rewrite <- (counter_get_in _ _ _ (bumps_nil_nodup signals) Hin).
    rewrite counter_get_bumps. reflexivity.
  - apply (in_map fst) in Hin. apply keys_bumps_in in Hin.
    destruct Hin as [[] | Hin]. exact Hin.
Qed.

Lemma framework_signals_forall (P : string * Z -> Prop) (a : Agent) :
  (forall l, dict_in l FRAMEWORK_TO_LANGUAGE = true -> P (l, 2) /\ P (l, 3) /\ P (l, 4)) ->
  Forall P (framework_signals a).
Proof.
  intros H.
  assert (Hvalues : forall d : dict string,
             forallb (fun v => dict_in v FRAMEWORK_TO_LANGUAGE) (map snd d) = true ->
             forall v, In v (map snd d) -> dict_in v FRAMEWORK_TO_LANGUAGE = true).
  { intros d Hd v Hv. rewrite forallb_forall in Hd. apply Hd, Hv. }
  assert (Hpatterns : forall text w,
             (forall l, dict_in l FRAMEWORK_TO_LANGUAGE = true -> P (l, w)) ->
             Forall P (pattern_signals true FRAMEWORK_DETECTION text w)).
  { intros text w Hw. apply pattern_signals_forall. intros row Hrow.
    apply Hw, (Hvalues FRAMEWORK_DETECTION); [vm_compute; reflexivity|].
    apply in_map, Hrow. }
  unfold framework_signals.
  apply Forall_app; split; [|apply Forall_app; split].
  - unfold framework_tag_signals. apply Forall_flat_map, Forall_forall. intros t _.
    destruct (dict_get TAG_TO_FRAMEWORK (lower t)) as [fw|] eqn:E; [|constructor].
    repeat constructor.
    apply H, (Hvalues TAG_TO_FRAMEWORK); [vm_compute; reflexivity|].
    apply (dict_get_value _ _ _ E).
  - apply Hpatterns. intros l Hl. apply H, Hl.
  - unfold framework_official_signals. destruct (contains _ _); [|constructor].
    apply Hpatterns. intros l Hl. apply H, Hl.
Qed.

Lemma framework_tally_floor (a : Agent) (l : string) (n : Z) :
  In (l, n) (bumps (framework_signals a) []) -> 2 <= n.
Proof.
  intros Hin. apply tally_entry in Hin. destruct Hin as [-> Hin].
  apply weight_in_ge; [lia | | exact Hin].
  apply framework_signals_forall. intros; cbn [snd]; lia.
Qed.

Lemma framework_result_key (a : Agent) (l : string) :
  infer_framework a = Ok (Some l) -> In l (map fst (framework_signals a)).
Proof.
  unfold infer_framework. rewrite framework_candidates_signals. cbn [bind].
  intros H. destruct (empty (bumps (framework_signals a) [])) eqn:Hne;
    [unfold Framework.decide in H; rewrite Hne in H; discriminate|].
  destruct (most_common_top _ Hne) as [top [Hmc [Hin _]]].
  rewrite (framework_decide_top _ _ _ Hmc) in H.
  assert (l = fst top).
  { destruct (snd top <? 2); [discriminate|].
    destruct (_ && _); [destruct (negb _)|]; congruence. }
  subst l. destruct top as [l n]. apply tally_entry in Hin. tauto.
Qed.

Lemma framework_result_label (a : Agent) (l : string) :
  infer_framework a = Ok (Some l) -> dict_in l FRAMEWORK_TO_LANGUAGE = true.
Proof.
  intros H. apply framework_result_key in H.
  apply in_map_iff in H. destruct H as [s [<- Hs]].
  pose proof (framework_signals_forall
                (fun s => dict_in (fst s) FRAMEWORK_TO_LANGUAGE = true) a) as Hall.
  rewrite Forall_forall in Hall. apply Hall; [|exact Hs].
  intros l0 Hl0. cbn [fst]. tauto.
Qed.

(** X11: every framework that [infer_framework] returns is a key of
    [FRAMEWORK_TO_LANGUAGE], so that the language rule of the framework
    knows it; it is neither the sentinel [custom] nor the empty string. *)
Theorem infer_framework_labels (a : Agent) (l : string) :
  infer_framework a = Ok (Some l) ->
  (exists lang, dict_index FRAMEWORK_TO_LANGUAGE l = Ok lang /\ In lang LANGUAGE_LABELS)
  /\ l <> "custom" /\ l <> "".
Proof.
  intros H. apply framework_result_label in H. split.
  - destruct (dict_index_in _ _ H) as [lang [Hidx Hget]]. exists lang.
    split; [exact Hidx|]. apply dict_get_value in Hget.
    assert (Hall : forallb (fun v => str_in v LANGUAGE_LABELS)
                     (map snd FRAMEWORK_TO_LANGUAGE) = true) by (vm_compute; reflexivity).
    rewrite forallb_forall in Hall. apply existsb_eqb_in, Hall, Hget.
  - split; intros ->; vm_compute in H; discriminate.
Qed.

Lemma infer_framework_labels_witness :
  infer_framework agent_langgraph_unknown = Ok (Some "langgraph")
  /\ (exists lang,
         dict_index FRAMEWORK_TO_LANGUAGE "langgraph" = Ok lang
         /\ In lang LANGUAGE_LABELS)
  /\ "langgraph" <> "custom" /\ "langgraph" <> "".
Proof.
  split; [vm_compute; reflexivity|].
  apply (infer_framework_labels agent_langgraph_unknown). vm_compute. reflexivity.
Defined.

(** X10: on a record of [Agent], whose fields are absent or of their type,
    the framework is the first label of top score in the tally, but for
    [google-adk] at 2; every score of the tally is 2 at least, so the floor
    of 2 rejects nothing; and [None] is returned only on an empty tally or a
    tally led by [google-adk] at 2. *)
Theorem infer_framework_first_top (a : Agent) :
  exists c,
    Framework.candidates a = Ok c
    /\ (forall l n, In (l, n) c -> 2 <= n)
    /\ (infer_framework a = Ok None <-> c = [] \/ first_top c "google-adk" 2)
    /\ (forall l,
           infer_framework a = Ok (Some l)
           <-> exists n, first_top c l n /\ (l, n) <> ("google-adk", 2)).
Proof.
  exists (bumps (framework_signals a) []).
  split; [apply framework_candidates_signals|].
  split; [apply framework_tally_floor|].
  assert (Hinfer : infer_framework a
                   = Framework.decide (get (tags a) []) (bumps (framework_signals a) [])).
  { unfold infer_framework. rewrite framework_candidates_signals. reflexivity. }
  assert (Hdecide : forall l n,
             most_common 1 (bumps (framework_signals a) []) = [(l, n)] ->
             infer_framework a
             = if String.eqb l "google-adk" && (n =? 2) then Ok None else Ok (Some l)).
  { intros l n Hmc. rewrite Hinfer.
    rewrite (framework_decide_top _ _ _ Hmc). cbn [fst snd].
    assert (Hin : In (l, n) (bumps (framework_signals a) [])).
    { destruct (most_common_top (bumps (framework_signals a) [])) as [top [Hmc' [Hin _]]];
        [destruct (bumps (framework_signals a) []); [discriminate | reflexivity]|].
      rewrite Hmc in Hmc'. injection Hmc' as <-. exact Hin. }
    pose proof (framework_tally_floor a l n Hin) as Hfloor.
    replace (n <? 2) with false by (symmetry; apply Z.ltb_ge; lia).
    destruct (String.eqb_spec l "google-adk") as [Hl | Hne]; [|reflexivity].
    cbn [andb].
    destruct (Z.eqb_spec n 2) as [Hn2 | Hn2].
    - replace (n <? 3) with true by (symmetry; apply Z.ltb_lt; lia).
      destruct (Framework.has_adk_tag (get (tags a) [])) eqn:Htag; [|reflexivity].
      exfalso. apply adk_tag_weight in Htag.
      apply tally_entry in Hin. destruct Hin as [Hin _]. subst l. lia.
    - replace (n <? 3) with false by (symmetry; apply Z.ltb_ge; lia). reflexivity. }
  remember (bumps (framework_signals a) []) as c eqn:Hc.
  split.
  - split.
    + intros H. destruct (empty c) eqn:Hne;
        [left; destruct c; [reflexivity | discriminate]|].
      right. destruct (most_common_top c Hne) as [[l n] [Hmc _]].
      rewrite (Hdecide l n Hmc) in H.
      destruct (String.eqb_spec l "google-adk") as [Hl | ?]; [|discriminate].
      destruct (Z.eqb_spec n 2) as [Hn2 | ?]; [|discriminate].
      subst l n. apply most_common_first_top, Hmc.
    + intros [Hempty | Htop].
      * rewrite Hinfer, Hempty. reflexivity.
      * apply most_common_first_top in Htop. rewrite (Hdecide _ _ Htop). reflexivity.
  - intros l. split.
    + intros H. destruct (empty c) eqn:Hne.
      { exfalso. rewrite Hinfer in H.
        unfold Framework.decide in H. rewrite Hne in H. discriminate. }
      destruct (most_common_top c Hne) as [[lt n] [Hmc _]].
      rewrite (Hdecide lt n Hmc) in H.
      destruct (String.eqb_spec lt "google-adk") as [Hlt | Hlt].
      * destruct (Z.eqb_spec n 2) as [Hn | Hn]; [discriminate|].
        injection H as <-. exists n. split; [apply most_common_first_top, Hmc|].
        congruence.
      * injection H as <-. exists n. split; [apply most_common_first_top, Hmc|].
        congruence.
    + intros [n [Htop Hne]]. apply most_common_first_top in Htop.
      rewrite (Hdecide _ _ Htop).
      destruct (String.eqb_spec l "google-adk") as [Hl | ?]; [|reflexivity].
      destruct (Z.eqb_spec n 2) as [Hn | ?]; [congruence | reflexivity].
Qed.

Lemma category_result_label (a : Agent) (l : string) :
  infer_category a = Ok (Some l) -> In l CATEGORY_LABELS.
Proof.
  unfold infer_category. destruct (is_lifie_business_agent a).
  - intros H. injection H as <-. simpl. tauto.
  - rewrite category_candidates_signals. cbn [bind]. intros H.
    destruct (empty (bumps (category_signals a) [])) eqn:Hne;
      [unfold Category.decide in H; rewrite Hne in H; discriminate|].
    destruct (most_common_top _ Hne) as [[lt n] [Hmc [Hin _]]].
    rewrite (category_decide_top _ _ Hmc) in H.
    destruct (snd (lt, n) <? 2); [discriminate|]. injection H as <-.
    apply tally_entry in Hin. destruct Hin as [_ Hin].
    apply in_map_iff in Hin. destruct Hin as [s [<- Hs]].
    pose proof (category_signals_labels a) as Hall.
    rewrite Forall_forall in Hall. apply Hall, Hs.
Qed.

(** X7: without the special case, the category is the first label of top score
    in the tally when that score is 2 at least, ties included, and [None]
    exactly when every score is below 2. *)
Theorem infer_category_first_top (a : Agent) :
  is_lifie_business_agent a = false ->
  exists c,
    Category.candidates a = Ok c
    /\ (infer_category a = Ok None <-> forall l, counter_get c l < 2)
    /\ (forall l,
           infer_category a = Ok (Some l) <-> exists n, first_top c l n /\ 2 <= n).
Proof.
  intros Hlifie. exists (bumps (category_signals a) []).
  split; [apply category_candidates_signals|].
  assert (Hnd : NoDup (keys (bumps (category_signals a) [])))
    by apply bumps_nil_nodup.
  assert (Hinfer : infer_category a = Category.decide (bumps (category_signals a) [])).
  { unfold infer_category. rewrite Hlifie, category_candidates_signals. reflexivity. }
  rewrite Hinfer. remember (bumps (category_signals a) []) as c eqn:Hc. split.
  - split.
    + intros H l. destruct (empty c) eqn:Hne;
        [destruct c; [simpl; lia | discriminate]|].
      destruct (most_common_top c Hne) as [[lt n] [Hmc [Hin Hmax]]].
      rewrite (category_decide_top _ _ Hmc) in H. cbn [snd] in H.
      destruct (Z.ltb_spec n 2) as [Hlow|]; [|discriminate].
      destruct (Z.eq_dec (counter_get c l) 0) as [-> | Hnz]; [lia|].
      specialize (Hmax _ (counter_get_nonzero c l Hnz)). cbn [snd] in Hmax. lia.
    + intros H. destruct (empty c) eqn:Hne;
        [unfold Category.decide; rewrite Hne; reflexivity|].
      destruct (most_common_top c Hne) as [[lt n] [Hmc [Hin _]]].
      rewrite (category_decide_top _ _ Hmc). cbn [snd].
      rewrite <- (counter_get_in c lt n Hnd Hin).
      replace (counter_get c lt <? 2) with true; [reflexivity|].
      symmetry. apply Z.ltb_lt, H.
  - intros l. split.
    + intros H. destruct (empty c) eqn:Hne;
        [unfold Category.decide in H; rewrite Hne in H; discriminate|].
      destruct (most_common_top c Hne) as [[lt n] [Hmc _]].
      rewrite (category_decide_top _ _ Hmc) in H. cbn [fst snd] in H.
      destruct (Z.ltb_spec n 2); [discriminate|]. injection H as <-.
      exists n. split; [apply most_common_first_top, Hmc | assumption].
    + intros [n [Htop Hfloor]]. apply most_common_first_top in Htop.
      rewrite (category_decide_top _ _ Htop). cbn [fst snd].
      replace (n <? 2) with false by (symmetry; apply Z.ltb_ge; lia). reflexivity.
Qed.

Lemma infer_category_first_top_witness :
  is_lifie_business_agent agent_multi_agent = false
  /\ exists c,
      Category.candidates agent_multi_agent = Ok c
      /\ (infer_category agent_multi_agent = Ok None <-> forall l, counter_get c l < 2)
      /\ (forall l,
             infer_category agent_multi_agent = Ok (Some l)
             <-> exists n, first_top c l n /\ 2 <= n).
Proof.
  split; [vm_compute; reflexivity|].
  apply (infer_category_first_top agent_multi_agent). vm_compute. reflexivity.
Defined.

(** ** The order and the repetition of the tags *)

Lemma weight_perm (l : string) (s s' : list (string * Z)) :
  Permutation s s' -> weight l s = weight l s'.
Proof.
  induction 1 as [|[k w] s s' _ IH|[k1 w1] [k2 w2] s|s1 s2 s3 _ IH1 _ IH2]; simpl;
    [reflexivity | rewrite IH; reflexivity | lia | congruence].
Qed.

(** X3: the language does not depend on the order of the tags. *)
Theorem infer_language_tag_order (a : Agent) (ts : list string) :
  Permutation (get (tags a) []) ts ->
  infer_language (set_tags a ts) = infer_language a.
Proof.
  intros Hperm.
  assert (Hweight : forall l,
             weight l (language_signals (set_tags a ts)) = weight l (language_signals a)).
  { intros l. unfold language_signals, language_signals_before_sdks.
    cbn [set_tags framework tags repository slug name description sdks get].
    rewrite !weight_app. f_equal. f_equal. f_equal.
    apply weight_perm, Permutation_flat_map, Permutation_sym, Hperm. }
  destruct (infer_language_total (set_tags a ts)) as [[l|] Hr];
    destruct (infer_language_total a) as [[l0|] Hr0]; rewrite Hr, Hr0.
  - apply infer_language_weights in Hr. rewrite !Hweight in Hr.
    assert (H : forall l', l' <> l ->
                           weight l' (language_signals a) < weight l (language_signals a)).
    { intros l' Hne. destruct Hr as [_ Hr]. specialize (Hr l' Hne).
      rewrite Hweight in Hr. exact Hr. }
    assert (Hl : infer_language a = Ok (Some l))
      by (apply infer_language_weights; split; [tauto | exact H]).
    congruence.
  - exfalso. apply infer_language_weights in Hr. rewrite !Hweight in Hr.
    assert (Hl : infer_language a = Ok (Some l)).
    { apply infer_language_weights. split; [tauto|]. intros l' Hne.
      destruct Hr as [_ Hr]. specialize (Hr l' Hne). rewrite Hweight in Hr. exact Hr. }
    congruence.
  - exfalso. apply infer_language_weights in Hr0.
    assert (Hl : infer_language (set_tags a ts) = Ok (Some l0)).
    { apply infer_language_weights. rewrite !Hweight. split; [tauto|].
      intros l' Hne. rewrite Hweight. apply Hr0, Hne. }
    congruence.
  - reflexivity.
Qed.

Lemma infer_language_tag_order_witness :
  infer_language (set_tags agent_python_fastapi ["fastapi"; "python"])
  = infer_language agent_python_fastapi.
Proof.
  apply (infer_language_tag_order agent_python_fastapi). simpl. apply perm_swap.
Defined.

Lemma filter_length_perm {A : Type} (f : A -> bool) (l l' : list A) :
  Permutation l l' -> List.length (filter f l) = List.length (filter f l').
Proof.
  induction 1 as [|x l l' _ IH|x y l|l1 l2 l3 _ IH1 _ IH2]; simpl.
  - reflexivity.
  - destruct (f x); simpl; congruence.
  - destruct (f x), (f y); reflexivity.
  - congruence.
Qed.

Lemma lower_set_same (ts ts' : list string) :
  (forall x, In x ts <-> In x ts') ->
  Permutation (Category.lower_set ts) (Category.lower_set ts').
Proof.
  intros H. unfold Category.lower_set, set_of.
  apply NoDup_Permutation; try apply NoDup_nodup.
  intros x. rewrite !nodup_In, !in_map_iff.
  split; intros [y [Hy Hin]]; exists y; (split; [exact Hy | apply H, Hin]).
Qed.

Lemma str_in_same (x : string) (l l' : list string) :
  (forall y, In y l <-> In y l') -> str_in x l = str_in x l'.
Proof.
  intros H. unfold str_in.
  destruct (existsb (String.eqb x) l) eqn:E;
    destruct (existsb (String.eqb x) l') eqn:E'; try reflexivity.
  - apply existsb_eqb_in, H, existsb_eqb_in in E. congruence.
  - apply existsb_eqb_in, H, existsb_eqb_in in E'. congruence.
Qed.

(** X8: the category depends on the tags as a set: neither their order nor
    their repetition counts. *)
Theorem infer_category_tag_set (a : Agent) (ts : list string) :
  (forall x, In x (get (tags a) []) <-> In x ts) ->
  infer_category (set_tags a ts) = infer_category a.
Proof.
  intros Hsame.
  pose proof (lower_set_same _ _ Hsame) as Hperm.
  assert (Hsignals : category_signals (set_tags a ts) = category_signals a).
  { unfold category_signals.
    cbn [set_tags tags description name slug skills get]. cbv zeta.
    f_equal; [|f_equal; f_equal; f_equal; f_equal].
    - unfold tag_rule_signals. apply flat_map_ext.
      intros [[tag_set category] min_matches]. cbv zeta.
      unfold len, inter. rewrite (filter_length_perm _ _ _ Hperm). reflexivity.
    - rewrite (str_in_same "official-sample" _ (Category.lower_set (get (tags a) [])));
        [reflexivity|].
      intros y. split; apply Permutation_in;
        [apply Permutation_sym|]; exact Hperm. }
  unfold infer_category, is_lifie_business_agent.
  rewrite !category_candidates_signals, Hsignals.
  cbn [set_tags tags provider get]. cbv zeta.
  rewrite (str_in_same "business" ts (get (tags a) [])),
    (str_in_same "commerce" ts (get (tags a) []));
    [reflexivity | |]; intros y; symmetry; apply Hsame.
Qed.

Lemma infer_category_tag_set_witness :
  infer_category (set_tags agent_multi_agent ["multi-agent"; "multi-agent"])
  = infer_category agent_multi_agent.
Proof.
  apply (infer_category_tag_set agent_multi_agent). intros x. simpl. tauto.
Defined.

(** ** The single SDK *)

(** X4: on an agent without [sdks], a single SDK that [SDK_TO_LANGUAGE] knows
    adds exactly 1 to the score of its language, and any other value of
    [sdks] changes nothing. So the language of the SDK is returned exactly
    when it had 1 at least and no other language had more (it decides
    nothing alone, and it breaks a tie at the top for its language); and
    another language is returned exactly when it was returned without the
    SDK and is more than 1 ahead of the language of the SDK (the SDK turns a
    lead of 1 into a tie, and the result into [None]). *)
Theorem single_sdk_adds_one (a : Agent) (c : Counter) :
  sdks a = None ->
  Language.candidates a = Ok c ->
  (forall v,
      (forall sdk, v = [sdk] -> dict_in sdk SDK_TO_LANGUAGE = false) ->
      Language.candidates (set_sdks a v) = Ok c
      /\ infer_language (set_sdks a v) = infer_language a)
  /\ (forall sdk lang,
         dict_index SDK_TO_LANGUAGE sdk = Ok lang ->
         (exists c',
             Language.candidates (set_sdks a [sdk]) = Ok c'
             /\ forall l, counter_get c' l
                          = counter_get c l + (if String.eqb lang l then 1 else 0))
         /\ (infer_language (set_sdks a [sdk]) = Ok (Some lang)
             <-> 1 <= counter_get c lang
                 /\ forall l, l <> lang -> counter_get c l <= counter_get c lang)
         /\ (forall l, l <> lang ->
                       (infer_language (set_sdks a [sdk]) = Ok (Some l)
                        <-> infer_language a = Ok (Some l)
                            /\ counter_get c lang + 1 < counter_get c l))
         /\ (c = [] -> infer_language (set_sdks a [sdk]) = Ok None)
         /\ (forall l, infer_language a = Ok (Some l) ->
                       counter_get c l = counter_get c lang + 1 ->
                       infer_language (set_sdks a [sdk]) = Ok None)).
Proof.
  intros Hsdks Hc. rewrite language_candidates_signals in Hc. injection Hc as Hc.
  assert (Hbefore : forall l, counter_get c l = weight l (language_signals_before_sdks a)).
  { intros l. rewrite <- Hc, counter_get_bumps. unfold language_signals.
    rewrite Hsdks, weight_app. cbn [get sdk_signals weight counter_get]. lia. }
  assert (Hweight : forall v l,
             weight l (language_signals (set_sdks a v))
             = counter_get c l + weight l (sdk_signals v)).
  { intros v l. rewrite Hbefore. unfold language_signals. rewrite weight_app.
    reflexivity. }
  assert (Hold : forall l, weight l (language_signals a) = counter_get c l).
  { intros l. rewrite <- Hc, counter_get_bumps. reflexivity. }
  split.
  - intros v Hv.
    assert (Hnil : sdk_signals v = []).
    { unfold sdk_signals, key_signal. destruct v as [|sdk [|sdk' v]]; try reflexivity.
      specialize (Hv sdk eq_refl). unfold dict_in in Hv.
      destruct (dict_get SDK_TO_LANGUAGE sdk); [discriminate | reflexivity]. }
    assert (Hsame : language_signals (set_sdks a v) = language_signals a).
    { unfold language_signals. cbn [set_sdks sdks get]. rewrite Hsdks, Hnil.
      reflexivity. }
    unfold infer_language. rewrite !language_candidates_signals, Hsame, Hc.
    split; reflexivity.
  - intros sdk lang Hidx.
    assert (Hget : dict_get SDK_TO_LANGUAGE sdk = Some lang).
    { unfold dict_index in Hidx. destruct (dict_get SDK_TO_LANGUAGE sdk);
        [congruence | discriminate]. }
    assert (Hone : forall l, weight l (language_signals (set_sdks a [sdk]))
                             = counter_get c l + (if String.eqb lang l then 1 else 0)).
    { intros l. rewrite Hweight. unfold sdk_signals, key_signal. rewrite Hget.
      cbn [weight]. destruct (String.eqb lang l); lia. }
    assert (Hpos : forall l, 0 <= counter_get c l).
    { intros l. rewrite <- Hold. apply weight_nonneg, language_signals_forall.
      intros; cbn [snd]; lia. }
    assert (Hlang : infer_language (set_sdks a [sdk]) = Ok (Some lang)
                    <-> 1 <= counter_get c lang
                        /\ forall l, l <> lang -> counter_get c l <= counter_get c lang).
    { rewrite infer_language_weights, (Hone lang), String.eqb_refl. split.
      - intros [Hfloor Hothers]. split; [lia|]. intros l Hne.
        specialize (Hothers l Hne). rewrite (Hone l) in Hothers.
        destruct (String.eqb_spec lang l); [congruence | lia].
      - intros [Hfloor Hothers]. split; [lia|]. intros l Hne.
        specialize (Hothers l Hne). rewrite (Hone l).
        destruct (String.eqb_spec lang l); [congruence | lia]. }
    assert (Hother : forall l, l <> lang ->
                       (infer_language (set_sdks a [sdk]) = Ok (Some l)
                        <-> infer_language a = Ok (Some l)
                            /\ counter_get c lang + 1 < counter_get c l)).
    { intros l Hne. rewrite !infer_language_weights, (Hone l), Hold.
      destruct (String.eqb_spec lang l) as [Heq | _]; [congruence|].
      rewrite Z.add_0_r. split.
      - intros [Hfloor Hothers]. split; [split; [exact Hfloor|]|].
        + intros l' Hne'. rewrite Hold. specialize (Hothers l' Hne').
          rewrite (Hone l') in Hothers. destruct (String.eqb lang l'); lia.
        + assert (Hne' : lang <> l) by congruence.
          specialize (Hothers lang Hne'). rewrite (Hone lang), String.eqb_refl in Hothers.
          lia.
      - intros [[Hfloor Hothers] Hahead]. split; [exact Hfloor|].
        intros l' Hne'. rewrite (Hone l'). specialize (Hothers l' Hne').
        rewrite Hold in Hothers.
        destruct (String.eqb_spec lang l') as [<- | _]; lia. }
    split; [|split; [exact Hlang|split; [exact Hother|split]]].
    + exists (bumps (language_signals (set_sdks a [sdk])) []).
      split; [apply language_candidates_signals|].
      intros l. rewrite counter_get_bumps. cbn [counter_get]. rewrite Hone. lia.
    + intros Hempty.
      destruct (infer_language_total (set_sdks a [sdk])) as [[l|] Hr]; [|exact Hr].
      exfalso. destruct (string_dec l lang) as [-> | Hne].
      * apply Hlang in Hr. rewrite Hempty in Hr. cbn [counter_get] in Hr. lia.
      * apply (Hother l Hne) in Hr. rewrite Hempty in Hr. cbn [counter_get] in Hr. lia.
    + intros l Hinfer Hlead.
      destruct (infer_language_total (set_sdks a [sdk])) as [[l'|] Hr]; [|exact Hr].
      exfalso. destruct (string_dec l' lang) as [-> | Hne].
      * apply Hlang in Hr. destruct Hr as [_ Hmax].
        assert (Hl : l <> lang) by (intros ->; lia).
        specialize (Hmax l Hl). lia.
      * apply (Hother l' Hne) in Hr. destruct Hr as [Hinfer' Hahead].
        rewrite Hinfer in Hinfer'. injection Hinfer' as <-. lia.
Qed.

Lemma single_sdk_adds_one_witness :
  infer_language agent_go_rust = Ok None
  /\ infer_language (set_sdks agent_go_rust ["go"]) = Ok (Some "go").
Proof.
  split; [vm_compute; reflexivity|].
  assert (Hc : Language.candidates agent_go_rust = Ok [("go", 3); ("rust", 3)])
    by (vm_compute; reflexivity).
  destruct (proj2 (single_sdk_adds_one agent_go_rust _ eq_refl Hc) "go" "go" eq_refl)
    as (_ & Hlang & _).
  apply Hlang. split; [vm_compute; discriminate|].
  intros l _. cbn [counter_get].
  destruct (String.eqb "go" l), (String.eqb "rust" l); vm_compute; discriminate.
Defined.

(** The SDK of another language turns a decision into a tie: the tag [go]
    and a description with Rust give [go], and the SDK [rust] more gives no
    language. *)
Example sdk_creates_tie :
  infer_language agent_go_described_rust = Ok (Some "go")
  /\ infer_language (set_sdks agent_go_described_rust ["rust"]) = Ok None.
Proof. split; vm_compute; reflexivity. Qed.

(** ** The suffix of the repository *)

Lemma endswith_app_inv (s p : string) :
  endswith s p = true -> exists x, s = (x ++ p)%string.
Proof.
  induction s as [|c s IH]; cbn [endswith]; intros H.
  - rewrite orb_false_r in H. apply String.eqb_eq in H. exists "". exact H.
  - apply orb_true_iff in H. destruct H as [H | H].
    + apply String.eqb_eq in H. exists "". exact H.
    + destruct (IH H) as [x ->]. exists (String c x). reflexivity.
Qed.

(** A name that ends in a dash and a word ends in no other such suffix. *)
Lemma dash_suffix_unique (s p : string) :
  dash_word p = true -> endswith s p = true ->
  p = String "-" (last (split "-" s) "").
Proof.
  unfold dash_word. destruct p as [|d w]; [discriminate|].
  destruct (Ascii.eqb_spec d "-") as [-> | Hd].
  - intros Hw Hs. apply negb_true_iff in Hw.
    destruct (endswith_app_inv _ _ Hs) as [x ->].
    rewrite (split_last "-" x w Hw). reflexivity.
  - intros H. exfalso. destruct d as [[] [] [] [] [] [] [] []]; try discriminate H.
    apply Hd. reflexivity.
Qed.

Lemma flat_map_at_most_one {A B : Type} (p : A -> bool) (g : A -> B) (table : list A) :
  NoDup table ->
  (forall r1 r2, In r1 table -> In r2 table -> p r1 = true -> p r2 = true -> r1 = r2) ->
  flat_map (fun r => if p r then [g r] else []) table = []
  \/ exists r, In r table /\ p r = true
               /\ flat_map (fun r => if p r then [g r] else []) table = [g r].
Proof.
  induction table as [|r table IH]; intros Hnd Hone; [left; reflexivity|].
  inversion Hnd as [|? ? Hnotin Hnd']; subst. cbn [flat_map].
  destruct (p r) eqn:Hr.
  - right. exists r. split; [left; reflexivity|]. split; [exact Hr|].
    assert (Hnone : forall l, (forall x, In x l -> In x table) ->
                              flat_map (fun r0 => if p r0 then [g r0] else []) l = []).
    { induction l as [|x l IHl]; intros Hl; [reflexivity|]. cbn [flat_map].
      destruct (p x) eqn:Hx.
      - exfalso. apply Hnotin.
        rewrite (Hone r x); [apply Hl; left; reflexivity | left; reflexivity | | | ];
          [right; apply Hl; left; reflexivity | exact Hr | exact Hx].
      - apply IHl. intros y Hy. apply Hl. right. exact Hy. }
    rewrite (Hnone table) by auto. reflexivity.
  - destruct IH as [-> | [r' [Hin [Hp Heq]]]].
    + exact Hnd'.
    + intros r1 r2 H1 H2. apply Hone; right; assumption.
    + left. reflexivity.
    + right. exists r'. split; [right; exact Hin|]. split; [exact Hp | exact Heq].
Qed.

(** The suffixes of the table are a dash and a word, all different. *)
Lemma repo_suffixes_shape :
  forallb (fun row => dash_word (fst row)) REPO_SUFFIX_LANGUAGE = true
  /\ NoDup (map fst REPO_SUFFIX_LANGUAGE).
Proof.
  split; [vm_compute; reflexivity|].
  unfold REPO_SUFFIX_LANGUAGE. cbn [map fst].
  repeat (constructor; [cbn [In]; intros H;
                        repeat (destruct H as [H | H]; [discriminate H|]);
                        exact H|]).
  constructor.
Qed.

Lemma suffix_signals_at_most_one (actual_repo : string) :
  suffix_signals actual_repo = []
  \/ exists suffix lang,
      In (suffix, lang) REPO_SUFFIX_LANGUAGE
      /\ endswith actual_repo suffix = true
      /\ suffix_signals actual_repo = [(lang, 3)].
Proof.
  destruct repo_suffixes_shape as [Hshape Hkeys]. rewrite forallb_forall in Hshape.
  unfold suffix_signals.
  rewrite (flat_map_ext _
             (fun row : string * string =>
                if endswith actual_repo (fst row) then [(snd row, 3)] else []))
    by (intros [suffix lang]; reflexivity).
  destruct (flat_map_at_most_one (fun row => endswith actual_repo (fst row))
              (fun row : string * string => (snd row, 3)) REPO_SUFFIX_LANGUAGE)
    as [-> | [[suffix lang] [Hin [Hp ->]]]].
  - apply (NoDup_map_inv fst), Hkeys.
  - intros r1 r2 H1 H2 Hp1 Hp2.
    pose proof (dash_suffix_unique _ _ (Hshape _ H1) Hp1) as E1.
    pose proof (dash_suffix_unique _ _ (Hshape _ H2) Hp2) as E2.
    assert (Hfst : fst r1 = fst r2) by congruence.
    clear - Hkeys H1 H2 Hfst.
    induction REPO_SUFFIX_LANGUAGE as [|row table IH]; [contradiction|].
    cbn [map] in Hkeys. inversion Hkeys as [|? ? Hnotin Hnd]; subst.
    destruct H1 as [-> | H1], H2 as [-> | H2].
    + reflexivity.
    + exfalso. apply Hnotin. rewrite Hfst. apply in_map, H2.
    + exfalso. apply Hnotin. rewrite <- Hfst. apply in_map, H1.
    + apply IH; assumption.
  - left. reflexivity.
  - right. exists suffix, lang. auto.
Qed.

(** X5: the repository adds 3 to one language at most: to the language of the
    one suffix of [REPO_SUFFIX_LANGUAGE] in which the fifth part of a
    [github.com] URL ends, without regard to case, and nothing otherwise. *)
Theorem repository_names_one_language (a : Agent) (c : Counter) :
  Language.rule_repo a c = Ok c
  \/ exists segment suffix lang,
      index (split "/" (rstrip (Ascii.eqb "/") (get (repository a) ""))) 4 = Ok segment
      /\ contains "github.com" (get (repository a) "") = true
      /\ In (suffix, lang) REPO_SUFFIX_LANGUAGE
      /\ endswith (lower segment) suffix = true
      /\ Language.rule_repo a c = Ok (incr c lang 3).
Proof.
  rewrite language_rule_repo_bumps. unfold repo_signals. cbv zeta.
  destruct (truthy (get (repository a) "")); [|left; reflexivity].
  destruct (contains "github.com" (get (repository a) "")) eqn:Hhub;
    [|left; reflexivity].
  cbn [andb].
  destruct (5 <=? len (split "/" (rstrip (Ascii.eqb "/") (get (repository a) ""))))
    eqn:Hlen; [|left; reflexivity].
  apply Z.leb_le in Hlen.
  destruct (index_in_range
              (split "/" (rstrip (Ascii.eqb "/") (get (repository a) ""))) 4)
    as [segment [Hidx Hnth]]; [lia|].
  change (Z.to_nat 4) with 4%nat in Hnth. rewrite Hnth.
  destruct (suffix_signals_at_most_one (lower segment))
    as [-> | [suffix [lang [Hin [Hends ->]]]]]; [left; reflexivity|].
  right. exists segment, suffix, lang. rewrite Hidx. auto.
Qed.

(** ** The driver, step by step *)

Lemma total_set (c : Counter) (k : string) (v : Z) :
  total (counter_set c k v) = total c - counter_get c k + v.
Proof.
  induction c as [|[k0 n] c IH]; simpl; [lia|].
  destruct (String.eqb k0 k); simpl; [lia | rewrite IH; lia].
Qed.

Lemma total_incr (c : Counter) (k : string) (w : Z) :
  total (incr c k w) = total c + w.
Proof. unfold incr. rewrite total_set. lia. Qed.

Lemma language_label_accepted (a : Agent) (l : string) :
  infer_language a = Ok (Some l) -> accepted (Some l) = Some l.
Proof.
  intros H. apply language_result_label, existsb_eqb_in in H. cbn [accepted].
  destruct (String.eqb_spec l "") as [-> | Hne]; [vm_compute in H; discriminate|].
  unfold truthy. apply String.eqb_neq in Hne. rewrite Hne. reflexivity.
Qed.

Lemma language_label_not_sentinel (a : Agent) (l : string) :
  infer_language a = Ok (Some l) -> l <> "unknown".
Proof.
  intros H ->. apply language_result_label, existsb_eqb_in in H.
  vm_compute in H. discriminate.
Qed.

Lemma category_label_accepted (a : Agent) (l : string) :
  infer_category a = Ok (Some l) -> accepted (Some l) = Some l.
Proof.
  intros H. apply category_result_label, existsb_eqb_in in H. cbn [accepted].
  destruct (String.eqb_spec l "") as [-> | Hne]; [vm_compute in H; discriminate|].
  unfold truthy. apply String.eqb_neq in Hne. rewrite Hne. reflexivity.
Qed.

Lemma category_label_not_sentinel (a : Agent) (l : string) :
  infer_category a = Ok (Some l) -> l <> "general".
Proof.
  intros H ->. apply category_result_label, existsb_eqb_in in H.
  vm_compute in H. discriminate.
Qed.

Lemma framework_label_accepted (a : Agent) (l : string) :
  infer_framework a = Ok (Some l) -> accepted (Some l) = Some l.
Proof.
  intros H. apply framework_result_label in H. cbn [accepted].
  destruct (String.eqb_spec l "") as [-> | Hne]; [vm_compute in H; discriminate|].
  unfold truthy. apply String.eqb_neq in Hne. rewrite Hne. reflexivity.
Qed.

Lemma framework_label_not_sentinel (a : Agent) (l : string) :
  infer_framework a = Ok (Some l) -> l <> "custom".
Proof.
  intros H ->. apply framework_result_label in H. vm_compute in H. discriminate.
Qed.

Lemma enrich_language_value (t : Turn) :
  exists t',
    enrich_language t = Ok t'
    /\ language (agent t')
       = axis_result (language (agent t)) "unknown" (infer_language (agent t))
    /\ ((agent t' = agent t /\ modified t' = modified t
         /\ file_changes t' = file_changes t
         /\ changes (stats t') = changes (stats t))
        \/ (language (agent t') <> language (agent t) /\ modified t' = true
            /\ (exists line, file_changes t' = file_changes t ++ [line])
            /\ changes (stats t') = changes (stats t) + 1))
    /\ files_modified (stats t') = files_modified (stats t)
    /\ language_changed (stats t') + language_still_unknown (stats t')
       = language_changed (stats t) + language_still_unknown (stats t)
         + (if field_is (language (agent t)) "unknown" then 1 else 0)
    /\ total (language_details (stats t')) - language_changed (stats t')
       = total (language_details (stats t)) - language_changed (stats t).
Proof.
  unfold enrich_language, axis_result.
  destruct (field_is (language (agent t)) "unknown") eqn:Hsentinel.
  - destruct (infer_language_total (agent t)) as [[l|] Hr]; rewrite Hr; cbn [bind].
    + rewrite (language_label_accepted _ _ Hr).
      destruct (language (agent t)) as [old|] eqn:Hold; [|discriminate Hsentinel].
      cbn [field_is] in Hsentinel. apply String.eqb_eq in Hsentinel. subst old.
      cbn [field bind]. eexists. split; [reflexivity|].
      cbn [agent stats modified file_changes set_language language].
      split; [reflexivity|]. split; [right|].
      * split.
        { intros H. injection H as H.
          apply (language_label_not_sentinel _ _ Hr). exact H. }
        split; [reflexivity|]. split; [eexists; reflexivity|].
        unfold changes. cbn [language_changed category_changed framework_changed]. lia.
      * cbn [files_modified language_changed language_still_unknown language_details].
        rewrite total_incr. repeat split; lia.
    + cbn [accepted]. eexists. split; [reflexivity|].
      cbn [agent stats modified file_changes].
      split; [reflexivity|]. split; [left; repeat split|].
      cbn [files_modified language_changed language_still_unknown language_details]. repeat split; lia.
  - exists t. split; [reflexivity|]. split; [reflexivity|].
    split; [left; repeat split|]. repeat split; lia.
Qed.

Lemma enrich_category_value (t : Turn) :
  exists t',
    enrich_category t = Ok t'
    /\ category (agent t')
       = axis_result (category (agent t)) "general" (infer_category (agent t))
    /\ ((agent t' = agent t /\ modified t' = modified t
         /\ file_changes t' = file_changes t
         /\ changes (stats t') = changes (stats t))
        \/ (category (agent t') <> category (agent t) /\ modified t' = true
            /\ (exists line, file_changes t' = file_changes t ++ [line])
            /\ changes (stats t') = changes (stats t) + 1))
    /\ files_modified (stats t') = files_modified (stats t)
    /\ category_changed (stats t') + category_still_general (stats t')
       = category_changed (stats t) + category_still_general (stats t)
         + (if field_is (category (agent t)) "general" then 1 else 0)
    /\ total (category_details (stats t')) - category_changed (stats t')
       = total (category_details (stats t)) - category_changed (stats t).
Proof.
  unfold enrich_category, axis_result.
  destruct (field_is (category (agent t)) "general") eqn:Hsentinel.
  - destruct (infer_category_total (agent t)) as [[l|] Hr]; rewrite Hr; cbn [bind].
    + rewrite (category_label_accepted _ _ Hr).
      destruct (category (agent t)) as [old|] eqn:Hold; [|discriminate Hsentinel].
      cbn [field_is] in Hsentinel. apply String.eqb_eq in Hsentinel. subst old.
      cbn [field bind]. eexists. split; [reflexivity|].
      cbn [agent stats modified file_changes set_category category].
      split; [reflexivity|]. split; [right|].
      * split.
        { intros H. injection H as H.
          apply (category_label_not_sentinel _ _ Hr). exact H. }
        split; [reflexivity|]. split; [eexists; reflexivity|].
        unfold changes. cbn [language_changed category_changed framework_changed]. lia.
      * cbn [files_modified category_changed category_still_general category_details].
        rewrite total_incr. repeat split; lia.
    + cbn [accepted]. eexists. split; [reflexivity|].
      cbn [agent stats modified file_changes].
      split; [reflexivity|]. split; [left; repeat split|].
      cbn [files_modified category_changed category_still_general category_details]. repeat split; lia.
  - exists t. split; [reflexivity|]. split; [reflexivity|].
    split; [left; repeat split|]. repeat split; lia.
Qed.

Lemma enrich_framework_value (t : Turn) :
  exists t',
    enrich_framework t = Ok t'
    /\ framework (agent t')
       = axis_result (framework (agent t)) "custom" (infer_framework (agent t))
    /\ ((agent t' = agent t /\ modified t' = modified t
         /\ file_changes t' = file_changes t
         /\ changes (stats t') = changes (stats t))
        \/ (framework (agent t') <> framework (agent t) /\ modified t' = true
            /\ (exists line, file_changes t' = file_changes t ++ [line])
            /\ changes (stats t') = changes (stats t) + 1))
    /\ files_modified (stats t') = files_modified (stats t)
    /\ framework_changed (stats t') + framework_still_custom (stats t')
       = framework_changed (stats t) + framework_still_custom (stats t)
         + (if field_is (framework (agent t)) "custom" then 1 else 0)
    /\ total (framework_details (stats t')) - framework_changed (stats t')
       = total (framework_details (stats t)) - framework_changed (stats t).
Proof.
  unfold enrich_framework, axis_result.
  destruct (field_is (framework (agent t)) "custom") eqn:Hsentinel.
  - destruct (infer_framework_total (agent t)) as [[l|] Hr]; rewrite Hr; cbn [bind].
    + rewrite (framework_label_accepted _ _ Hr).
      destruct (framework (agent t)) as [old|] eqn:Hold; [|discriminate Hsentinel].
      cbn [field_is] in Hsentinel. apply String.eqb_eq in Hsentinel. subst old.
      cbn [field bind]. eexists. split; [reflexivity|].
      cbn [agent stats modified file_changes set_framework framework].
      split; [reflexivity|]. split; [right|].
      * split.
        { intros H. injection H as H.
          apply (framework_label_not_sentinel _ _ Hr). exact H. }
        split; [reflexivity|]. split; [eexists; reflexivity|].
        unfold changes. cbn [language_changed category_changed framework_changed]. lia.
      * cbn [files_modified framework_changed framework_still_custom framework_details].
        rewrite total_incr. repeat split; lia.
    + cbn [accepted]. eexists. split; [reflexivity|].
      cbn [agent stats modified file_changes].
      split; [reflexivity|]. split; [left; repeat split|].
      cbn [files_modified framework_changed framework_still_custom framework_details]. repeat split; lia.
  - exists t. split; [reflexivity|]. split; [reflexivity|].
    split; [left; repeat split|]. repeat split; lia.
Qed.

(** ** The driver on one agent *)

Lemma len_snoc {A : Type} (l : list A) (x : A) : len (l ++ [x]) = len l + 1.
Proof. unfold len. rewrite length_app. simpl. lia. Qed.

Lemma same_inputs_sym (a b : Agent) : same_inputs a b -> same_inputs b a.
Proof. unfold same_inputs. intuition congruence. Qed.

(** The inference of the language reads the framework and the fields that
    the driver leaves. *)
Lemma infer_language_same_inputs (a b : Agent) :
  same_inputs a b -> framework a = framework b -> infer_language a = infer_language b.
Proof.
  intros (Hslug & Hname & Hdesc & Hrepo & Htags & Hsdks & Hskills & Hprov) Hfw.
  unfold infer_language, Language.candidates, Language.rule_framework,
    Language.rule_tags, Language.rule_repo, Language.rule_name,
    Language.rule_description, Language.rule_official, Language.rule_sdks.
  rewrite Hslug, Hname, Hdesc, Hrepo, Htags, Hsdks, Hfw. reflexivity.
Qed.

(** All that the other properties of the driver need of one agent. *)
Lemma enrich_agent_summary (st : Stats) (a : Agent) :
  exists t,
    enrich_agent st a = Ok t
    /\ same_inputs a (agent t)
    /\ language (agent t) = axis_result (language a) "unknown" (infer_language a)
    /\ category (agent t) = axis_result (category a) "general" (infer_category a)
    /\ framework (agent t) = axis_result (framework a) "custom" (infer_framework a)
    /\ (modified t = false -> agent t = a /\ file_changes t = [])
    /\ (modified t = true -> agent t <> a /\ 1 <= len (file_changes t) <= 3)
    /\ len (file_changes t) = changes (stats t) - changes st
    /\ files_modified (stats t) = files_modified st
    /\ language_changed (stats t) + language_still_unknown (stats t)
       = language_changed st + language_still_unknown st
         + (if field_is (language a) "unknown" then 1 else 0)
    /\ category_changed (stats t) + category_still_general (stats t)
       = category_changed st + category_still_general st
         + (if field_is (category a) "general" then 1 else 0)
    /\ framework_changed (stats t) + framework_still_custom (stats t)
       = framework_changed st + framework_still_custom st
         + (if field_is (framework a) "custom" then 1 else 0)
    /\ total (language_details (stats t)) - language_changed (stats t)
       = total (language_details st) - language_changed st
    /\ total (category_details (stats t)) - category_changed (stats t)
       = total (category_details st) - category_changed st
    /\ total (framework_details (stats t)) - framework_changed (stats t)
       = total (framework_details st) - framework_changed st.
Proof.
  unfold enrich_agent.
  set (t0 := {| agent := a; modified := false; file_changes := []; stats := st |}).
  destruct (enrich_language_value t0) as (t1 & E1 & V1 & M1 & F1 & S1 & D1).
  destruct (enrich_language_step t0)
    as (t1' & E1' & Hin1 & Hc1 & Hf1 & Hcs1 & Hfs1 & _ & _).
  rewrite E1 in E1'. injection E1' as <-. rewrite E1. cbn [bind].
  destruct (enrich_category_value t1) as (t2 & E2 & V2 & M2 & F2 & S2 & D2).
  destruct (enrich_category_step t1)
    as (t2' & E2' & Hin2 & Hl2 & Hf2 & Hls2 & Hfs2 & _ & _).
  rewrite E2 in E2'. injection E2' as <-. rewrite E2. cbn [bind].
  destruct (enrich_framework_value t2) as (t3 & E3 & V3 & M3 & F3 & S3 & D3).
  destruct (enrich_framework_step t2)
    as (t3' & E3' & Hin3 & Hl3 & Hc3 & Hls3 & Hcs3 & _ & _).
  rewrite E3 in E3'. injection E3' as <-.
  change (agent t0) with a in *. change (stats t0) with st in *.
  change (modified t0) with false in *. change (file_changes t0) with (@nil string) in *.
  unfold language_stats, category_stats, framework_stats in *.
  injection Hcs1 as Hcs1a Hcs1b Hcs1c. injection Hfs1 as Hfs1a Hfs1b Hfs1c.
  injection Hls2 as Hls2a Hls2b Hls2c. injection Hfs2 as Hfs2a Hfs2b Hfs2c.
  injection Hls3 as Hls3a Hls3b Hls3c. injection Hcs3 as Hcs3a Hcs3b Hcs3c.
  rewrite (infer_category_same_inputs _ _ (same_inputs_sym _ _ Hin1)) in V2.
  rewrite (infer_framework_same_inputs _ _
             (same_inputs_sym _ _ (same_inputs_trans _ _ _ Hin1 Hin2))) in V3.
  exists t3. split; [exact E3|].
  split; [exact (same_inputs_trans _ _ _ (same_inputs_trans _ _ _ Hin1 Hin2) Hin3)|].
  split; [congruence|]. split; [congruence|]. split; [congruence|].
  assert (Hlen : forall (t t' : Turn),
             (exists line, file_changes t' = file_changes t ++ [line]) ->
             len (file_changes t') = len (file_changes t) + 1).
  { intros t t' [line ->]. apply len_snoc. }
  assert (Hnil : len (@nil string) = 0) by reflexivity.
  assert (Hlen1 : forall l : list string,
             (exists line, l = [] ++ [line]) -> len l = 1).
  { intros l [line ->]. reflexivity. }
  rewrite Hc1 in S2. rewrite Hf2, Hf1 in S3.
  apply (f_equal total) in Hcs1b, Hfs1b, Hls2b, Hfs2b, Hls3b, Hcs3b.
  destruct M1 as [(A1 & B1 & C1 & N1) | (A1 & B1 & C1 & N1)];
    destruct M2 as [(A2 & B2 & C2 & N2) | (A2 & B2 & C2 & N2)];
    destruct M3 as [(A3 & B3 & C3 & N3) | (A3 & B3 & C3 & N3)];
    try apply Hlen1 in C1; try apply Hlen in C2; try apply Hlen in C3;
    (split; [intros Hm; try congruence; split; congruence|]);
    try apply (f_equal (@len string)) in C1;
    try apply (f_equal (@len string)) in C2;
    try apply (f_equal (@len string)) in C3;
    (split; [intros Hm; split; [try congruence; intros Heq; congruence
                               | try congruence; lia]|]);
    repeat split; lia.
Qed.

(** ** The driver on the files *)

Lemma same_field_eq (x y : option string) : same_field x y = true <-> x = y.
Proof.
  destruct x as [s|], y as [s'|]; simpl; try (split; congruence).
  rewrite String.eqb_eq. split; congruence.
Qed.

(** Two records that agree on the inputs and on the axes are the same. *)
Lemma agent_ext (a b : Agent) :
  same_inputs a b -> language a = language b -> category a = category b ->
  framework a = framework b -> a = b.
Proof.
  destruct a, b. unfold same_inputs. simpl.
  intros (-> & -> & -> & -> & -> & -> & -> & ->) -> -> ->. reflexivity.
Qed.

Lemma same_axes_eq (a b : Agent) : same_inputs a b -> same_axes a b = true -> a = b.
Proof.
  intros Hin H. unfold same_axes in H.
  apply andb_true_iff in H. destruct H as [H Hf].
  apply andb_true_iff in H. destruct H as [Hl Hc].
  apply same_field_eq in Hl, Hc, Hf. now apply agent_ext.
Qed.

Lemma same_axes_refl (a : Agent) : same_axes a a = true.
Proof.
  unfold same_axes. rewrite !(proj2 (same_field_eq _ _)); reflexivity.
Qed.

Lemma sentinels_cons (axis : Agent -> option string) (sentinel : string)
  (file : string * Agent) (agent_files : list (string * Agent)) :
  sentinels axis sentinel (file :: agent_files)
  = (if field_is (axis (snd file)) sentinel then 1 else 0)
    + sentinels axis sentinel agent_files.
Proof.
  unfold sentinels, len. cbn [filter].
  destruct (field_is (axis (snd file)) sentinel); cbn [length]; lia.
Qed.

Lemma len_app {A : Type} (l l' : list A) : len (l ++ l') = len l + len l'.
Proof. unfold len. rewrite length_app. lia. Qed.

Lemma len_cons {A : Type} (x : A) (l : list A) : len (x :: l) = 1 + len l.
Proof. unfold len. cbn [length]. lia. Qed.

(** One turn of the loop over the files. *)
Lemma enrich_file_summary (filepath : string) (a : Agent) (r : Run) :
  exists r' a',
    enrich_file (filepath, a) r = Ok r'
    /\ files r' = files r ++ [(filepath, a')]
    /\ file_result (filepath, a) (filepath, a')
    /\ files_modified (run_stats r')
       = files_modified (run_stats r) + (if same_axes a a' then 0 else 1)
    /\ len (changes_log r') - files_modified (run_stats r') - changes (run_stats r')
       = len (changes_log r) - files_modified (run_stats r) - changes (run_stats r)
    /\ (if same_axes a a' then 0 else 1)
       <= changes (run_stats r') - changes (run_stats r)
       <= 3 * (if same_axes a a' then 0 else 1)
    /\ language_changed (run_stats r') + language_still_unknown (run_stats r')
       = language_changed (run_stats r) + language_still_unknown (run_stats r)
         + (if field_is (language a) "unknown" then 1 else 0)
    /\ category_changed (run_stats r') + category_still_general (run_stats r')
       = category_changed (run_stats r) + category_still_general (run_stats r)
         + (if field_is (category a) "general" then 1 else 0)
    /\ framework_changed (run_stats r') + framework_still_custom (run_stats r')
       = framework_changed (run_stats r) + framework_still_custom (run_stats r)
         + (if field_is (framework a) "custom" then 1 else 0)
    /\ total (language_details (run_stats r')) - language_changed (run_stats r')
       = total (language_details (run_stats r)) - language_changed (run_stats r)
    /\ total (category_details (run_stats r')) - category_changed (run_stats r')
       = total (category_details (run_stats r)) - category_changed (run_stats r)
    /\ total (framework_details (run_stats r')) - framework_changed (run_stats r')
       = total (framework_details (run_stats r)) - framework_changed (run_stats r).
Proof.
  unfold enrich_file.
  destruct (enrich_agent_summary (run_stats r) a)
    as (t & -> & Hin & Hl & Hc & Hf & Hsame & Hdiff & Hlog & Hfiles
        & Sl & Sc & Sf & Dl & Dc & Df).
  cbn [bind]. destruct (modified t) eqn:Hm.
  - destruct (Hdiff eq_refl) as [Hne Hlen].
    assert (Hax : same_axes a (agent t) = false).
    { destruct (same_axes a (agent t)) eqn:E; [|reflexivity].
      exfalso. apply Hne. symmetry. now apply same_axes_eq. }
    eexists. exists (agent t). split; [reflexivity|].
    cbn [files run_stats changes_log files_modified language_changed category_changed
         framework_changed language_details category_details framework_details
         language_still_unknown category_still_general framework_still_custom].
    rewrite Hax. unfold changes in *.
    cbn [files_modified language_changed category_changed framework_changed].
    rewrite !len_app, len_cons. change (len (@nil string)) with 0.
    split; [reflexivity|]. split; [unfold file_result; cbn [fst snd]; auto|].
    repeat split; lia.
  - destruct (Hsame eq_refl) as [Heq Hnil].
    eexists. exists a. split; [reflexivity|].
    cbn [files run_stats changes_log].
    rewrite same_axes_refl. rewrite Hnil in Hlog. change (len (@nil string)) with 0 in Hlog.
    split; [reflexivity|].
    split; [rewrite Heq in Hin, Hl, Hc, Hf; unfold file_result; cbn [fst snd]; auto|].
    repeat split; lia.
Qed.

(** The loop over the files, from any state. *)
Lemma enrich_files_summary (agent_files : list (string * Agent)) (r : Run) :
  exists r' out,
    for_each agent_files enrich_file r = Ok r'
    /\ files r' = files r ++ out
    /\ Forall2 file_result agent_files out
    /\ files_modified (run_stats r')
       = files_modified (run_stats r) + rewritten agent_files out
    /\ 0 <= rewritten agent_files out <= len agent_files
    /\ len (changes_log r') - files_modified (run_stats r') - changes (run_stats r')
       = len (changes_log r) - files_modified (run_stats r) - changes (run_stats r)
    /\ rewritten agent_files out
       <= changes (run_stats r') - changes (run_stats r)
       <= 3 * rewritten agent_files out
    /\ language_changed (run_stats r') + language_still_unknown (run_stats r')
       = language_changed (run_stats r) + language_still_unknown (run_stats r)
         + sentinels language "unknown" agent_files
    /\ category_changed (run_stats r') + category_still_general (run_stats r')
       = category_changed (run_stats r) + category_still_general (run_stats r)
         + sentinels category "general" agent_files
    /\ framework_changed (run_stats r') + framework_still_custom (run_stats r')
       = framework_changed (run_stats r) + framework_still_custom (run_stats r)
         + sentinels framework "custom" agent_files
    /\ total (language_details (run_stats r')) - language_changed (run_stats r')
       = total (language_details (run_stats r)) - language_changed (run_stats r)
    /\ total (category_details (run_stats r')) - category_changed (run_stats r')
       = total (category_details (run_stats r)) - category_changed (run_stats r)
    /\ total (framework_details (run_stats r')) - framework_changed (run_stats r')
       = total (framework_details (run_stats r)) - framework_changed (run_stats r).
Proof.
  revert r. induction agent_files as [|[filepath a] agent_files IH]; intros r.
  - exists r, []. cbn [for_each]. rewrite app_nil_r.
    split; [reflexivity|]. split; [reflexivity|]. split; [constructor|].
    unfold sentinels. cbn [filter rewritten]. change (len (@nil (string * Agent))) with 0.
    repeat split; lia.
  - destruct (enrich_file_summary filepath a r)
      as (r1 & a' & E1 & Hfiles1 & Hres1 & Hmod1 & Hlog1 & Hch1
          & Sl1 & Sc1 & Sf1 & Dl1 & Dc1 & Df1).
    destruct (IH r1)
      as (r' & out & E & Hfiles & Hres & Hmod & Hrw & Hlog & Hch
          & Sl & Sc & Sf & Dl & Dc & Df).
    exists r', ((filepath, a') :: out).
    cbn [for_each]. rewrite E1. cbn [bind].
    split; [exact E|].
    split; [rewrite Hfiles, Hfiles1, <- app_assoc; reflexivity|].
    split; [constructor; assumption|].
    rewrite !sentinels_cons. cbn [rewritten snd]. rewrite len_cons.
    destruct (same_axes a a'); repeat split; lia.
Qed.

(** ** What the driver does to an agent and to the files *)

(** X13: on a parsed record of [Agent], the three steps of the driver set the
    flag [modified], on which the file is written back, exactly when they
    changed the record: with the flag unset the record is the one that was
    read and no change is logged, and with the flag set the record differs
    from the one that was read and one to three changes are logged. *)
Theorem enrich_agent_writes_iff_changed (st : Stats) (a : Agent) :
  exists t,
    enrich_agent st a = Ok t
    /\ (modified t = false -> agent t = a /\ file_changes t = [])
    /\ (modified t = true -> agent t <> a /\ 1 <= len (file_changes t) <= 3).
Proof.
  destruct (enrich_agent_summary st a) as (t & E & _ & _ & _ & _ & Hsame & Hdiff & _).
  exists t. auto.
Qed.

Lemma axis_result_idem (current : option string) (sentinel : string)
  (inferred : result (option string)) :
  (forall l, inferred = Ok (Some l) -> l <> sentinel) ->
  axis_result (axis_result current sentinel inferred) sentinel inferred
  = axis_result current sentinel inferred.
Proof.
  intros Hl. unfold axis_result.
  destruct (field_is current sentinel) eqn:E.
  - destruct inferred as [[l|]|e]; try (rewrite E; reflexivity).
    cbn [field_is]. destruct (String.eqb_spec l sentinel) as [Heq|_]; [|reflexivity].
    now destruct (Hl l eq_refl).
  - rewrite E. reflexivity.
Qed.

(** X14: the driver settles in two runs: the first run fixes the category and the
    framework, the second run can only change the language (which reads the
    framework of the first run), and a third run changes nothing and writes
    nothing, whatever the statistics of the runs. *)
Theorem enrich_agent_stable_after_two_runs (st1 st2 st3 : Stats) (a : Agent) :
  exists t1 t2 t3,
    enrich_agent st1 a = Ok t1
    /\ enrich_agent st2 (agent t1) = Ok t2
    /\ enrich_agent st3 (agent t2) = Ok t3
    /\ category (agent t2) = category (agent t1)
    /\ framework (agent t2) = framework (agent t1)
    /\ agent t3 = agent t2
    /\ modified t3 = false.
Proof.
  destruct (enrich_agent_summary st1 a)
    as (t1 & E1 & Hin1 & Hl1 & Hc1 & Hf1 & _).
  destruct (enrich_agent_summary st2 (agent t1))
    as (t2 & E2 & Hin2 & Hl2 & Hc2 & Hf2 & _).
  destruct (enrich_agent_summary st3 (agent t2))
    as (t3 & E3 & Hin3 & Hl3 & Hc3 & Hf3 & _ & Hdiff & _).
  exists t1, t2, t3.
  rewrite <- (infer_category_same_inputs _ _ Hin1) in Hc2.
  rewrite <- (infer_framework_same_inputs _ _ Hin1) in Hf2.
  rewrite Hc1, axis_result_idem in Hc2 by apply category_label_not_sentinel.
  rewrite Hf1, axis_result_idem in Hf2 by apply framework_label_not_sentinel.
  rewrite <- Hc1 in Hc2. rewrite <- Hf1 in Hf2.
  rewrite <- (infer_category_same_inputs _ _ Hin2) in Hc3.
  rewrite <- (infer_category_same_inputs _ _ Hin1) in Hc3.
  rewrite <- (infer_framework_same_inputs _ _ Hin2) in Hf3.
  rewrite <- (infer_framework_same_inputs _ _ Hin1) in Hf3.
  rewrite Hc2, Hc1, axis_result_idem in Hc3 by apply category_label_not_sentinel.
  rewrite Hf2, Hf1, axis_result_idem in Hf3 by apply framework_label_not_sentinel.
  rewrite <- Hc1, <- Hc2 in Hc3. rewrite <- Hf1, <- Hf2 in Hf3.
  rewrite <- (infer_language_same_inputs _ _ Hin2 (eq_sym Hf2)) in Hl3.
  rewrite Hl2, axis_result_idem in Hl3 by apply language_label_not_sentinel.
  rewrite <- Hl2 in Hl3.
  assert (Heq : agent t3 = agent t2)
    by (symmetry; apply agent_ext; [exact Hin3 | congruence ..]).
  repeat (split; [assumption|]).
  destruct (modified t3); [|reflexivity].
  now destruct (proj1 (Hdiff eq_refl)).
Qed.

(** X15: on parsed records of [Agent], the loop of the driver keeps the paths
    of the files and their order, and leaves in each file the record that
    was read with, on each axis that held its sentinel, the label that the
    inference returns on the record as it was read; every other field and
    every other axis is as it was read. *)
Theorem enrich_agents_files (agent_files : list (string * Agent)) :
  exists r,
    enrich_agents agent_files = Ok r
    /\ Forall2 file_result agent_files (files r).
Proof.
  unfold enrich_agents.
  destruct (enrich_files_summary agent_files
              {| files := []; run_stats := initial_stats; changes_log := [] |})
    as (r & out & E & Hfiles & Hres & _).
  exists r. split; [exact E|]. rewrite Hfiles. exact Hres.
Qed.

(** X16: the counts of a run add up: on each axis the files that changed and the
    files that kept the sentinel are together the files that held the
    sentinel, and the counts per label add up to the number of changes. *)
Theorem enrich_agents_counts (agent_files : list (string * Agent)) :
  exists r,
    enrich_agents agent_files = Ok r
    /\ language_changed (run_stats r) + language_still_unknown (run_stats r)
       = sentinels language "unknown" agent_files
    /\ category_changed (run_stats r) + category_still_general (run_stats r)
       = sentinels category "general" agent_files
    /\ framework_changed (run_stats r) + framework_still_custom (run_stats r)
       = sentinels framework "custom" agent_files
    /\ total (language_details (run_stats r)) = language_changed (run_stats r)
    /\ total (category_details (run_stats r)) = category_changed (run_stats r)
    /\ total (framework_details (run_stats r)) = framework_changed (run_stats r).
Proof.
  unfold enrich_agents.
  destruct (enrich_files_summary agent_files
              {| files := []; run_stats := initial_stats; changes_log := [] |})
    as (r & out & E & _ & _ & _ & _ & _ & _ & Sl & Sc & Sf & Dl & Dc & Df).
  exists r. split; [exact E|].
  cbn [run_stats initial_stats language_changed category_changed framework_changed
       language_details category_details framework_details language_still_unknown
       category_still_general framework_still_custom total] in Sl, Sc, Sf, Dl, Dc, Df.
  repeat split; lia.
Qed.

(** X17: the count of the modified files is the number of the files whose record
    differs after the run; the log holds one header for each of them and one
    line for each change, and each of them has one to three changes. *)
Theorem enrich_agents_log (agent_files : list (string * Agent)) :
  exists r,
    enrich_agents agent_files = Ok r
    /\ files_modified (run_stats r) = rewritten agent_files (files r)
    /\ 0 <= files_modified (run_stats r) <= len agent_files
    /\ len (changes_log r) = files_modified (run_stats r) + changes (run_stats r)
    /\ files_modified (run_stats r) <= changes (run_stats r)
       <= 3 * files_modified (run_stats r).
Proof.
  unfold enrich_agents.
  destruct (enrich_files_summary agent_files
              {| files := []; run_stats := initial_stats; changes_log := [] |})
    as (r & out & E & Hfiles & _ & Hmod & Hrw & Hlog & Hch & _).
  exists r. split; [exact E|].
  cbn [files app] in Hfiles. rewrite Hfiles.
  unfold changes in *.
  cbn [run_stats initial_stats files_modified language_changed category_changed
       framework_changed changes_log] in Hmod, Hlog, Hch.
  change (len (@nil string)) with 0 in Hlog.
  repeat split; lia.
Qed.

(** The order of the tags can change the framework, by the order of the
    tally. *)
Example framework_tag_order_matters :
  infer_framework (set_tags no_fields ["langgraph"; "crewai"]) = Ok (Some "langgraph")
  /\ infer_framework (set_tags no_fields ["crewai"; "langgraph"]) = Ok (Some "crewai").
Proof. split; vm_compute; reflexivity. Qed.

(** ** The framework in the tally of the language *)

Lemma key_signal_weight (d : dict string) (k l : string) (w : Z) :
  weight l (key_signal d k w)
  = match dict_get d k with
    | Some v => if String.eqb v l then w else 0
    | None => 0
    end.
Proof.
  unfold key_signal. destruct (dict_get d k) as [v|]; [|reflexivity].
  apply weight_single.
Qed.

(** The framework counts for 3 in the tally of the language, and for nothing
    else. *)
Lemma language_weight_set_framework (a : Agent) (fw l : string) :
  weight l (language_signals (set_framework a fw))
  - weight l (key_signal FRAMEWORK_TO_LANGUAGE fw 3)
  = weight l (language_signals a)
    - weight l (key_signal FRAMEWORK_TO_LANGUAGE (get (framework a) "") 3).
Proof.
  unfold language_signals, language_signals_before_sdks.
  cbn [set_framework framework tags repository slug name description sdks get].
  rewrite !weight_app. lia.
Qed.

(** X6: a framework that the table knows decides for its language exactly when
    no other language is 3 or more ahead of it in the tally of the agent
    without the framework; in particular when that tally is empty, and when
    the language was the one inferred without the framework. *)
Theorem framework_supports_its_language (a : Agent) (c : Counter) (fw lang : string) :
  dict_in (get (framework a) "") FRAMEWORK_TO_LANGUAGE = false ->
  dict_index FRAMEWORK_TO_LANGUAGE fw = Ok lang ->
  Language.candidates a = Ok c ->
  (infer_language (set_framework a fw) = Ok (Some lang)
   <-> forall l, l <> lang -> counter_get c l < counter_get c lang + 3)
  /\ (c = [] -> infer_language (set_framework a fw) = Ok (Some lang))
  /\ (infer_language a = Ok (Some lang) ->
      infer_language (set_framework a fw) = Ok (Some lang)).
Proof.
  intros Hold Hfw Hc.
  rewrite language_candidates_signals in Hc. injection Hc as <-.
  assert (Hget : dict_get FRAMEWORK_TO_LANGUAGE fw = Some lang).
  { unfold dict_index in Hfw. destruct (dict_get FRAMEWORK_TO_LANGUAGE fw);
      [congruence | discriminate]. }
  assert (Hnone : dict_get FRAMEWORK_TO_LANGUAGE (get (framework a) "") = None).
  { unfold dict_in in Hold.
    destruct (dict_get FRAMEWORK_TO_LANGUAGE (get (framework a) ""));
      [discriminate | reflexivity]. }
  assert (Hw : forall l,
             weight l (language_signals (set_framework a fw))
             = weight l (language_signals a) + (if String.eqb lang l then 3 else 0)).
  { intros l. pose proof (language_weight_set_framework a fw l) as H.
    rewrite !key_signal_weight, Hget, Hnone in H. lia. }
  assert (Hpos : 0 <= weight lang (language_signals a)).
  { apply weight_nonneg, language_signals_forall. intros; cbn [snd]; lia. }
  assert (Hiff : infer_language (set_framework a fw) = Ok (Some lang)
                 <-> forall l, l <> lang ->
                               counter_get (bumps (language_signals a) []) l
                               < counter_get (bumps (language_signals a) []) lang + 3).
  { rewrite infer_language_weights. rewrite (Hw lang), String.eqb_refl. split.
    - intros [_ Hothers] l Hne. specialize (Hothers l Hne). rewrite (Hw l) in Hothers.
      rewrite !counter_get_bumps. cbn [counter_get].
      destruct (String.eqb_spec lang l); [congruence | lia].
    - intros Hothers. split; [lia|]. intros l Hne. specialize (Hothers l Hne).
      rewrite !counter_get_bumps in Hothers. cbn [counter_get] in Hothers.
      rewrite (Hw l). destruct (String.eqb_spec lang l); [congruence | lia]. }
  split; [exact Hiff|]. split.
  - intros Hempty. apply Hiff. intros l _. rewrite Hempty. cbn [counter_get]. lia.
  - intros Hinfer. apply Hiff. intros l Hne.
    apply infer_language_weights in Hinfer. destruct Hinfer as [_ Hothers].
    specialize (Hothers l Hne). rewrite !counter_get_bumps. cbn [counter_get]. lia.
Qed.

Lemma framework_supports_its_language_witness :
  infer_language agent_langgraph_unknown = Ok None
  /\ infer_language (set_framework agent_langgraph_unknown "langgraph")
     = Ok (Some "python").
Proof.
  split; [vm_compute; reflexivity|].
  assert (Hc : Language.candidates agent_langgraph_unknown = Ok [])
    by (vm_compute; reflexivity).
  apply (proj1 (proj2 (framework_supports_its_language agent_langgraph_unknown []
                         "langgraph" "python" eq_refl eq_refl Hc))).
  reflexivity.
Defined.

(** ** The keywords of the name and of the slug *)

Lemma keyword_signal_weight (pattern combined category l : string) (w : Z) :
  weight l (keyword_signal pattern combined category w)
  = if String.eqb category l
    then (if is_some (re_search pattern combined) then w else 0) else 0.
Proof.
  unfold keyword_signal. destruct (is_some _); simpl.
  - destruct (String.eqb category l); lia.
  - destruct (String.eqb category l); reflexivity.
Qed.

(** The floor of the category: a label that is returned has 2 at least, and
    without a label no count reaches 2. *)
Lemma category_decide_floor (c : Counter) :
  NoDup (keys c) ->
  (Category.decide c = Ok None -> forall l, counter_get c l < 2)
  /\ (forall l, Category.decide c = Ok (Some l) -> 2 <= counter_get c l).
Proof.
  intros Hnd. destruct (empty c) eqn:Hne.
  - destruct c; [|discriminate]. split.
    + intros _ l. simpl. lia.
    + intros l H. discriminate.
  - destruct (most_common_top c Hne) as [[lt n] [Hmc [Hin Hmax]]].
    rewrite (category_decide_top _ _ Hmc). cbn [fst snd].
    destruct (Z.ltb_spec n 2) as [Hlow | Hfloor]; split.
    + intros _ l. destruct (Z.eq_dec (counter_get c l) 0) as [-> | Hnz]; [lia|].
      specialize (Hmax _ (counter_get_nonzero c l Hnz)). cbn [snd] in Hmax. lia.
    + intros l H. discriminate.
    + intros H. discriminate.
    + intros l H. injection H as <-. rewrite (counter_get_in c lt n Hnd Hin). exact Hfloor.
Qed.

(** X9: an agent with a name and a slug and no tag, description or skill gets
    the category [utility] when its name or its slug holds one of the words
    of a template, and no category otherwise: the keywords of weight 1 never
    decide alone. *)
Theorem name_and_slug_alone (a : Agent) :
  get (tags a) [] = [] ->
  get (description a) "" = "" ->
  get (skills a) [] = [] ->
  infer_category a
  = if is_some
         (re_search "template|sample|demo|starter|scaffold|boilerplate|hello.?world"
            (lower (get (name a) "") ++ " " ++ lower (get (slug a) "")))
    then Ok (Some "utility")
    else Ok None.
Proof.
  intros Ht Hd Hs.
  assert (Hlifie : is_lifie_business_agent a = false).
  { unfold is_lifie_business_agent. cbv zeta. rewrite Ht. apply andb_false_r. }
  assert (Hsignals :
            category_signals a
            = let combined :=
                (lower (get (name a) "") ++ " " ++ lower (get (slug a) ""))%string in
              (keyword_signal "search|retriev|rag" combined "search" 1
               ++ keyword_signal "secur|auth" combined "security" 1
               ++ keyword_signal "financ|bank|trade|crypto" combined "finance" 1
               ++ keyword_signal "travel|flight|hotel|trip" combined "travel" 1
               ++ keyword_signal "media|image|video|audio" combined "media-content" 1
               ++ keyword_signal "code|coding|dev" combined "code-generation" 1
               ++ keyword_signal "data|analy" combined "data-analytics" 1
               ++ keyword_signal "chat|convers" combined "conversational" 1
               ++ keyword_signal "orchestrat|multi.?agent" combined "orchestration" 1
               ++ keyword_signal "deploy|infra|devops|docker|k8s" combined
                    "infrastructure" 1)
              ++ keyword_signal
                   "template|sample|demo|starter|scaffold|boilerplate|hello.?world"
                   combined "utility" 2).
  { unfold category_signals. cbv zeta. rewrite Ht, Hd, Hs.
    replace (tag_rule_signals (fun matches => 3 * matches) (Category.lower_set []))
      with (@nil (string * Z)) by (vm_compute; reflexivity).
    replace (pattern_signals true DESC_CATEGORY_PATTERNS "" 2)
      with (@nil (string * Z)) by (vm_compute; reflexivity).
    reflexivity. }
  cbv zeta in Hsignals.
  assert (Hinfer : infer_category a = Category.decide (bumps (category_signals a) [])).
  { unfold infer_category. rewrite Hlifie, category_candidates_signals. reflexivity. }
  destruct (category_decide_floor (bumps (category_signals a) [])
              (bumps_nil_nodup _)) as [Hnone Hsome].
  destruct (infer_category_total a) as [[l|] Hr]; rewrite Hr; rewrite Hr in Hinfer.
  - specialize (Hsome l (eq_sym Hinfer)).
    rewrite counter_get_bumps, Hsignals in Hsome. cbn [counter_get] in Hsome.
    rewrite !weight_app, !keyword_signal_weight in Hsome.
    repeat match type of Hsome with
           | context [is_some (re_search ?p ?t)] =>
               let m := fresh "m" in
               set (m := is_some (re_search p t)) in *; clearbody m
           end.
    clear Hsignals Hnone Hinfer Hr. revert Hsome.
    repeat match goal with
           | |- context [String.eqb ?c l] => destruct (String.eqb_spec c l) as [<- | ?]
           end;
      repeat match goal with
             | |- context [String.eqb ?x ?y] =>
                 let v := eval vm_compute in (String.eqb x y) in
                 change (String.eqb x y) with v
             end;
      cbv iota;
      repeat match goal with
             | |- context [if ?b then _ else _] => destruct b
             end;
      intros Hsome; first [reflexivity | lia].
  - specialize (Hnone (eq_sym Hinfer) "utility").
    rewrite counter_get_bumps, Hsignals in Hnone. cbn [counter_get] in Hnone.
    rewrite !weight_app, !keyword_signal_weight in Hnone.
    repeat match type of Hnone with
           | context [is_some (re_search ?p ?t)] =>
               let m := fresh "m" in
               set (m := is_some (re_search p t)) in *; clearbody m
           end.
    clear Hsignals Hsome Hinfer Hr. revert Hnone.
    repeat match goal with
           | |- context [String.eqb ?x ?y] =>
               let v := eval vm_compute in (String.eqb x y) in
               change (String.eqb x y) with v
           end.
    cbv iota.
    repeat match goal with
           | |- context [if ?b then _ else _] => destruct b
           end;
      intros Hnone; first [reflexivity | lia].
Qed.

Lemma name_and_slug_alone_witness :
  infer_category agent_demo = Ok (Some "utility").
Proof.
  etransitivity; [apply (name_and_slug_alone agent_demo); reflexivity|].
  vm_compute. reflexivity.
Defined.

(** ** The tags of the framework *)

Lemma framework_tag_weight (a : Agent) (t fw : string) :
  In t (get (tags a) []) ->
  dict_get TAG_TO_FRAMEWORK (lower t) = Some fw ->
  3 <= weight fw (framework_signals a).
Proof.
  intros Hin Hget. unfold framework_signals. rewrite !weight_app.
  pose proof (weight_nonneg fw _
                (pattern_signals_nonneg true FRAMEWORK_DETECTION
                   (Framework.all_text a) 2 ltac:(lia))).
  pose proof (weight_nonneg fw _
                (framework_official_signals_nonneg (get (description a) ""))).
  assert (Htag : 3 <= weight fw (framework_tag_signals (get (tags a) []))).
  { unfold framework_tag_signals.
    etransitivity; [|apply (weight_flat_map_ge _ fw t); [|exact Hin]].
    - cbv beta. rewrite Hget, weight_single, String.eqb_refl. lia.
    - intros r. destruct (dict_get TAG_TO_FRAMEWORK (lower r)); repeat constructor.
      simpl. lia. }
  lia.
Qed.

(** X12: a tag of [TAG_TO_FRAMEWORK], in any case, always gives a framework: the
    tag scores 3 for its framework, so the tally is not empty and its top is
    above the floor and above a weak [google-adk]; the framework returned
    scores as much as the one of the tag, at least. *)
Theorem framework_tag_always_decides (a : Agent) (t : string) :
  In t (get (tags a) []) ->
  dict_in (lower t) TAG_TO_FRAMEWORK = true ->
  exists tagged c fw,
    dict_index TAG_TO_FRAMEWORK (lower t) = Ok tagged
    /\ Framework.candidates a = Ok c
    /\ infer_framework a = Ok (Some fw)
    /\ 3 <= counter_get c tagged <= counter_get c fw.
Proof.
  intros Hin Hkey.
  destruct (dict_index_in _ _ Hkey) as [tagged [Hidx Hget]].
  exists tagged, (bumps (framework_signals a) []).
  pose proof (framework_tag_weight a t tagged Hin Hget) as Hw.
  rewrite <- framework_tally_count in Hw.
  remember (bumps (framework_signals a) []) as c eqn:Hc.
  assert (Hnd : NoDup (keys c)) by (subst c; apply bumps_nil_nodup).
  assert (Hentry : In (tagged, counter_get c tagged) c)
    by (apply counter_get_nonzero; lia).
  assert (Hne : empty c = false) by (destruct c; [contradiction | reflexivity]).
  destruct (most_common_top c Hne) as [[l n] [Hmc [Htop Hmax]]].
  specialize (Hmax _ Hentry). cbn [snd] in Hmax.
  exists l. split; [exact Hidx|].
  split; [subst c; apply framework_candidates_signals|].
  split.
  - unfold infer_framework. rewrite framework_candidates_signals. cbn [bind].
    rewrite <- Hc, (framework_decide_top _ _ _ Hmc). cbn [fst snd].
    replace (n <? 2) with false by (symmetry; apply Z.ltb_ge; lia).
    replace (n <? 3) with false by (symmetry; apply Z.ltb_ge; lia).
    rewrite andb_false_r. reflexivity.
  - rewrite (counter_get_in c l n Hnd Htop). lia.
Qed.

Lemma framework_tag_always_decides_witness :
  exists tagged c fw,
    dict_index TAG_TO_FRAMEWORK (lower "LangGraph") = Ok tagged
    /\ Framework.candidates (set_tags no_fields ["LangGraph"]) = Ok c
    /\ infer_framework (set_tags no_fields ["LangGraph"]) = Ok (Some fw)
    /\ 3 <= counter_get c tagged <= counter_get c fw.
Proof.
  apply (framework_tag_always_decides (set_tags no_fields ["LangGraph"]) "LangGraph").
  - simpl. tauto.
  - vm_compute. reflexivity.
Defined.
